(** * mleip: binary logistic regression by hand (numpy) and the torch dataset adapter

    A shallow embedding of [logistic_regression.py] (class [LogisticRegression])
    and of [data_torch.py] (class [CustomDataset]).

    Numbers are modelled as mathematical reals: the statements below are about
    the formulas the code evaluates, not about binary64 rounding.  A numpy
    column array of shape (m, 1) is a [list R]; a 2-d array of shape (m, d) is
    a [matrix].  The two parameter arrays [_w] and [_b] are updated in place by
    the code, so they live in a heap and the object holds references to them. *)

From Stdlib Require Import Reals Lra Lia List ZArith Permutation.
From stdpp Require Import base option list gmap.
Import ListNotations.

(** ** Elementwise numerics *)

Module Numerics.
Local Open Scope R_scope.

(** [np.maximum(0, logit)] on one entry. *)
Definition logit_max (z : R) : R := Rmax 0 z.

(** [logit - logit_max] on one entry. *)
Definition logit_stable (z : R) : R := z - logit_max z.

(** One entry of [_sigmoid]:
    [np.exp(logit_stable) / (np.exp(-logit_max) + np.exp(logit_stable))]. *)
Definition sigmoid_elem (z : R) : R :=
  exp (logit_stable z) / (exp (- logit_max z) + exp (logit_stable z)).

(** The textbook formula the docstring of [_sigmoid] starts from. *)
Definition sigmoid_naive (z : R) : R := 1 / (1 + exp (- z)).

(** One entry of [logsumexp_stable] in [_loss]. *)
Definition logsumexp_stable (z : R) : R :=
  logit_max z + ln (exp (- logit_max z) + exp (logit_stable z)).

(** One entry of [self._cross_entropy] in [_loss]. *)
Definition cross_entropy_elem (y z : R) : R :=
  - (y * (z - logsumexp_stable z) + (1 - y) * (- logsumexp_stable z)).

(** Binary cross entropy written with the sigmoid, as in the textbooks. *)
Definition bce_naive (y z : R) : R :=
  - (y * ln (sigmoid_elem z) + (1 - y) * ln (1 - sigmoid_elem z)).

(** [np.sum] and [np.mean] over all entries of an array. *)
Definition np_sum (a : list R) : R := fold_right Rplus 0 a.
Definition np_mean (a : list R) : R := np_sum a / INR (length a).

(** [_sigmoid] on a column of logits. *)
Definition _sigmoid (logit : list R) : list R := map sigmoid_elem logit.

(** A label is binary. *)
Definition is_label (y : R) : Prop := y = 0 \/ y = 1.

End Numerics.

(** ** Python results and numpy arrays *)

(** The exceptions the modelled code can raise. *)
Inductive exn : Type :=
  | AttributeError     (* an attribute is read before it was assigned *)
  | IndexError         (* an index is out of bounds *)
  | ValueError         (* shapes do not match, or a range step is zero *)
  | ZeroDivisionError. (* [-1 / m] with [m = 0] *)

Inductive result (A : Type) : Type :=
  | Ok (a : A)
  | Raise (e : exn).
Arguments Ok {A} a.
Arguments Raise {A} e.

Module Arrays.
Import Numerics.

(** A 2-d array: its rows, and [shape[1]] (which numpy keeps even when there
    are no rows). *)
Record matrix : Type := Matrix { rows : list (list R); ncols : nat }.

Definition shape0 (X : matrix) : nat := length (rows X).
Definition shape1 (X : matrix) : nat := ncols X.

Definition matrix_wf (X : matrix) : Prop :=
  Forall (fun r => length r = ncols X) (rows X).

Definition dot (u v : list R) : R := np_sum (zip_with Rmult u v).

(** Column [j] of [X], that is row [j] of [X.T]. *)
Definition column (X : matrix) (j : nat) : list R :=
  map (fun r => nth j r 0%R) (rows X).

(** [np.matmul(X, w)] for [w] of shape (d, 1). *)
Definition matmul_col (X : matrix) (w : list R) : result (list R) :=
  if decide (shape1 X = length w)
  then Ok (map (fun r => dot r w) (rows X))
  else Raise ValueError.

(** [np.matmul(X.T, e)] for [e] of shape (m, 1). *)
Definition matmul_T_col (X : matrix) (e : list R) : result (list R) :=
  if decide (shape0 X = length e)
  then Ok (map (fun j => dot (column X j) e) (seq 0 (ncols X)))
  else Raise ValueError.

(** An elementwise binary operation on two columns, with numpy's
    broadcasting of a one-row operand. *)
Definition broadcast2 (f : R -> R -> R) (a b : list R) : result (list R) :=
  if decide (length a = length b) then Ok (zip_with f a b)
  else match a, b with
       | [x], _ => Ok (map (f x) b)
       | _, [y] => Ok (map (fun x => f x y) a)
       | _, _ => Raise ValueError
       end.

(** [a.take(idx, axis=0)] and [a[idx]] for a list of row indices: every
    index must be in bounds. *)
Fixpoint take_rows {A : Type} (idx : list nat) (a : list A) : result (list A) :=
  match idx with
  | [] => Ok []
  | i :: idx' =>
      match a !! i with
      | None => Raise IndexError
      | Some x =>
          match take_rows idx' a with
          | Ok xs => Ok (x :: xs)
          | Raise e => Raise e
          end
      end
  end.

Definition matrix_take (idx : list nat) (X : matrix) : result matrix :=
  match take_rows idx (rows X) with
  | Ok rs => Ok (Matrix rs (ncols X))
  | Raise e => Raise e
  end.

(** [l[start:stop]] on a Python list, for non-negative bounds. *)
Definition py_slice {A : Type} (l : list A) (start stop : nat) : list A :=
  take (stop - start) (drop start l).

(** [range(start, stop, step)] as CPython computes it: the length first,
    then the items. *)
Definition py_range3 (start stop step : Z) : result (list Z) :=
  if decide (step = 0)%Z then Raise ValueError
  else
    let len :=
      if decide (0 < step)%Z
      then ((stop - start + step - 1) / step)%Z
      else ((start - stop - step - 1) / (- step))%Z in
    Ok (map (fun k => (start + Z.of_nat k * step)%Z) (seq 0 (Z.to_nat len))).

(** [range(n)]. *)
Definition py_range (n : Z) : list Z := map Z.of_nat (seq 0 (Z.to_nat n)).

(** [a[idx]] for an integer index: a negative index counts from the end. *)
Definition py_index {A : Type} (a : list A) (idx : Z) : option A :=
  let n := Z.of_nat (length a) in
  if decide (0 <= idx < n)%Z then a !! Z.to_nat idx
  else if decide (- n <= idx < 0)%Z then a !! Z.to_nat (idx + n)
  else None.

End Arrays.

(** ** The class [LogisticRegression] *)

Module LogReg.
Import Numerics Arrays.

(** A reference to a numpy array that the code mutates in place. *)
Definition loc : Type := nat.

(** The attributes of one [LogisticRegression] instance.  The three
    hyper-parameters are set by [__init__]; every other attribute is absent
    ([None] here) until a method assigns it.  [_w] and [_b] hold references:
    [_optimize] writes through them with [param[:] = ...]. *)
Record obj : Type := Obj {
  _batch_size : Z;
  _lr : R;
  _n_epochs : Z;
  _X_train : option matrix;
  _y_train : option (list R);
  _n_examples : option nat;
  _n_inputs : option nat;
  _w : option loc;
  _b : option loc;
  _cross_entropy : option (list R)
}.

(** [__init__(self, batch_size=64, lr=0.01, n_epochs=1000)] *)
Definition __init__ (batch_size : Z) (lr : R) (n_epochs : Z) : obj :=
  Obj batch_size lr n_epochs None None None None None None None.

Definition set_X_train (v : matrix) (o : obj) : obj :=
  Obj (_batch_size o) (_lr o) (_n_epochs o) (Some v) (_y_train o)
      (_n_examples o) (_n_inputs o) (_w o) (_b o) (_cross_entropy o).
Definition set_y_train (v : list R) (o : obj) : obj :=
  Obj (_batch_size o) (_lr o) (_n_epochs o) (_X_train o) (Some v)
      (_n_examples o) (_n_inputs o) (_w o) (_b o) (_cross_entropy o).
Definition set_n_examples (v : nat) (o : obj) : obj :=
  Obj (_batch_size o) (_lr o) (_n_epochs o) (_X_train o) (_y_train o)
      (Some v) (_n_inputs o) (_w o) (_b o) (_cross_entropy o).
Definition set_n_inputs (v : nat) (o : obj) : obj :=
  Obj (_batch_size o) (_lr o) (_n_epochs o) (_X_train o) (_y_train o)
      (_n_examples o) (Some v) (_w o) (_b o) (_cross_entropy o).
Definition set_w (v : loc) (o : obj) : obj :=
  Obj (_batch_size o) (_lr o) (_n_epochs o) (_X_train o) (_y_train o)
      (_n_examples o) (_n_inputs o) (Some v) (_b o) (_cross_entropy o).
Definition set_b (v : loc) (o : obj) : obj :=
  Obj (_batch_size o) (_lr o) (_n_epochs o) (_X_train o) (_y_train o)
      (_n_examples o) (_n_inputs o) (_w o) (Some v) (_cross_entropy o).
Definition set_cross_entropy (v : list R) (o : obj) : obj :=
  Obj (_batch_size o) (_lr o) (_n_epochs o) (_X_train o) (_y_train o)
      (_n_examples o) (_n_inputs o) (_w o) (_b o) (Some v).

Section WithRandom.

(** The state of Python's [random] module and [random.shuffle] on a list of
    indices: library code, taken as given.  [shuffle g l] is the shuffled list
    and the next generator state. *)
Variable rng : Type.
Variable shuffle : rng -> list nat -> list nat * rng.

(** Everything a method can read or change: the instance, the arrays it
    refers to, the two module-level generators ([random] and [np.random], the
    latter seeded by [np.random.seed(71)] at import) and what was printed
    (epoch and total loss). *)
Record world : Type := World {
  self : obj;
  heap : gmap loc (list R);
  py_random : rng;
  np_random : Z;
  stdout : list (Z * R)
}.

Definition with_self (f : obj -> obj) (s : world) : world :=
  World (f (self s)) (heap s) (py_random s) (np_random s) (stdout s).
Definition with_heap (f : gmap loc (list R) -> gmap loc (list R)) (s : world) : world :=
  World (self s) (f (heap s)) (py_random s) (np_random s) (stdout s).
Definition with_py_random (g : rng) (s : world) : world :=
  World (self s) (heap s) g (np_random s) (stdout s).
Definition with_stdout (f : list (Z * R) -> list (Z * R)) (s : world) : world :=
  World (self s) (heap s) (py_random s) (np_random s) (f (stdout s)).

(** *** A state and exception monad

    A method maps the world to a result and the world it leaves behind; an
    exception keeps the changes made before it was raised. *)
Definition M (A : Type) : Type := world -> result A * world.

Definition ret {A} (a : A) : M A := fun s => (Ok a, s).
Definition raise {A} (e : exn) : M A := fun s => (Raise e, s).
Definition bind {A B} (c : M A) (k : A -> M B) : M B :=
  fun s => match c s with
           | (Ok a, s') => k a s'
           | (Raise e, s') => (Raise e, s')
           end.
Definition lift {A} (r : result A) : M A := fun s => (r, s).
Definition gets {A} (f : world -> A) : M A := fun s => (Ok (f s), s).
Definition modify (f : world -> world) : M unit := fun s => (Ok tt, f s).

Notation "x <- c ;; k" := (bind c (fun x => k))
  (at level 100, c at next level, right associativity).
Notation "c ;; k" := (bind c (fun _ => k))
  (at level 100, right associativity).

(** [self.<attr>] read: AttributeError when it was never assigned. *)
Definition attr {A} (f : obj -> option A) : M A :=
  fun s => match f (self s) with
           | Some a => (Ok a, s)
           | None => (Raise AttributeError, s)
           end.

(** [self.<attr> = v] *)
Definition assign (f : obj -> obj) : M unit := modify (with_self f).

(** A new array object. *)
Definition alloc (a : list R) : M loc :=
  fun s => let l := fresh (dom (heap s)) in
           (Ok l, with_heap (insert l a) s).

(** The contents of an array, and an in-place write to it. *)
Definition deref (l : loc) : M (list R) := gets (fun s => heap s !!! l).
Definition store (l : loc) (a : list R) : M unit := modify (with_heap (insert l a)).

(** [random.shuffle(idx)] *)
Definition random_shuffle (idx : list nat) : M (list nat) :=
  fun s => let '(idx', g) := shuffle (py_random s) idx in
           (Ok idx', with_py_random g s).

(** [print(...)] of an epoch and its total loss. *)
Definition print (epoch : Z) (total_loss : R) : M unit :=
  modify (with_stdout (fun out => out ++ [(epoch, total_loss)])).

(** *** The methods *)

(** [get_dataset(self, X_train, y_train, shuffle=True)] *)
Definition get_dataset (X_train : matrix) (y_train : list R) (do_shuffle : bool)
  : M unit :=
  assign (set_X_train X_train) ;;
  assign (set_y_train y_train) ;;
  X <- attr _X_train ;;
  assign (set_n_examples (shape0 X)) ;;
  X <- attr _X_train ;;
  assign (set_n_inputs (shape1 X)) ;;
  if do_shuffle then
    n <- attr _n_examples ;;
    idx <- random_shuffle (seq 0 n) ;;
    X <- attr _X_train ;;
    X' <- lift (matrix_take idx X) ;;
    assign (set_X_train X') ;;
    y <- attr _y_train ;;
    y' <- lift (take_rows idx y) ;;
    assign (set_y_train y')
  else ret tt.

(** [_create_weights(self)]: two new arrays of zeros, shapes (n_inputs, 1)
    and (1, 1). *)
Definition _create_weights : M unit :=
  d <- attr _n_inputs ;;
  lw <- alloc (repeat 0%R d) ;;
  assign (set_w lw) ;;
  lb <- alloc [0%R] ;;
  assign (set_b lb).

(** [_logit(self, X)]: [np.matmul(X, self._w) + self._b] *)
Definition _logit (X : matrix) : M (list R) :=
  lw <- attr _w ;;
  w <- deref lw ;;
  Xw <- lift (matmul_col X w) ;;
  lb <- attr _b ;;
  b <- deref lb ;;
  lift (broadcast2 Rplus Xw b).

(** [_model(self, X)] *)
Definition _model (X : matrix) : M (list R) :=
  logit <- _logit X ;;
  ret (_sigmoid logit).

(** [_loss(self, y, logit)]: stores the per-example losses and returns their
    mean. *)
Definition _loss (y logit : list R) : M R :=
  ce <- lift (broadcast2 cross_entropy_elem y logit) ;;
  assign (set_cross_entropy ce) ;;
  ret (np_mean ce).

(** [param[:] = value]: the value must have the shape of [param] or one row. *)
Definition assign_all (l : loc) (value : list R) : M unit :=
  param <- deref l ;;
  if decide (length value = length param) then store l value
  else match value with
       | [v] => store l (map (fun _ => v) param)
       | _ => raise ValueError
       end.

(** [_optimize(self, X, y)]: one gradient step on the batch. *)
Definition _optimize (X : matrix) (y : list R) : M unit :=
  let m := shape0 X in
  y_hat <- _model X ;;
  if decide (m = 0) then raise ZeroDivisionError else
  e <- lift (broadcast2 Rminus y y_hat) ;;
  XTe <- lift (matmul_T_col X e) ;;
  let dw := map (Rmult (-1 / INR m)) XTe in
  e' <- lift (broadcast2 Rminus y y_hat) ;;
  let db := (- np_mean e')%R in
  lw <- attr _w ;;
  lb <- attr _b ;;
  (* first pair of the zip: (self._w, dw) *)
  param <- deref lw ;;
  lr <- gets (fun s => _lr (self s)) ;;
  value <- lift (broadcast2 (fun p g => p - lr * g)%R param dw) ;;
  assign_all lw value ;;
  (* second pair: (self._b, db), [db] a scalar *)
  param <- deref lb ;;
  lr <- gets (fun s => _lr (self s)) ;;
  assign_all lb (map (fun p => p - lr * db)%R param).

(** [_fetch_batch(self)] is a generator.  Its first two lines run when the
    [for] loop asks for the first batch and fix the starting offsets
    [range(0, n_examples, batch_size)]; each further request evaluates the
    slice and the two [take]s on the arrays stored at that moment. *)
Definition _fetch_batch : M (list nat * list Z) :=
  n <- attr _n_examples ;;
  let idx := seq 0 n in
  n <- attr _n_examples ;;
  bs <- gets (fun s => _batch_size (self s)) ;;
  starts <- lift (py_range3 0 (Z.of_nat n) bs) ;;
  ret (idx, starts).

Definition _fetch_batch_yield (idx : list nat) (i : Z) : M (matrix * list R) :=
  bs <- gets (fun s => _batch_size (self s)) ;;
  n <- attr _n_examples ;;
  let idx_batch :=
    py_slice idx (Z.to_nat i) (Z.to_nat (Z.min (i + bs) (Z.of_nat n))) in
  X <- attr _X_train ;;
  X_b <- lift (matrix_take idx_batch X) ;;
  y <- attr _y_train ;;
  y_b <- lift (take_rows idx_batch y) ;;
  ret (X_b, y_b).

(** The inner loop of [fit]: one pass over the batches. *)
Fixpoint fit_batches (idx : list nat) (starts : list Z) (total_loss : R) : M R :=
  match starts with
  | [] => ret total_loss
  | i :: starts' =>
      b <- _fetch_batch_yield idx i ;;
      let '(X_train_b, y_train_b) := b in
      (* y_train_b.reshape((m, -1)) keeps a column a column *)
      _optimize X_train_b y_train_b ;;
      logit <- _logit X_train_b ;;
      train_loss <- _loss y_train_b logit ;;
      fit_batches idx starts' (total_loss + train_loss * INR (shape0 X_train_b))%R
  end.

(** The outer loop of [fit]. *)
Fixpoint fit_epochs (epochs : list Z) : M unit :=
  match epochs with
  | [] => ret tt
  | epoch :: epochs' =>
      g <- _fetch_batch ;;
      total_loss <- fit_batches (fst g) (snd g) 0%R ;;
      (if decide (epoch mod 100 = 0)%Z then print epoch total_loss else ret tt) ;;
      fit_epochs epochs'
  end.

(** [fit(self)] *)
Definition fit : M unit :=
  _create_weights ;;
  n <- gets (fun s => _n_epochs (self s)) ;;
  fit_epochs (py_range n).

(** [get_coeff(self)]: the bias array itself and a view of the weights. *)
Definition get_coeff : M (loc * loc) :=
  lb <- attr _b ;;
  lw <- attr _w ;;
  ret (lb, lw).

(** [predict(self, X_test)] *)
Definition predict (X_test : matrix) : M (list R) :=
  p <- _model X_test ;;
  ret p.

(** [list(self._fetch_batch())]: the generator run to its end on its own. *)
Fixpoint drain (idx : list nat) (starts : list Z) : M (list (matrix * list R)) :=
  match starts with
  | [] => ret []
  | i :: starts' =>
      b <- _fetch_batch_yield idx i ;;
      bs <- drain idx starts' ;;
      ret (b :: bs)
  end.

Definition list_fetch_batch : M (list (matrix * list R)) :=
  g <- _fetch_batch ;;
  drain (fst g) (snd g).

(** *** Components of the world, and invariants *)

(** A computation that leaves a component of the world as it found it,
    whatever its outcome. *)
Definition preserves {A B} (proj : world -> B) (c : M A) : Prop :=
  forall s, proj (snd (c s)) = proj s.

(** What [fit] never changes: the hyper-parameters, the stored data and the
    two generators. *)
Definition fit_frame (s : world) :=
  (_batch_size (self s), _lr (self s), _n_epochs (self s),
   (_X_train (self s), _y_train (self s), _n_examples (self s), _n_inputs (self s)),
   py_random s, np_random s).

(** What [_optimize] never changes: every attribute (the references [_w] and
    [_b] among them), the generators and the output. *)
Definition optimize_frame (s : world) :=
  (self s, py_random s, np_random s, stdout s).

(** The attributes [get_dataset] leaves behind when features and labels have
    the same number of rows, for a positive batch size. *)
Record dataset_ok (s : world) (X : matrix) (y : list R) (bs : nat) : Prop := {
  ok_X_train : _X_train (self s) = Some X;
  ok_y_train : _y_train (self s) = Some y;
  ok_n_examples : _n_examples (self s) = Some (shape0 X);
  ok_n_inputs : _n_inputs (self s) = Some (shape1 X);
  ok_batch_size : _batch_size (self s) = Z.of_nat bs;
  ok_batch_pos : 0 < bs;
  ok_labels : length y = shape0 X
}.

(** The parameters are the arrays at [lw] and [lb], with contents [p]. *)
Record params_at (s : world) (lw lb : loc) (p : list R * R) : Prop := {
  at_w : _w (self s) = Some lw;
  at_b : _b (self s) = Some lb;
  at_distinct : lw <> lb;
  at_w_val : heap s !! lw = Some (fst p);
  at_b_val : heap s !! lb = Some [snd p]
}.

(** Two worlds that agree on the instance, on the arrays and on the state of
    [random]; numpy's generator and what was printed before may differ. *)
Definition same_inputs (s1 s2 : world) : Prop :=
  self s1 = self s2 /\ heap s1 = heap s2 /\ py_random s1 = py_random s2.

(** From such worlds a computation gives the same result, ends in such
    worlds, and prints the same lines. *)
Definition deterministic {A} (c : M A) : Prop :=
  forall s1 s2, same_inputs s1 s2 ->
    fst (c s1) = fst (c s2)
    /\ same_inputs (snd (c s1)) (snd (c s2))
    /\ exists out, stdout (snd (c s1)) = stdout s1 ++ out
                   /\ stdout (snd (c s2)) = stdout s2 ++ out.

End WithRandom.

Arguments same_inputs {rng} s1 s2.
Arguments deterministic {rng A} c.
Arguments drain {rng} idx starts s.
Arguments list_fetch_batch {rng} s.
Arguments preserves {rng A B} proj c.
Arguments fit_frame {rng} s.
Arguments optimize_frame {rng} s.
Arguments dataset_ok {rng} s X y bs.
Arguments params_at {rng} s lw lb p.
Arguments World {rng} self heap py_random np_random stdout.
Arguments self {rng} w.
Arguments heap {rng} w.
Arguments py_random {rng} w.
Arguments np_random {rng} w.
Arguments stdout {rng} w.
Arguments with_self {rng} f s.
Arguments with_heap {rng} f s.
Arguments with_py_random {rng} g s.
Arguments with_stdout {rng} f s.
Arguments ret {rng A} a s.
Arguments raise {rng A} e s.
Arguments bind {rng A B} c k s.
Arguments lift {rng A} r s.
Arguments gets {rng A} f s.
Arguments modify {rng} f s.
Arguments attr {rng A} f s.
Arguments assign {rng} f s.
Arguments alloc {rng} a s.
Arguments deref {rng} l s.
Arguments store {rng} l a s.
Arguments random_shuffle {rng} shuffle idx s.
Arguments print {rng} epoch total_loss s.
Arguments get_dataset {rng} shuffle X_train y_train do_shuffle s.
Arguments _create_weights {rng} s.
Arguments _logit {rng} X s.
Arguments _model {rng} X s.
Arguments _loss {rng} y logit s.
Arguments assign_all {rng} l value s.
Arguments _optimize {rng} X y s.
Arguments _fetch_batch {rng} s.
Arguments _fetch_batch_yield {rng} idx i s.
Arguments fit_batches {rng} idx starts total_loss s.
Arguments fit_epochs {rng} epochs s.
Arguments fit {rng} s.
Arguments get_coeff {rng} s.
Arguments predict {rng} X_test s.

End LogReg.

(** ** Gradient descent in closed form

    The update the specification describes, written on values instead of on
    the object: the statements below compare the methods with it. *)

Module Descent.
Import Numerics Arrays.
Local Open Scope R_scope.

(** [Xw + b] *)
Definition logits (X : matrix) (w : list R) (b : R) : list R :=
  map (fun r => dot r w + b) (rows X).

(** [y - sigmoid(Xw + b)] *)
Definition residual (X : matrix) (y w : list R) (b : R) : list R :=
  zip_with Rminus y (map sigmoid_elem (logits X w b)).

(** [(-1/m) * X^T (y - sigmoid(Xw + b))], one entry per input. *)
Definition grad_w (X : matrix) (y w : list R) (b : R) : list R :=
  map (fun j => -1 / INR (shape0 X) * dot (column X j) (residual X y w b))
      (seq 0 (ncols X)).

(** [- mean(y - sigmoid(Xw + b))] *)
Definition grad_b (X : matrix) (y w : list R) (b : R) : R :=
  - np_mean (residual X y w b).

(** The mean cross-entropy loss of the model [(w, b)] on a batch. *)
Definition mean_loss (X : matrix) (y w : list R) (b : R) : R :=
  np_mean (zip_with cross_entropy_elem y (logits X w b)).

(** One update with learning rate [lr]. *)
Definition step (lr : R) (batch : matrix * list R) (p : list R * R) : list R * R :=
  let '(X, y) := batch in
  let '(w, b) := p in
  (zip_with (fun p g => p - lr * g) w (grad_w X y w b), b - lr * grad_b X y w b).

(** The rows [k*s, min(k*s + s, n)) of the stored arrays. *)
Definition batch_at (X : matrix) (y : list R) (n s k : nat) : matrix * list R :=
  (Matrix (py_slice (rows X) (k * s) (Nat.min (k * s + s) n)) (ncols X),
   py_slice y (k * s) (Nat.min (k * s + s) n)).

(** The number of batches of size [s] that cover [n] examples. *)
Definition n_batches (n s : nat) : nat := (n + s - 1) / s.

Definition batches (X : matrix) (y : list R) (n s : nat) : list (matrix * list R) :=
  map (batch_at X y n s) (seq 0 (n_batches n s)).

(** One pass over the batches, and [k] passes. *)
Definition epoch (lr : R) (bs : list (matrix * list R)) (p : list R * R) : list R * R :=
  fold_left (fun p b => step lr b p) bs p.

Definition train (lr : R) (bs : list (matrix * list R)) (k : nat) (p : list R * R)
  : list R * R :=
  Nat.iter k (epoch lr bs) p.

End Descent.

(** ** The class [CustomDataset] of [data_torch.py] *)

Module Dataset.
Import Arrays.

Section WithCallables.

(** Rows of the example table, label values, the callables a caller may pass
    as [transform] and [target_transform], and the exceptions those may
    raise. *)
Variables (Example Label callable E : Type).

(** The attributes of one [CustomDataset]: the two tables [data_reader()]
    returned and the two optional callables.  [if self.transform:] tests
    truthiness; a function object is always true and [None] is false. *)
Record CustomDataset : Type := Build_CustomDataset {
  examples : list Example;
  labels : list Label;
  transform : option callable;
  target_transform : option callable
}.

(** The Python values a callable can be applied to, or return. *)
Inductive pyval : Type :=
  | VExample (e : Example)
  | VLabel (l : Label)
  | VDataset (d : CustomDataset).

(** Calling a Python callable on a value: a value, or an exception. *)
Variable call : callable -> pyval -> pyval + E.

Inductive item : Type :=
  | Item (example label : pyval)   (* [return example, label] *)
  | IndexErr                       (* an index out of bounds *)
  | CallErr (e : E).               (* an exception of a transform *)

(** [__init__(self, data_reader, transform, target_transform)], with
    [data_reader()] already evaluated to its two tables. *)
Definition __init__ (data : list Example * list Label)
    (transform target_transform : option callable) : CustomDataset :=
  Build_CustomDataset (fst data) (snd data) transform target_transform.

(** [__len__(self)] *)
Definition __len__ (ds : CustomDataset) : nat := length (labels ds).

(** [__getitem__(self, idx)] *)
Definition __getitem__ (ds : CustomDataset) (idx : Z) : item :=
  match py_index (examples ds) idx with
  | None => IndexErr
  | Some ex =>
      match py_index (labels ds) idx with
      | None => IndexErr
      | Some lb =>
          let example := VExample ex in
          let label := VLabel lb in
          match (match transform ds with
                 | Some f => call f example
                 | None => inl example
                 end) with
          | inr e => CallErr e
          | inl example =>
              match (match target_transform ds with
                     | Some g => call g (VDataset ds)
                     | None => inl label
                     end) with
              | inr e => CallErr e
              | inl label => Item example label
              end
          end
      end
  end.

End WithCallables.

Arguments VExample {Example Label callable} e.
Arguments VLabel {Example Label callable} l.
Arguments VDataset {Example Label callable} d.
Arguments Item {Example Label callable E} example label.
Arguments IndexErr {Example Label callable E}.
Arguments CallErr {Example Label callable E} e.
Arguments examples {Example Label callable} c.
Arguments labels {Example Label callable} c.
Arguments transform {Example Label callable} c.
Arguments target_transform {Example Label callable} c.
Arguments __init__ {Example Label callable} data transform target_transform.
Arguments __len__ {Example Label callable} ds.
Arguments __getitem__ {Example Label callable E} call ds idx.

End Dataset.

(** ** A small data set and a small dataset adapter

    Concrete inputs on which the statements below are instantiated. *)

Module Example.
Import Numerics Arrays LogReg.

(** A stand-in for [random.shuffle] whose generator state is trivial: it
    reverses the list. *)
Definition flip (g : unit) (l : list nat) : list nat * unit := (rev l, g).

(** Three examples with two inputs each. *)
Definition X : matrix := Matrix [[1; 2]; [3; 4]; [5; 6]]%R 2.
Definition y : list R := [0; 1; 1]%R.

(** [LogisticRegression(batch_size=2, lr=1, n_epochs=3)] in a fresh process. *)
Definition created (np_seed : Z) : world unit :=
  World (__init__ 2 1%R 3) ∅ tt np_seed [].

(** The same after [get_dataset(X, y, shuffle=False)]. *)
Definition loaded : world unit :=
  World (Obj 2 1%R 3 (Some X) (Some y) (Some 3) (Some 2) None None None)
        ∅ tt 71 [].

(** The same after [_create_weights()], with the arrays at 0 and 1. *)
Definition ready : world unit :=
  World (Obj 2 1%R 3 (Some X) (Some y) (Some 3) (Some 2) (Some 0) (Some 1) None)
        (<[1 := [0%R]]> (<[0 := [0; 0]%R]> ∅)) tt 71 [].

(** Callables for the dataset adapter: one doubles a label, one counts the
    labels of a dataset; each raises on any other argument. *)
Inductive fn : Type := Double | CountLabels.

Definition call_fn (f : fn) (v : Dataset.pyval nat nat fn)
  : Dataset.pyval nat nat fn + unit :=
  match f, v with
  | Double, Dataset.VLabel l => inl (Dataset.VLabel (2 * l))
  | CountLabels, Dataset.VDataset d => inl (Dataset.VLabel (length (Dataset.labels d)))
  | _, _ => inr tt
  end.

(** [CustomDataset(reader, target_transform=CountLabels)] over three rows. *)
Definition counted : Dataset.CustomDataset nat nat fn :=
  Dataset.__init__ ([10; 20; 30], [7; 8; 9]) None (Some CountLabels).

End Example.

(** ** The class [LogisticRegressionTF]: loading data and batching

    The graph, the session and the optimizer belong to TensorFlow and are not
    modelled; [get_dataset] and [_fetch_batch] are plain Python on numpy
    arrays.  State is passed explicitly: the instance and the generator of
    [random]. *)

Module LogRegTF.
Import Numerics Arrays.

(** The attributes [__init__] and [get_dataset] assign. *)
Record obj : Type := Obj {
  _batch_size : Z;
  _n_epochs : Z;
  _learning_rate : R;
  _X_train : option matrix;
  _y_train : option (list R);
  _n_examples : option nat;
  _n_inputs : option nat
}.

(** [__init__(self, batch_size=64, learning_rate=0.01, n_epochs=1000)] *)
Definition __init__ (batch_size : Z) (learning_rate : R) (n_epochs : Z) : obj :=
  Obj batch_size n_epochs learning_rate None None None None.

Definition set_X_train (v : matrix) (o : obj) : obj :=
  Obj (_batch_size o) (_n_epochs o) (_learning_rate o) (Some v) (_y_train o)
      (_n_examples o) (_n_inputs o).
Definition set_y_train (v : list R) (o : obj) : obj :=
  Obj (_batch_size o) (_n_epochs o) (_learning_rate o) (_X_train o) (Some v)
      (_n_examples o) (_n_inputs o).
Definition set_n_examples (v : nat) (o : obj) : obj :=
  Obj (_batch_size o) (_n_epochs o) (_learning_rate o) (_X_train o) (_y_train o)
      (Some v) (_n_inputs o).
Definition set_n_inputs (v : nat) (o : obj) : obj :=
  Obj (_batch_size o) (_n_epochs o) (_learning_rate o) (_X_train o) (_y_train o)
      (_n_examples o) (Some v).

Section WithRandom.

Variable rng : Type.
Variable shuffle : rng -> list nat -> list nat * rng.

(** [get_dataset(self, X_train, y_train, shuffle=True)]: unlike the numpy
    class it indexes both arrays by [idx] whether or not [idx] was shuffled.
    The result, the instance and the generator afterwards. *)
Definition get_dataset (X_train : matrix) (y_train : list R) (do_shuffle : bool)
    (o : obj) (g : rng) : result unit * obj * rng :=
  let o := set_X_train X_train o in
  let o := set_y_train y_train o in
  let o := set_n_examples (shape0 X_train) o in
  let o := set_n_inputs (shape1 X_train) o in
  let idx := seq 0 (shape0 X_train) in
  let '(idx, g) := if do_shuffle then shuffle g idx else (idx, g) in
  match matrix_take idx X_train with
  | Raise e => (Raise e, o, g)
  | Ok X' =>
      let o := set_X_train X' o in
      match take_rows idx y_train with
      | Raise e => (Raise e, o, g)
      | Ok y' => (Ok tt, set_y_train y' o, g)
      end
  end.

End WithRandom.

(** One batch of [_fetch_batch]: [(self._X_train[idx_batch, :],
    self._y_train[idx_batch, :])] for the slice of [idx] that starts at [i]. *)
Definition _fetch_batch_yield (o : obj) (idx : list nat) (i : Z)
  : result (matrix * list R) :=
  match _n_examples o with
  | None => Raise AttributeError
  | Some n =>
      let idx_batch :=
        py_slice idx (Z.to_nat i)
                 (Z.to_nat (Z.min (i + _batch_size o) (Z.of_nat n))) in
      match _X_train o with
      | None => Raise AttributeError
      | Some X =>
          match matrix_take idx_batch X with
          | Raise e => Raise e
          | Ok X_b =>
              match _y_train o with
              | None => Raise AttributeError
              | Some y =>
                  match take_rows idx_batch y with
                  | Raise e => Raise e
                  | Ok y_b => Ok (X_b, y_b)
                  end
              end
          end
      end
  end.

Fixpoint drain (o : obj) (idx : list nat) (starts : list Z)
  : result (list (matrix * list R)) :=
  match starts with
  | [] => Ok []
  | i :: starts' =>
      match _fetch_batch_yield o idx i with
      | Raise e => Raise e
      | Ok b =>
          match drain o idx starts' with
          | Raise e => Raise e
          | Ok bs => Ok (b :: bs)
          end
      end
  end.

(** [list(self._fetch_batch())] *)
Definition list_fetch_batch (o : obj) : result (list (matrix * list R)) :=
  match _n_examples o with
  | None => Raise AttributeError
  | Some n =>
      match py_range3 0 (Z.of_nat n) (_batch_size o) with
      | Raise e => Raise e
      | Ok starts => drain o (seq 0 n) starts
      end
  end.

End LogRegTF.

(** ** The script [main] of [logistic_regression.py]

    The train/test split and the thresholding of the predicted
    probabilities.  The test size is [int(data.shape[0] * test_ratio)], a
    floating-point product, and is taken as given here. *)

Module Script.
Import Numerics Arrays.

(** A slice bound of a sequence of length [n] as Python normalises it: a
    negative bound counts from the end, and everything is clamped to
    [0..n]. *)
Definition slice_bound (n : nat) (i : Z) : nat :=
  if decide (i < 0)%Z then Z.to_nat (Z.max (i + Z.of_nat n) 0)
  else Nat.min (Z.to_nat i) n.

(** [a[:stop]] and [a[start:]] *)
Definition slice_to {A : Type} (a : list A) (stop : Z) : list A :=
  take (slice_bound (length a) stop) a.
Definition slice_from {A : Type} (a : list A) (start : Z) : list A :=
  drop (slice_bound (length a) start) a.

(** [X_train = data[:-test_size]], [X_test = data[-test_size:]] and the same
    for the labels. *)
Record split : Type := Split {
  X_train : list (list R);
  X_test : list (list R);
  y_train : list R;
  y_test : list R
}.

Definition train_test_split (data : list (list R)) (label : list R) (test_size : nat)
  : split :=
  Split (slice_to data (- Z.of_nat test_size))
        (slice_from data (- Z.of_nat test_size))
        (slice_to label (- Z.of_nat test_size))
        (slice_from label (- Z.of_nat test_size)).

(** [(p_pred > 0.5) * 1] *)
Definition threshold (p_pred : list R) : list Z :=
  map (fun p => if Rlt_dec (1 / 2) p then 1%Z else 0%Z) p_pred.

End Script.

(** ** What [fit] prints

    The value of [total_loss] at the end of a pass, written on values: after
    each update the mean loss of that batch under the updated parameters,
    times the number of rows of the batch. *)

Module Report.
Import Numerics Arrays.
Local Open Scope R_scope.

(** One pass: the parameters and the total loss it ends with. *)
Fixpoint epoch_trace (lr : R) (bs : list (matrix * list R)) (p : list R * R)
    (total_loss : R) : (list R * R) * R :=
  match bs with
  | [] => (p, total_loss)
  | b :: bs' =>
      let p' := Descent.step lr b p in
      let train_loss := Descent.mean_loss (fst b) (snd b) (fst p') (snd p') in
      epoch_trace lr bs' p' (total_loss + train_loss * INR (shape0 (fst b)))
  end.

(** The lines printed over a list of epochs. *)
Fixpoint report (lr : R) (bs : list (matrix * list R)) (epochs : list Z)
    (p : list R * R) : list (Z * R) :=
  match epochs with
  | [] => []
  | e :: epochs' =>
      let r := epoch_trace lr bs p 0 in
      (if decide (e mod 100 = 0)%Z then [(e, snd r)] else [])
        ++ report lr bs epochs' (fst r)
  end.

End Report.

(** ** Arrays a computation does not touch *)

Module Locality.
Import LogReg.

(** As long as the instance does not refer to the array [l], the computation
    keeps it that way and leaves the contents of [l] alone. *)
Definition leaves_array {rng A : Type} (l : loc) (c : M rng A) : Prop :=
  forall s, _w (self s) <> Some l -> _b (self s) <> Some l ->
    _w (self (snd (c s))) <> Some l
    /\ _b (self (snd (c s))) <> Some l
    /\ heap (snd (c s)) !! l = heap s !! l.

End Locality.

(** ** More concrete inputs *)

Module Sample.
Import Numerics Arrays LogReg.

(** Labels for only two of the three rows of [Example.X]. *)
Definition short_y : list R := [0; 1]%R.

(** [Example.loaded] with [n_epochs=0]. *)
Definition no_epochs : world unit :=
  World (Obj 2 1%R 0 (Some Example.X) (Some Example.y) (Some 3) (Some 2) None None None)
        ∅ tt 71 [].

(** [Example.loaded] with batch size 0, and with batch size -2. *)
Definition zero_batch : world unit :=
  World (Obj 0 1%R 3 (Some Example.X) (Some Example.y) (Some 3) (Some 2) None None None)
        ∅ tt 71 [].
Definition negative_batch : world unit :=
  World (Obj (-2) 1%R 3 (Some Example.X) (Some Example.y) (Some 3) (Some 2) None None None)
        ∅ tt 71 [].

(** [Example.loaded] with batch size 5, more than the three examples. *)
Definition big_batch : world unit :=
  World (Obj 5 1%R 3 (Some Example.X) (Some Example.y) (Some 3) (Some 2) None None None)
        ∅ tt 71 [].

(** A batch with no rows and two columns, and a batch with three columns. *)
Definition no_rows : matrix := Matrix [] 2.
Definition three_columns : matrix := Matrix [[1; 2; 3]]%R 3.

(** [LogisticRegressionTF(batch_size=2, learning_rate=1, n_epochs=3)] after
    [get_dataset(X, y, shuffle=False)]. *)
Definition tf_loaded : LogRegTF.obj :=
  LogRegTF.Obj 2 3 1%R (Some Example.X) (Some Example.y) (Some 3) (Some 2).

(** A dataset adapter without transforms. *)
Definition plain : Dataset.CustomDataset nat nat Example.fn :=
  Dataset.__init__ ([10; 20; 30], [7; 8; 9]) None None.

End Sample.

(** * Properties *)

(** ** The stabilised sigmoid and loss *)

Import Numerics Arrays LogReg.

Section NumericsFacts.
Local Open Scope R_scope.

Lemma logit_max_nonneg z : 0 <= logit_max z.
Proof. unfold logit_max. apply Rmax_l. Qed.

Lemma logit_stable_nonpos z : logit_stable z <= 0.
Proof. unfold logit_stable, logit_max. pose proof (Rmax_r 0 z). lra. Qed.

Lemma exp_nonpos_le_1 x : x <= 0 -> 0 < exp x <= 1.
Proof.
  intros Hx. split; [apply exp_pos |].
  destruct Hx as [Hx | ->]; [| rewrite exp_0; lra].
  left. rewrite <- exp_0. now apply exp_increasing.
Qed.

Lemma exp_shift z : exp (logit_stable z) = exp z * exp (- logit_max z).
Proof. unfold logit_stable. rewrite <- exp_plus. reflexivity. Qed.

(** The denominator of the stabilised quotient is [(1 + e^z) e^(-max)]. *)
Lemma denom_factor z :
  exp (- logit_max z) + exp (logit_stable z) = (1 + exp z) * exp (- logit_max z).
Proof. rewrite exp_shift. ring. Qed.

(** One of the two summands of the denominator is [exp 0 = 1]. *)
Lemma denom_bounds z : 1 < exp (- logit_max z) + exp (logit_stable z) <= 2.
Proof.
  unfold logit_stable, logit_max, Rmax.
  destruct (Rle_dec 0 z) as [Hz | Hz].
  - replace (z - z) with 0 by ring. rewrite exp_0.
    pose proof (exp_pos (- z)).
    assert (exp (- z) <= 1) by (apply exp_nonpos_le_1; lra). lra.
  - replace (- 0) with 0 by ring. rewrite exp_0.
    replace (z - 0) with z by ring.
    pose proof (exp_pos z).
    assert (exp z <= 1) by (apply exp_nonpos_le_1; lra). lra.
Qed.

Lemma sigmoid_elem_exp z : sigmoid_elem z = exp z / (1 + exp z).
Proof.
  unfold sigmoid_elem. rewrite denom_factor, exp_shift.
  pose proof (exp_pos z). pose proof (exp_pos (- logit_max z)).
  field. split; lra.
Qed.

Lemma sigmoid_elem_naive z : sigmoid_elem z = sigmoid_naive z.
Proof.
  rewrite sigmoid_elem_exp. unfold sigmoid_naive.
  pose proof (exp_pos z). pose proof (exp_pos (- z)).
  assert (Hinv : exp z * exp (- z) = 1).
  { rewrite <- exp_plus. replace (z + - z) with 0 by ring. apply exp_0. }
  apply (Rmult_eq_reg_r ((1 + exp z) * (1 + exp (- z)))); [| nra].
  field_simplify; [nra | lra | lra].
Qed.

Lemma sigmoid_elem_range z : 0 < sigmoid_elem z < 1.
Proof.
  rewrite sigmoid_elem_exp. pose proof (exp_pos z).
  split.
  - apply Rdiv_lt_0_compat; lra.
  - apply (Rmult_lt_reg_r (1 + exp z)); [lra |].
    unfold Rdiv. rewrite Rmult_assoc, Rinv_l; lra.
Qed.

Lemma one_minus_sigmoid z : 1 - sigmoid_elem z = 1 / (1 + exp z).
Proof. rewrite sigmoid_elem_exp. pose proof (exp_pos z). field. lra. Qed.

Lemma logsumexp_stable_ln z : logsumexp_stable z = ln (1 + exp z).
Proof.
  unfold logsumexp_stable. rewrite denom_factor.
  pose proof (exp_pos z).
  rewrite ln_mult; [| lra | apply exp_pos].
  rewrite ln_exp. ring.
Qed.

Lemma ln_sigmoid z : ln (sigmoid_elem z) = z - logsumexp_stable z.
Proof.
  rewrite sigmoid_elem_exp, logsumexp_stable_ln.
  pose proof (exp_pos z).
  unfold Rdiv. rewrite ln_mult; [| lra | apply Rinv_0_lt_compat; lra].
  rewrite ln_exp, ln_Rinv; lra.
Qed.

Lemma ln_one_minus_sigmoid z : ln (1 - sigmoid_elem z) = - logsumexp_stable z.
Proof.
  rewrite one_minus_sigmoid, logsumexp_stable_ln.
  pose proof (exp_pos z).
  unfold Rdiv. rewrite Rmult_1_l. apply ln_Rinv. lra.
Qed.

Lemma logsumexp_stable_pos z : 0 < logsumexp_stable z.
Proof.
  rewrite logsumexp_stable_ln. rewrite <- ln_1.
  pose proof (exp_pos z). apply ln_increasing; lra.
Qed.

Lemma logsumexp_stable_gt z : z < logsumexp_stable z.
Proof.
  rewrite logsumexp_stable_ln. rewrite <- (ln_exp z) at 1.
  pose proof (exp_pos z). apply ln_increasing; lra.
Qed.

Lemma cross_entropy_elem_pos y z : is_label y -> 0 < cross_entropy_elem y z.
Proof.
  unfold cross_entropy_elem.
  pose proof (logsumexp_stable_pos z). pose proof (logsumexp_stable_gt z).
  intros [-> | ->]; lra.
Qed.

Lemma cross_entropy_elem_bce y z : cross_entropy_elem y z = bce_naive y z.
Proof.
  unfold cross_entropy_elem, bce_naive.
  now rewrite ln_sigmoid, ln_one_minus_sigmoid.
Qed.

Lemma np_sum_nonneg a : Forall (fun x => 0 <= x) a -> 0 <= np_sum a.
Proof.
  induction 1 as [| x a Hx _ IH]; simpl; [lra |]. lra.
Qed.

Lemma np_sum_pos a : a <> [] -> Forall (fun x => 0 < x) a -> 0 < np_sum a.
Proof.
  intros Hne Hall. destruct Hall as [| x a Hx Hall]; [congruence |].
  simpl. assert (0 <= np_sum a).
  { apply np_sum_nonneg. eapply Forall_impl; [exact Hall |]. simpl. intros; lra. }
  lra.
Qed.

Lemma np_mean_pos a : a <> [] -> Forall (fun x => 0 < x) a -> 0 < np_mean a.
Proof.
  intros Hne Hall. unfold np_mean. apply Rdiv_lt_0_compat.
  - now apply np_sum_pos.
  - apply lt_0_INR. destruct a; [congruence | simpl; lia].
Qed.

(** For a confident correct prediction the loss is below any threshold. *)
Lemma cross_entropy_elem_small eps :
  0 < eps ->
  exists z0, forall z, z0 < z ->
    cross_entropy_elem 1 z < eps /\ cross_entropy_elem 0 (- z) < eps.
Proof.
  intros Heps. exists (- ln eps). intros z Hz.
  assert (Hsmall : forall t, t < ln eps -> ln (1 + exp t) < eps).
  { intros t Ht. pose proof (exp_pos t).
    assert (exp t < eps).
    { rewrite <- (exp_ln eps) by exact Heps. now apply exp_increasing. }
    assert (ln (1 + exp t) < exp t); [| lra].
    rewrite <- (ln_exp (exp t)) at 2. apply ln_increasing; [lra |].
    apply exp_ineq1. lra. }
  unfold cross_entropy_elem. rewrite !logsumexp_stable_ln. split.
  - assert (Heq : ln (1 + exp z) = z + ln (1 + exp (- z))).
    { pose proof (exp_pos z). pose proof (exp_pos (- z)).
      rewrite <- (ln_exp z) at 2. rewrite <- ln_mult; [| apply exp_pos | lra].
      f_equal. rewrite Rmult_plus_distr_l, <- exp_plus.
      replace (z + - z) with 0 by ring. rewrite exp_0. ring. }
    rewrite Heq. specialize (Hsmall (- z)). lra.
  - specialize (Hsmall (- z)). lra.
Qed.

End NumericsFacts.

(** ** The gradient of the mean loss *)

Section Gradient.
Local Open Scope R_scope.

Lemma cross_entropy_elem_closed y z :
  cross_entropy_elem y z = ln (1 + exp z) - y * z.
Proof. unfold cross_entropy_elem. rewrite logsumexp_stable_ln. ring. Qed.

(** The derivative of the per-example loss in the logit is [sigmoid z - y]. *)
Lemma cross_entropy_elem_derivative y z :
  derivable_pt_lim (cross_entropy_elem y) z (sigmoid_elem z - y).
Proof.
  pose proof (exp_pos z) as Hz.
  apply (derivable_pt_lim_ext
           (comp ln (fct_cte 1 + exp) - mult_real_fct y id)%F).
  { intros t. rewrite cross_entropy_elem_closed. reflexivity. }
  replace (sigmoid_elem z - y) with (/ (1 + exp z) * (0 + exp z) - y * 1).
  2:{ rewrite sigmoid_elem_exp. field. lra. }
  apply derivable_pt_lim_minus.
  - apply derivable_pt_lim_comp.
    + apply derivable_pt_lim_plus;
        [apply derivable_pt_lim_const | apply derivable_pt_lim_exp].
    + apply derivable_pt_lim_ln. unfold plus_fct, fct_cte. lra.
  - apply derivable_pt_lim_scal, derivable_pt_lim_id.
Qed.

(** Along a line [t |-> a + c * (t - t0)] of logits. *)
Lemma cross_entropy_line_derivative y a c t0 :
  derivable_pt_lim (fun t => cross_entropy_elem y (a + c * (t - t0))) t0
                   ((sigmoid_elem a - y) * c).
Proof.
  apply (derivable_pt_lim_ext
           (comp (cross_entropy_elem y)
                 (fct_cte a + mult_real_fct c (id - fct_cte t0))%F)).
  { intros t. reflexivity. }
  replace (sigmoid_elem a - y)
    with (sigmoid_elem ((fct_cte a + mult_real_fct c (id - fct_cte t0))%F t0) - y).
  2:{ unfold plus_fct, mult_real_fct, minus_fct, fct_cte, id.
      do 2 f_equal. ring. }
  replace c with (0 + c * (1 - 0)) at 3 by ring.
  apply derivable_pt_lim_comp; [| apply cross_entropy_elem_derivative].
  apply derivable_pt_lim_plus; [apply derivable_pt_lim_const |].
  apply derivable_pt_lim_scal, derivable_pt_lim_minus;
    [apply derivable_pt_lim_id | apply derivable_pt_lim_const].
Qed.

Lemma sum_loss_line_derivative {A} (a c : A -> R) t0 (rs : list A) : forall ys : list R,
  derivable_pt_lim
    (fun t => np_sum (zip_with cross_entropy_elem ys
                               (map (fun r => a r + c r * (t - t0)) rs)))
    t0
    (np_sum (zip_with (fun y r => (sigmoid_elem (a r) - y) * c r) ys rs)).
Proof.
  induction rs as [| r rs IH]; intros [| y ys]; simpl;
    try apply (derivable_pt_lim_const 0).
  apply (derivable_pt_lim_plus
           (fun t => cross_entropy_elem y (a r + c r * (t - t0)))
           (fun t => np_sum (zip_with cross_entropy_elem ys
                               (map (fun r => a r + c r * (t - t0)) rs)))).
  - apply cross_entropy_line_derivative.
  - apply IH.
Qed.

Lemma sum_residual_dot {A} (a c : A -> R) (rs : list A) : forall ys : list R,
  np_sum (zip_with (fun y r => (sigmoid_elem (a r) - y) * c r) ys rs)
  = - dot (map c rs) (zip_with Rminus ys (map (fun r => sigmoid_elem (a r)) rs)).
Proof.
  unfold dot.
  induction rs as [| r rs IH]; intros [| y ys]; simpl; try lra.
  rewrite IH. ring.
Qed.

Lemma dot_insert r w j t :
  (j < length w)%nat ->
  dot r (<[j:=t]> w) = dot r w + nth j r 0 * (t - nth j w 0).
Proof.
  unfold dot. revert r j.
  induction w as [| x w IH]; intros r j Hj; simpl in Hj; [lia |].
  destruct r as [| a r]; [destruct j; simpl; ring |].
  destruct j as [| j]; simpl.
  - ring.
  - rewrite IH by lia. ring.
Qed.

Lemma nth_map_seq {B} (f : nat -> B) (d j : nat) (dflt : B) :
  (j < d)%nat -> nth j (map f (seq 0 d)) dflt = f j.
Proof.
  intros Hj. rewrite (nth_indep _ dflt (f 0%nat)) by (rewrite length_map, length_seq; lia).
  rewrite map_nth, seq_nth by lia. reflexivity.
Qed.

Theorem grad_w_partial_derivative X y w b j :
  (j < ncols X)%nat -> ncols X = length w -> length y = shape0 X ->
  derivable_pt_lim (fun t => Descent.mean_loss X y (<[j:=t]> w) b)
                   (nth j w 0) (nth j (Descent.grad_w X y w b) 0).
Proof.
  intros Hj Hd Hy.
  unfold Descent.grad_w. rewrite nth_map_seq by exact Hj.
  set (a := fun r : list R => dot r w + b).
  set (c := fun r : list R => nth j r 0).
  apply (derivable_pt_lim_ext
           (fun t => np_sum (zip_with cross_entropy_elem y
                       (map (fun r => a r + c r * (t - nth j w 0)) (rows X)))
                     / INR (shape0 X))).
  { intros t. unfold Descent.mean_loss, np_mean, Descent.logits.
    rewrite length_zip_with, length_map. fold (shape0 X).
    rewrite Hy, Nat.min_id. do 3 f_equal.
    apply map_ext. intros r. unfold a, c. rewrite dot_insert by lia. ring. }
  replace (-1 / INR (shape0 X) * dot (column X j) (Descent.residual X y w b))
    with (np_sum (zip_with (fun y r => (sigmoid_elem (a r) - y) * c r) y (rows X))
          / INR (shape0 X)).
  2:{ rewrite sum_residual_dot. unfold column, Descent.residual, Descent.logits.
      rewrite map_map. fold c. unfold Rdiv, a. ring. }
  apply derivable_pt_lim_div_scal, sum_loss_line_derivative.
Qed.

Lemma dot_ones {A} (rs : list A) : forall es : list R,
  (length es <= length rs)%nat -> dot (map (fun _ => 1) rs) es = np_sum es.
Proof.
  unfold dot. induction rs as [| r rs IH]; intros [| e es] Hlen; simpl in *;
    try reflexivity; try lia.
  rewrite IH by lia. ring.
Qed.

Theorem grad_b_derivative X y w b :
  length y = shape0 X ->
  derivable_pt_lim (fun t => Descent.mean_loss X y w t) b (Descent.grad_b X y w b).
Proof.
  intros Hy.
  set (a := fun r : list R => dot r w + b).
  set (c := fun _ : list R => 1).
  apply (derivable_pt_lim_ext
           (fun t => np_sum (zip_with cross_entropy_elem y
                       (map (fun r => a r + c r * (t - b)) (rows X)))
                     / INR (shape0 X))).
  { intros t. unfold Descent.mean_loss, np_mean, Descent.logits.
    rewrite length_zip_with, length_map. fold (shape0 X).
    rewrite Hy, Nat.min_id. do 3 f_equal.
    apply map_ext. intros r. unfold a, c. ring. }
  replace (Descent.grad_b X y w b)
    with (np_sum (zip_with (fun y r => (sigmoid_elem (a r) - y) * c r) y (rows X))
          / INR (shape0 X)).
  2:{ rewrite sum_residual_dot. unfold Descent.grad_b, np_mean, Descent.residual, Descent.logits.
      rewrite map_map, length_zip_with, !length_map. fold (shape0 X).
      rewrite Hy, Nat.min_id. fold a.
      replace (dot (map c (rows X)) (zip_with Rminus y (map (fun r => sigmoid_elem (a r)) (rows X))))
        with (np_sum (zip_with Rminus y (map (fun r => sigmoid_elem (a r)) (rows X)))).
      - unfold Rdiv, a. ring.
      - symmetry. apply dot_ones. rewrite length_zip_with, length_map. lia. }
  apply derivable_pt_lim_div_scal, sum_loss_line_derivative.
Qed.
End Gradient.

(** ** Slices, ranges and row selection *)

Section Lists.
Context {A : Type}.
Implicit Types l : list A.

Lemma take_rows_seq l : forall len a,
  a + len <= length l -> take_rows (seq a len) l = Ok (take len (drop a l)).
Proof.
  induction len as [| len IH]; intros a Hlen; simpl.
  - now rewrite take_0.
  - destruct (lookup_lt_is_Some_2 l a ltac:(lia)) as [x Hx].
    rewrite Hx, IH by lia.
    now rewrite (drop_S _ _ _ Hx).
Qed.

Lemma py_slice_seq n a b :
  a <= b -> b <= n -> py_slice (seq 0 n) a b = seq a (b - a).
Proof.
  intros Hab Hbn. unfold py_slice.
  rewrite drop_seq, take_seq. f_equal. lia.
Qed.
End Lists.

Lemma n_batches_spec n s k : 0 < s -> k < Descent.n_batches n s <-> k * s < n.
Proof.
  intros Hs. unfold Descent.n_batches. split; intros H.
  - pose proof (Nat.Div0.mul_div_le (n + s - 1) s). nia.
  - apply (Nat.div_le_lower_bound (n + s - 1) s (S k)); nia.
Qed.

Lemma py_range3_batches n s :
  0 < s ->
  py_range3 0 (Z.of_nat n) (Z.of_nat s)
  = Ok (map (fun k => Z.of_nat (k * s)) (seq 0 (Descent.n_batches n s))).
Proof.
  intros Hs. unfold py_range3.
  rewrite decide_False by lia. rewrite decide_True by lia.
  f_equal.
  replace (Z.to_nat ((Z.of_nat n - 0 + Z.of_nat s - 1) / Z.of_nat s))
    with (Descent.n_batches n s).
  - apply map_ext. intros k. lia.
  - unfold Descent.n_batches.
    replace (Z.of_nat n - 0 + Z.of_nat s - 1)%Z with (Z.of_nat (n + s - 1)) by lia.
    rewrite <- Nat2Z.inj_div. now rewrite Nat2Z.id.
Qed.

(** ** Running the methods *)

Section Run.
Context {rng : Type}.
Implicit Types s : world rng.

Lemma bind_ok {A B} (c : M rng A) (k : A -> M rng B) s a s' :
  c s = (Ok a, s') -> bind c k s = k a s'.
Proof. unfold bind. now intros ->. Qed.

Lemma attr_ok {A} (f : obj -> option A) s a :
  f (self s) = Some a -> attr f s = (Ok a, s).
Proof. unfold attr. now intros ->. Qed.

Lemma deref_ok l s a : heap s !! l = Some a -> deref l s = (Ok a, s).
Proof. intros H. unfold deref, gets. now rewrite (lookup_total_correct _ _ _ H). Qed.

Lemma broadcast2_same f (a b : list R) :
  length a = length b -> broadcast2 f a b = Ok (zip_with f a b).
Proof. intros H. unfold broadcast2. now rewrite decide_True. Qed.

Lemma broadcast2_scalar_r f (a : list R) (y : R) :
  broadcast2 f a [y] = Ok (map (fun x => f x y) a).
Proof.
  unfold broadcast2. destruct (decide (length a = length [y])) as [H | H].
  - destruct a as [| x [| ? ?]]; simpl in H; try discriminate. reflexivity.
  - destruct a as [| x [| x' a]]; reflexivity.
Qed.

Lemma logit_run X s lw lb w b0 :
  _w (self s) = Some lw -> _b (self s) = Some lb ->
  heap s !! lw = Some w -> heap s !! lb = Some [b0] ->
  shape1 X = length w ->
  _logit X s = (Ok (Descent.logits X w b0), s).
Proof.
  intros Hw Hb Hlw Hlb Hd. unfold _logit.
  rewrite (bind_ok _ _ _ _ _ (attr_ok _ _ _ Hw)).
  rewrite (bind_ok _ _ _ _ _ (deref_ok _ _ _ Hlw)).
  unfold matmul_col. rewrite decide_True by exact Hd.
  unfold bind at 1. unfold lift at 1.
  rewrite (bind_ok _ _ _ _ _ (attr_ok _ _ _ Hb)).
  rewrite (bind_ok _ _ _ _ _ (deref_ok _ _ _ Hlb)).
  rewrite broadcast2_scalar_r. unfold lift, Descent.logits.
  now rewrite map_map.
Qed.

Lemma model_run X s lw lb w b0 :
  _w (self s) = Some lw -> _b (self s) = Some lb ->
  heap s !! lw = Some w -> heap s !! lb = Some [b0] ->
  shape1 X = length w ->
  _model X s = (Ok (map sigmoid_elem (Descent.logits X w b0)), s).
Proof.
  intros Hw Hb Hlw Hlb Hd. unfold _model.
  now rewrite (bind_ok _ _ _ _ _ (logit_run X s lw lb w b0 Hw Hb Hlw Hlb Hd)).
Qed.

Lemma lift_ok {A B} (r : result A) (k : A -> M rng B) s a :
  r = Ok a -> bind (lift r) k s = k a s.
Proof. now intros ->. Qed.

Lemma gets_bind {A B} (f : world rng -> A) (k : A -> M rng B) s :
  bind (gets f) k s = k (f s) s.
Proof. reflexivity. Qed.

Lemma modify_bind {B} (f : world rng -> world rng) (k : unit -> M rng B) s :
  bind (modify f) k s = k tt (f s).
Proof. reflexivity. Qed.

Lemma assign_all_same l value s param :
  heap s !! l = Some param -> length value = length param ->
  assign_all l value s = (Ok tt, with_heap (insert l value) s).
Proof.
  intros Hl Hlen. unfold assign_all.
  rewrite (bind_ok _ _ _ _ _ (deref_ok _ _ _ Hl)).
  now rewrite decide_True.
Qed.

Lemma length_logits X w b0 : length (Descent.logits X w b0) = shape0 X.
Proof. unfold Descent.logits, shape0. now rewrite length_map. Qed.

Lemma length_residual X y w b0 :
  length y = shape0 X -> length (Descent.residual X y w b0) = shape0 X.
Proof.
  intros H. unfold Descent.residual.
  rewrite length_zip_with, length_map, length_logits. lia.
Qed.

Lemma length_grad_w X y w b0 : length (Descent.grad_w X y w b0) = ncols X.
Proof. unfold Descent.grad_w. now rewrite length_map, length_seq. Qed.

Lemma optimize_run X y s lw lb w b0 :
  _w (self s) = Some lw -> _b (self s) = Some lb -> lw <> lb ->
  heap s !! lw = Some w -> heap s !! lb = Some [b0] ->
  shape1 X = length w -> length y = shape0 X -> shape0 X <> 0 ->
  _optimize X y s =
    (Ok tt,
     with_heap (insert lb [snd (Descent.step (_lr (self s)) (X, y) (w, b0))])
       (with_heap (insert lw (fst (Descent.step (_lr (self s)) (X, y) (w, b0)))) s)).
Proof.
  intros Hw Hb Hne Hlw Hlb Hd Hy Hm. unfold _optimize.
  rewrite (bind_ok _ _ _ _ _ (model_run X s lw lb w b0 Hw Hb Hlw Hlb Hd)).
  rewrite decide_False by exact Hm.
  assert (He : broadcast2 Rminus y (map sigmoid_elem (Descent.logits X w b0))
               = Ok (Descent.residual X y w b0)).
  { apply broadcast2_same. rewrite length_map, length_logits. exact Hy. }
  rewrite (lift_ok _ _ _ _ He).
  assert (HXT : matmul_T_col X (Descent.residual X y w b0)
                = Ok (map (fun j => dot (column X j) (Descent.residual X y w b0))
                          (seq 0 (ncols X)))).
  { unfold matmul_T_col. rewrite decide_True; [reflexivity |].
    symmetry. now apply length_residual. }
  rewrite (lift_ok _ _ _ _ HXT), (lift_ok _ _ _ _ He).
  rewrite (bind_ok _ _ _ _ _ (attr_ok _ _ _ Hw)).
  rewrite (bind_ok _ _ _ _ _ (attr_ok _ _ _ Hb)).
  rewrite (bind_ok _ _ _ _ _ (deref_ok _ _ _ Hlw)).
  rewrite gets_bind, map_map.
  change (map (fun j => (-1 / INR (shape0 X) * dot (column X j) (Descent.residual X y w b0))%R)
              (seq 0 (ncols X))) with (Descent.grad_w X y w b0).
  assert (Hval : broadcast2 (fun p g => (p - _lr (self s) * g)%R) w (Descent.grad_w X y w b0)
                 = Ok (zip_with (fun p g => (p - _lr (self s) * g)%R) w (Descent.grad_w X y w b0))).
  { apply broadcast2_same. rewrite length_grad_w. symmetry. exact Hd. }
  rewrite (lift_ok _ _ _ _ Hval).
  erewrite bind_ok; cycle 1.
  { apply (assign_all_same lw _ s w Hlw).
    rewrite length_zip_with, length_grad_w. unfold shape1 in Hd. lia. }
  assert (Hlb' : heap (with_heap (insert lw (zip_with (fun p g => (p - _lr (self s) * g)%R) w
                                               (Descent.grad_w X y w b0))) s) !! lb = Some [b0]).
  { simpl. rewrite lookup_insert_ne by exact Hne. exact Hlb. }
  rewrite (bind_ok _ _ _ _ _ (deref_ok _ _ _ Hlb')).
  rewrite gets_bind.
  rewrite (assign_all_same lb _ _ [b0] Hlb') by reflexivity.
  reflexivity.
Qed.
End Run.

(** ** What the methods leave unchanged *)

Section Frame.
Context {rng : Type}.
Implicit Types s : world rng.

Lemma preserves_bind {A B C} (proj : world rng -> C) (c : M rng A) (k : A -> M rng B) :
  preserves proj c -> (forall a, preserves proj (k a)) -> preserves proj (bind c k).
Proof.
  intros Hc Hk s. unfold bind. specialize (Hc s).
  destruct (c s) as [[a | e] s1]; simpl in *; [| exact Hc].
  now rewrite Hk.
Qed.

Lemma preserves_attr {A C} (proj : world rng -> C) (f : obj -> option A) :
  preserves proj (attr f).
Proof. intros s. unfold attr. now destruct (f (self s)). Qed.

Lemma preserves_still {A C} (proj : world rng -> C) (c : M rng A) :
  (forall s, snd (c s) = s) -> preserves proj c.
Proof. intros H s. now rewrite H. Qed.

Lemma preserves_modify {C} (proj : world rng -> C) (f : world rng -> world rng) :
  (forall s, proj (f s) = proj s) -> preserves proj (modify f).
Proof. intros H s. apply H. Qed.

Ltac frame_step :=
  first
    [ apply preserves_bind; [| intros ?]
    | apply preserves_attr
    | apply preserves_modify; intros ?; reflexivity
    | apply preserves_still; intros ?; reflexivity
    | match goal with
      | |- preserves _ (if ?b then _ else _) => destruct b
      | |- preserves _ (match ?x with _ => _ end) => destruct x
      | |- preserves _ (let '(_, _) := ?x in _) => destruct x
      end ].
Ltac frame := repeat frame_step.

Lemma logit_still X : preserves (fun s => s) (_logit (rng:=rng) X).
Proof. unfold _logit. frame. Qed.

Lemma model_still X : preserves (fun s => s) (_model (rng:=rng) X).
Proof. unfold _model. frame. Qed.

Lemma predict_still X : preserves (fun s => s) (predict (rng:=rng) X).
Proof. unfold predict. frame. Qed.

Lemma preserves_weaken {A B C} (proj : world rng -> B) (g : B -> C) (c : M rng A) :
  preserves proj c -> preserves (fun s => g (proj s)) c.
Proof. intros H s. now rewrite H. Qed.


Lemma optimize_keeps X y : preserves optimize_frame (_optimize (rng:=rng) X y).
Proof. unfold _optimize. frame. Qed.

Lemma optimize_fit_frame X y : preserves fit_frame (_optimize (rng:=rng) X y).
Proof. unfold _optimize. frame. Qed.

Lemma fit_batches_frame idx starts : forall total,
  preserves fit_frame (fit_batches (rng:=rng) idx starts total).
Proof.
  induction starts as [| i starts IH]; intros total; simpl; frame. apply IH.
Qed.

Lemma fit_epochs_frame epochs : preserves fit_frame (fit_epochs (rng:=rng) epochs).
Proof.
  induction epochs as [| e epochs IH]; simpl; frame; try exact IH.
  apply fit_batches_frame.
Qed.

Lemma fit_keeps : preserves fit_frame (fit (rng:=rng)).
Proof.
  unfold fit. frame.
  apply fit_epochs_frame.
Qed.
End Frame.

(** ** The training loop against the closed form *)

Section Batches.
Context {rng : Type}.
Implicit Types s : world rng.

Lemma fetch_batch_run s X y bs :
  dataset_ok s X y bs ->
  _fetch_batch s =
    (Ok (seq 0 (shape0 X),
         map (fun k => Z.of_nat (k * bs)) (seq 0 (Descent.n_batches (shape0 X) bs))),
     s).
Proof.
  intros [HX Hy Hn Hd Hbs Hpos Hlen]. unfold _fetch_batch.
  rewrite !(bind_ok _ _ _ _ _ (attr_ok _ _ _ Hn)).
  rewrite gets_bind, Hbs.
  now rewrite (lift_ok _ _ _ _ (py_range3_batches _ _ Hpos)).
Qed.

Lemma batch_at_shape X y bs k :
  length y = shape0 X ->
  shape0 (fst (Descent.batch_at X y (shape0 X) bs k))
    = Nat.min (k * bs + bs) (shape0 X) - k * bs
  /\ length (snd (Descent.batch_at X y (shape0 X) bs k))
    = Nat.min (k * bs + bs) (shape0 X) - k * bs
  /\ shape1 (fst (Descent.batch_at X y (shape0 X) bs k)) = shape1 X.
Proof.
  intros Hlen. unfold Descent.batch_at, py_slice, shape0, shape1 in *. simpl.
  rewrite !length_take, !length_drop. lia.
Qed.

Lemma fetch_batch_yield_run s X y bs k :
  dataset_ok s X y bs -> k * bs < shape0 X ->
  _fetch_batch_yield (seq 0 (shape0 X)) (Z.of_nat (k * bs)) s
  = (Ok (Descent.batch_at X y (shape0 X) bs k), s).
Proof.
  intros [HX Hy Hn Hd Hbs Hpos Hlen] Hk. unfold _fetch_batch_yield.
  rewrite gets_bind, Hbs.
  rewrite (bind_ok _ _ _ _ _ (attr_ok _ _ _ Hn)).
  replace (Z.to_nat (Z.min (Z.of_nat (k * bs) + Z.of_nat bs) (Z.of_nat (shape0 X))))
    with (Nat.min (k * bs + bs) (shape0 X)) by lia.
  rewrite Nat2Z.id, py_slice_seq by lia.
  rewrite (bind_ok _ _ _ _ _ (attr_ok _ _ _ HX)).
  unfold matrix_take.
  rewrite take_rows_seq by (unfold shape0 in *; lia).
  rewrite (lift_ok _ _ _ _ eq_refl).
  rewrite (bind_ok _ _ _ _ _ (attr_ok _ _ _ Hy)).
  rewrite take_rows_seq by (unfold shape0 in *; lia).
  rewrite (lift_ok _ _ _ _ eq_refl).
  reflexivity.
Qed.

Lemma dataset_ok_self s s' X y bs :
  dataset_ok s X y bs -> self s' = self s -> dataset_ok s' X y bs.
Proof. intros [] Heq. constructor; rewrite ?Heq; assumption. Qed.

Lemma dataset_ok_frame s s' X y bs :
  dataset_ok s X y bs -> fit_frame s' = fit_frame s -> dataset_ok s' X y bs.
Proof.
  intros [] Heq. unfold fit_frame in Heq.
  injection Heq as Hbs Hlr Hep HX Hy Hn Hd Hg Hnp.
  constructor; congruence.
Qed.

Lemma loss_run y logit s :
  length y = length logit ->
  _loss y logit s =
    (Ok (np_mean (zip_with cross_entropy_elem y logit)),
     with_self (set_cross_entropy (zip_with cross_entropy_elem y logit)) s).
Proof.
  intros Hlen. unfold _loss.
  now rewrite (lift_ok _ _ _ _ (broadcast2_same _ _ _ Hlen)).
Qed.

(** One iteration of the inner loop of [fit], followed by anything. *)
Lemma fit_batch_step s X y bs lw lb p k :
  dataset_ok s X y bs -> params_at s lw lb p -> length (fst p) = shape1 X ->
  k * bs < shape0 X ->
  let B := Descent.batch_at X y (shape0 X) bs k in
  let p' := Descent.step (_lr (self s)) B p in
  exists s',
    (forall C (K : matrix -> R -> M rng C),
       bind (_fetch_batch_yield (seq 0 (shape0 X)) (Z.of_nat (k * bs)))
         (fun b => let '(X_b, y_b) := b in
            bind (_optimize X_b y_b)
              (fun _ => bind (_logit X_b)
              (fun logit => bind (_loss y_b logit) (K X_b)))) s
       = K (fst B) (Descent.mean_loss (fst B) (snd B) (fst p') (snd p')) s')
    /\ fit_frame s' = fit_frame s /\ stdout s' = stdout s
    /\ params_at s' lw lb p'
    /\ length (fst p') = shape1 X.
Proof.
  intros Hds [Hw Hb Hne Hlw Hlb] Hlen Hk B p'.
  destruct (batch_at_shape X y bs k (ok_labels _ _ _ _ _ Hds)) as (Hm & Hy & Hd).
  pose proof (ok_batch_pos _ _ _ _ _ Hds) as Hpos.
  pose proof (fetch_batch_yield_run s X y bs k Hds Hk) as Hyield.
  fold B in Hm, Hy, Hd, Hyield.
  clearbody B. destruct B as [X_b y_b]. destruct p as [w b0].
  simpl in Hlw, Hlb, Hlen, Hm, Hy, Hd.
  assert (Hlen' : length (fst p') = shape1 X).
  { unfold p'. simpl. rewrite length_zip_with, length_grad_w.
    unfold shape1 in *. lia. }
  set (s1 := with_heap (insert lb [snd p']) (with_heap (insert lw (fst p')) s)).
  assert (Hopt : _optimize X_b y_b s = (Ok tt, s1)).
  { apply (optimize_run X_b y_b s lw lb w b0); auto; lia. }
  assert (Hp1 : params_at s1 lw lb p').
  { constructor; auto; unfold s1; simpl.
    - rewrite lookup_insert_ne by auto. now rewrite lookup_insert_eq.
    - now rewrite lookup_insert_eq. }
  destruct Hp1 as [Hw1 Hb1 _ Hlw1 Hlb1].
  assert (Hlogit : _logit X_b s1 = (Ok (Descent.logits X_b (fst p') (snd p')), s1)).
  { apply (logit_run X_b s1 lw lb (fst p') (snd p')); auto; congruence. }
  exists (with_self (set_cross_entropy
            (zip_with cross_entropy_elem y_b
               (Descent.logits X_b (fst p') (snd p')))) s1).
  split; [| repeat split; auto].
  intros C K.
  rewrite (bind_ok _ _ _ _ _ Hyield).
  rewrite (bind_ok _ _ _ _ _ Hopt), (bind_ok _ _ _ _ _ Hlogit).
  erewrite bind_ok; [reflexivity |].
  apply loss_run. rewrite length_logits. lia.
Qed.

Lemma fit_batches_run X y bs lw lb : forall ks s p total,
  dataset_ok s X y bs -> params_at s lw lb p -> length (fst p) = shape1 X ->
  Forall (fun k => k * bs < shape0 X) ks ->
  let p' := Descent.epoch (_lr (self s))
              (map (Descent.batch_at X y (shape0 X) bs) ks) p in
  exists total' s',
    fit_batches (seq 0 (shape0 X)) (map (fun k => Z.of_nat (k * bs)) ks) total s
    = (Ok total', s')
    /\ fit_frame s' = fit_frame s /\ stdout s' = stdout s
    /\ params_at s' lw lb p' /\ length (fst p') = shape1 X.
Proof.
  induction ks as [| k ks IH]; intros s p total Hds Hp Hlen Hks p'.
  - exists total, s. simpl. repeat split; auto; apply Hp.
  - inversion Hks as [| ? ? Hk Hks']; subst.
    destruct (fit_batch_step s X y bs lw lb p k Hds Hp Hlen Hk)
      as (s1 & Hrun & Hfr & Hout & Hp1 & Hlen1).
    cbn [map fit_batches]. rewrite Hrun.
    assert (Hlr : _lr (self s1) = _lr (self s)).
    { unfold fit_frame in Hfr. congruence. }
    edestruct (IH s1 (Descent.step (_lr (self s)) (Descent.batch_at X y (shape0 X) bs k) p))
      as (total' & s' & Hrun' & Hfr' & Hout' & Hp' & Hlen');
      eauto using dataset_ok_frame.
    rewrite Hlr in Hp', Hlen'.
    exists total', s'. split; [exact Hrun' |].
    repeat split; try congruence; try exact Hlen'; apply Hp'.
Qed.

Lemma fit_epochs_run X y bs lw lb : forall epochs s p,
  dataset_ok s X y bs -> params_at s lw lb p -> length (fst p) = shape1 X ->
  let p' := Descent.train (_lr (self s)) (Descent.batches X y (shape0 X) bs)
              (length epochs) p in
  exists s' printed,
    fit_epochs epochs s = (Ok tt, s')
    /\ fit_frame s' = fit_frame s
    /\ stdout s' = stdout s ++ printed
    /\ map fst printed = filter (fun e => e mod 100 = 0)%Z epochs
    /\ params_at s' lw lb p' /\ length (fst p') = shape1 X.
Proof.
  induction epochs as [| e epochs IH]; intros s p Hds Hp Hlen p'.
  - exists s, []. simpl. rewrite app_nil_r. repeat split; auto; apply Hp.
  - assert (Hks : Forall (fun k => k * bs < shape0 X)
                    (seq 0 (Descent.n_batches (shape0 X) bs))).
    { apply Forall_forall. intros k Hk. apply elem_of_seq in Hk.
      apply n_batches_spec; [apply (ok_batch_pos _ _ _ _ _ Hds) | lia]. }
    destruct (fit_batches_run X y bs lw lb _ s p 0%R Hds Hp Hlen Hks)
      as (total & s1 & Hrun & Hfr & Hout & Hp1 & Hlen1).
    assert (Hlr : _lr (self s1) = _lr (self s)).
    { unfold fit_frame in Hfr. congruence. }
    set (s2 := if decide (e mod 100 = 0)%Z
               then with_stdout (fun out => out ++ [(e, total)]) s1 else s1).
    assert (Hfr2 : fit_frame s2 = fit_frame s).
    { unfold s2. destruct (decide _); [| exact Hfr]. rewrite <- Hfr. reflexivity. }
    assert (Hself2 : self s2 = self s1 /\ heap s2 = heap s1).
    { unfold s2. destruct (decide _); split; reflexivity. }
    destruct Hself2 as [Hself2 Hheap2].
    assert (Hp2 : params_at s2 lw lb
                    (Descent.epoch (_lr (self s)) (Descent.batches X y (shape0 X) bs) p)).
    { destruct Hp1. constructor; rewrite ?Hself2, ?Hheap2; assumption. }
    destruct (IH s2 _ (dataset_ok_frame _ _ _ _ _ Hds Hfr2) Hp2 Hlen1)
      as (s' & printed & Hrun' & Hfr' & Hout' & Hpr & Hp' & Hlen').
    assert (Hlr2 : _lr (self s2) = _lr (self s)) by now rewrite Hself2.
    rewrite Hlr2 in Hp', Hlen'.
    exists s', ((if decide (e mod 100 = 0)%Z then [(e, total)] else []) ++ printed).
    assert (Htrain : p' = Descent.train (_lr (self s)) (Descent.batches X y (shape0 X) bs)
                            (length epochs)
                            (Descent.epoch (_lr (self s))
                               (Descent.batches X y (shape0 X) bs) p)).
    { unfold p', Descent.train. cbn [length]. now rewrite Nat.iter_succ_r. }
    rewrite Htrain.
    split; [| split; [congruence | split; [| split; [| split; assumption]]]].
    + cbn [fit_epochs].
      rewrite (bind_ok _ _ _ _ _ (fetch_batch_run s X y bs Hds)).
      cbn [fst snd]. rewrite (bind_ok _ _ _ _ _ Hrun).
      unfold s2 in Hrun'. destruct (decide (e mod 100 = 0)%Z); exact Hrun'.
    + rewrite Hout'. unfold s2.
      destruct (decide (e mod 100 = 0)%Z); simpl; rewrite ?Hout, <- ?app_assoc;
        reflexivity.
    + rewrite map_app, Hpr.
      destruct (decide (e mod 100 = 0)%Z) as [He | He].
      * now rewrite filter_cons_True.
      * now rewrite filter_cons_False.
Qed.

Lemma create_weights_run s d :
  _n_inputs (self s) = Some d ->
  let lw := fresh (dom (heap s)) in
  let lb := fresh (dom (<[lw := repeat 0%R d]> (heap s))) in
  _create_weights s =
    (Ok tt,
     with_self (set_b lb)
       (with_heap (insert lb [0%R])
          (with_self (set_w lw) (with_heap (insert lw (repeat 0%R d)) s))))
  /\ lw <> lb /\ heap s !! lw = None /\ heap s !! lb = None.
Proof.
  intros Hd lw lb. split; [| split; [| split]].
  - unfold _create_weights. rewrite (bind_ok _ _ _ _ _ (attr_ok _ _ _ Hd)).
    reflexivity.
  - intros Heq. pose proof (is_fresh (dom (<[lw := repeat 0%R d]> (heap s)))) as Hf.
    fold lb in Hf. rewrite <- Heq in Hf. apply Hf.
    rewrite dom_insert. set_solver.
  - apply not_elem_of_dom. apply is_fresh.
  - pose proof (is_fresh (dom (<[lw := repeat 0%R d]> (heap s)))) as Hf.
    fold lb in Hf. apply not_elem_of_dom. rewrite dom_insert in Hf. set_solver.
Qed.

(** [fit] on a stored data set: as many passes as [n_epochs] says, each over
    the same batches, starting from zeros. *)
Lemma fit_run s X y bs :
  dataset_ok s X y bs ->
  let p' := Descent.train (_lr (self s)) (Descent.batches X y (shape0 X) bs)
              (Z.to_nat (_n_epochs (self s))) (repeat 0%R (shape1 X), 0%R) in
  exists s' lw lb printed,
    fit s = (Ok tt, s')
    /\ fit_frame s' = fit_frame s
    /\ stdout s' = stdout s ++ printed
    /\ map fst printed
       = filter (fun e => e mod 100 = 0)%Z (py_range (_n_epochs (self s)))
    /\ params_at s' lw lb p'
    /\ heap s !! lw = None /\ heap s !! lb = None.
Proof.
  intros Hds p'.
  destruct (create_weights_run s _ (ok_n_inputs _ _ _ _ _ Hds))
    as (Hcw & Hne & Hfw & Hfb).
  set (lw := fresh (dom (heap s))) in *.
  set (lb := fresh (dom (<[lw := repeat 0%R (shape1 X)]> (heap s)))) in *.
  set (s1 := with_self (set_b lb) _) in Hcw.
  assert (Hfr1 : fit_frame s1 = fit_frame s) by reflexivity.
  assert (Hp1 : params_at s1 lw lb (repeat 0%R (shape1 X), 0%R)).
  { constructor; auto; unfold s1; simpl.
    - rewrite lookup_insert_ne by auto. now rewrite lookup_insert_eq.
    - now rewrite lookup_insert_eq. }
  destruct (fit_epochs_run X y bs lw lb (py_range (_n_epochs (self s))) s1 _
              (dataset_ok_frame _ _ _ _ _ Hds Hfr1) Hp1)
    as (s' & printed & Hrun & Hfr & Hout & Hpr & Hp' & _).
  { simpl. apply repeat_length. }
  exists s', lw, lb, printed.
  assert (Hlen : length (py_range (_n_epochs (self s))) = Z.to_nat (_n_epochs (self s))).
  { unfold py_range. now rewrite length_map, length_seq. }
  rewrite Hlen in Hp'.
  split; [| repeat split; auto; try congruence; apply Hp'].
  unfold fit. rewrite (bind_ok _ _ _ _ _ Hcw), gets_bind. exact Hrun.
Qed.
End Batches.

(** ** Batches and shuffling *)

Section Chunks.
Context {A : Type}.
Implicit Types l : list A.

Lemma chunks_prefix l s : 0 < s -> forall c,
  c <= Descent.n_batches (length l) s ->
  concat (map (fun k => py_slice l (k * s) (Nat.min (k * s + s) (length l))) (seq 0 c))
  = take (Nat.min (c * s) (length l)) l.
Proof.
  intros Hs. induction c as [| c IH]; intros Hc.
  - simpl. now rewrite take_0.
  - rewrite seq_S, map_app, concat_app, IH by lia. simpl. rewrite app_nil_r.
    assert (Hlt : c * s < length l) by (apply (n_batches_spec _ s c Hs); lia).
    unfold py_slice. rewrite Nat.min_l by lia.
    rewrite take_take_drop. f_equal. lia.
Qed.

Lemma chunks_cover l s : 0 < s ->
  concat (map (fun k => py_slice l (k * s) (Nat.min (k * s + s) (length l)))
              (seq 0 (Descent.n_batches (length l) s)))
  = l.
Proof.
  intros Hs. rewrite chunks_prefix by auto.
  apply take_ge.
  destruct (Nat.le_gt_cases (length l) (Descent.n_batches (length l) s * s)) as [H | H];
    [lia |].
  apply (n_batches_spec _ s _ Hs) in H. lia.
Qed.

Lemma py_slice_lookup l a b i :
  a + i < b -> py_slice l a b !! i = l !! (a + i).
Proof.
  intros H. unfold py_slice. rewrite lookup_take_lt by lia. apply lookup_drop.
Qed.
End Chunks.

Lemma batch_length n s k : 0 < s -> k < Descent.n_batches n s ->
  Nat.min (k * s + s) n - k * s
  = if decide (S k < Descent.n_batches n s) then s
    else if decide (n mod s = 0) then s else n mod s.
Proof.
  intros Hs Hk.
  pose proof (proj1 (n_batches_spec n s k Hs) Hk) as Hlt.
  destruct (decide (S k < Descent.n_batches n s)) as [Hn | Hn].
  - apply (n_batches_spec n s (S k) Hs) in Hn. lia.
  - assert (Hge : n <= S k * s).
    { destruct (Nat.le_gt_cases n (S k * s)) as [H | H]; [exact H |].
      apply (n_batches_spec n s (S k) Hs) in H. lia. }
    pose proof (Nat.div_mod_eq n s) as Hdm.
    pose proof (Nat.mod_upper_bound n s ltac:(lia)) as Hmod.
    set (q := n / s) in *. set (r := n mod s) in *.
    destruct (decide (r = 0)) as [H0 | H0].
    + assert (q = S k) by nia. subst q. nia.
    + assert (q = k) by nia. subst q. nia.
Qed.

Section Generator.
Context {rng : Type}.
Implicit Types s : world rng.

Lemma drain_run s X y bs : forall ks,
  dataset_ok s X y bs -> Forall (fun k => k * bs < shape0 X) ks ->
  drain (seq 0 (shape0 X)) (map (fun k => Z.of_nat (k * bs)) ks) s
  = (Ok (map (Descent.batch_at X y (shape0 X) bs) ks), s).
Proof.
  intros ks Hds. induction ks as [| k ks IH]; intros Hks; [reflexivity |].
  inversion Hks as [| ? ? Hk Hks']; subst. cbn [map drain].
  rewrite (bind_ok _ _ _ _ _ (fetch_batch_yield_run s X y bs k Hds Hk)).
  now rewrite (bind_ok _ _ _ _ _ (IH Hks')).
Qed.

Lemma batch_starts_in_range n bs :
  0 < bs -> Forall (fun k => k * bs < n) (seq 0 (Descent.n_batches n bs)).
Proof.
  intros Hpos. apply Forall_forall. intros k Hk. apply elem_of_seq in Hk.
  apply n_batches_spec; [exact Hpos | lia].
Qed.

Lemma list_fetch_batch_run s X y bs :
  dataset_ok s X y bs ->
  list_fetch_batch s = (Ok (Descent.batches X y (shape0 X) bs), s).
Proof.
  intros Hds. unfold list_fetch_batch.
  rewrite (bind_ok _ _ _ _ _ (fetch_batch_run s X y bs Hds)). cbn [fst snd].
  apply drain_run; [exact Hds |].
  apply batch_starts_in_range, (ok_batch_pos _ _ _ _ _ Hds).
Qed.

Lemma batches_cover X y bs :
  0 < bs -> length y = shape0 X ->
  concat (map (fun b => rows (fst b)) (Descent.batches X y (shape0 X) bs)) = rows X
  /\ concat (map snd (Descent.batches X y (shape0 X) bs)) = y.
Proof.
  intros Hpos Hlen. unfold Descent.batches. rewrite !map_map. cbn [Descent.batch_at fst snd rows].
  split.
  - unfold shape0. now apply chunks_cover.
  - rewrite <- Hlen. now apply chunks_cover.
Qed.
End Generator.

Section TakeRows.
Context {A : Type}.
Implicit Types l : list A.

Lemma take_rows_Forall2 l : forall idx l',
  take_rows idx l = Ok l' <-> Forall2 (fun i x => l !! i = Some x) idx l'.
Proof.
  induction idx as [| i idx IH]; intros l'; simpl.
  - split; [intros [= <-]; constructor | intros H; inversion H; reflexivity].
  - split.
    + destruct (l !! i) as [x |] eqn:Hx; [| discriminate].
      destruct (take_rows idx l) as [xs | e] eqn:Hxs; [| discriminate].
      intros [= <-]. constructor; [exact Hx | now apply IH].
    + intros H. inversion H as [| ? x ? xs Hx Hxs]; subst.
      rewrite Hx. apply IH in Hxs. now rewrite Hxs.
Qed.

Lemma take_rows_in_range l : forall idx,
  Forall (fun i => i < length l) idx -> exists l', take_rows idx l = Ok l'.
Proof.
  induction idx as [| i idx IH]; intros Hidx; simpl; [eauto |].
  inversion Hidx as [| ? ? Hi Hidx']; subst.
  destruct (lookup_lt_is_Some_2 l i Hi) as [x Hx]. rewrite Hx.
  destruct (IH Hidx') as [xs Hxs]. rewrite Hxs. eauto.
Qed.

Lemma take_rows_lookup l idx l' j i :
  take_rows idx l = Ok l' -> idx !! j = Some i -> l' !! j = l !! i.
Proof.
  intros H Hj. apply take_rows_Forall2 in H.
  destruct (Forall2_lookup_l _ _ _ _ _ H Hj) as (x & Hx & Hl). congruence.
Qed.

Lemma take_rows_length l idx l' : take_rows idx l = Ok l' -> length l' = length idx.
Proof. intros H. apply take_rows_Forall2 in H. symmetry. eapply Forall2_length, H. Qed.

Lemma take_rows_fmap l idx l' :
  take_rows idx l = Ok l' -> map Some l' = map (fun i => l !! i) idx.
Proof.
  intros H. apply take_rows_Forall2 in H.
  induction H as [| i x idx l' Hx _ IH]; simpl; congruence.
Qed.

Lemma lookup_seq_all l : map (fun i => l !! i) (seq 0 (length l)) = map Some l.
Proof.
  apply list_eq. intros i. rewrite !list_lookup_fmap.
  destruct (decide (i < length l)) as [Hi | Hi].
  - rewrite lookup_seq_lt by exact Hi. simpl.
    destruct (lookup_lt_is_Some_2 l i Hi) as [x Hx]. now rewrite Hx.
  - rewrite lookup_seq_ge by lia. rewrite lookup_ge_None_2 by lia. reflexivity.
Qed.

(** Selecting rows by a permutation of all indices permutes the rows. *)
Lemma take_rows_Permutation l idx l' :
  take_rows idx l = Ok l' -> Permutation (seq 0 (length l)) idx -> Permutation l l'.
Proof.
  intros H Hperm. apply take_rows_fmap in H.
  assert (Hp : Permutation (map Some l') (map Some l)).
  { rewrite H, <- lookup_seq_all. apply Permutation_map. now symmetry. }
  apply Permutation_map_inv in Hp. destruct Hp as (l3 & Heq & Hp).
  assert (l' = l3); [| now subst].
  clear -Heq. revert l3 Heq.
  induction l' as [| x l' IH]; intros [| z l3] Heq; simpl in Heq; try discriminate;
    [reflexivity |].
  injection Heq as -> Heq. f_equal. now apply IH.
Qed.
End TakeRows.

Lemma take_rows_zip {A B} (a : list A) (b : list B) idx a' b' :
  take_rows idx a = Ok a' -> take_rows idx b = Ok b' ->
  take_rows idx (zip a b) = Ok (zip a' b').
Proof.
  intros Ha Hb. apply take_rows_Forall2 in Ha, Hb. apply take_rows_Forall2.
  revert b' Hb. induction Ha as [| i x idx a' Hx _ IH]; intros b' Hb;
    inversion Hb as [| ? z ? zs Hz Hzs]; subst; simpl; constructor.
  - rewrite lookup_zip_with, Hx. simpl. now rewrite Hz.
  - now apply IH.
Qed.

Section GetDataset.
Context {rng : Type} (shuffle : rng -> list nat -> list nat * rng).
Implicit Types s : world rng.

(** [random.shuffle] reorders its list. *)
Hypothesis shuffle_Permutation :
  forall g l, Permutation l (fst (shuffle g l)).

Lemma get_dataset_plain X y s :
  get_dataset shuffle X y false s
  = (Ok tt,
     with_self (fun o => set_n_inputs (shape1 X)
                           (set_n_examples (shape0 X) (set_y_train y (set_X_train X o)))) s).
Proof. reflexivity. Qed.

Lemma get_dataset_shuffled X y s :
  shape0 X <= length y ->
  let idx := fst (shuffle (py_random s) (seq 0 (shape0 X))) in
  exists rows' y',
    take_rows idx (rows X) = Ok rows'
    /\ take_rows idx y = Ok y'
    /\ get_dataset shuffle X y true s
       = (Ok tt,
          with_self (fun o => set_y_train y' (set_X_train (Matrix rows' (ncols X))
                                (set_n_inputs (shape1 X)
                                   (set_n_examples (shape0 X)
                                      (set_y_train y (set_X_train X o))))))
            (with_py_random (snd (shuffle (py_random s) (seq 0 (shape0 X)))) s)).
Proof.
  intros Hlen idx.
  assert (Hrange : Forall (fun i => i < shape0 X) idx).
  { apply Forall_forall. intros i Hi.
    assert (Hin : i ∈ seq 0 (shape0 X)).
    { rewrite (shuffle_Permutation (py_random s) (seq 0 (shape0 X))). exact Hi. }
    apply elem_of_seq in Hin. lia. }
  destruct (take_rows_in_range (rows X) idx Hrange) as [rows' Hrows].
  destruct (take_rows_in_range y idx) as [y' Hy].
  { eapply Forall_impl; [exact Hrange |]. simpl. intros; lia. }
  exists rows', y'. split; [exact Hrows |]. split; [exact Hy |].
  unfold get_dataset, random_shuffle, bind, assign, modify, attr, lift, matrix_take.
  simpl. fold idx.
  destruct (shuffle (py_random s) (seq 0 (shape0 X))) as [idx0 g] eqn:Hsh.
  simpl in idx. subst idx. simpl. rewrite Hrows. simpl. rewrite Hy. reflexivity.
Qed.
End GetDataset.

(** ** Determinism *)

Section Det.
Context {rng : Type} (shuffle : rng -> list nat -> list nat * rng).
Implicit Types s : world rng.

Lemma deterministic_bind {A B} (c : M rng A) (k : A -> M rng B) :
  deterministic c -> (forall a, deterministic (k a)) -> deterministic (bind c k).
Proof.
  intros Hc Hk s1 s2 Hs. unfold bind.
  destruct (Hc s1 s2 Hs) as (Hr & Hs' & out & Ho1 & Ho2).
  destruct (c s1) as [r1 t1], (c s2) as [r2 t2]. simpl in *. subst r2.
  destruct r1 as [a | e].
  - destruct (Hk a t1 t2 Hs') as (Hr' & Hs'' & out' & Ho1' & Ho2').
    repeat split; try apply Hs''; try exact Hr'.
    exists (out ++ out'). rewrite Ho1', Ho2', Ho1, Ho2, <- !app_assoc. auto.
  - simpl. repeat split; try apply Hs'. exists out. auto.
Qed.

Lemma deterministic_read {A} (f : world rng -> result A) :
  (forall s1 s2, same_inputs s1 s2 -> f s1 = f s2) ->
  deterministic (fun s => (f s, s)).
Proof.
  intros Hf s1 s2 Hs. simpl. repeat split; try apply Hs; [now apply Hf |].
  exists []. now rewrite !app_nil_r.
Qed.

Lemma deterministic_attr {A} (f : obj -> option A) : deterministic (attr (rng:=rng) f).
Proof.
  intros s1 s2 Hs. unfold attr. destruct Hs as (Hself & Hheap & Hg).
  rewrite Hself. destruct (f (self s2)); simpl; repeat split; auto;
    exists []; now rewrite !app_nil_r.
Qed.

Lemma deterministic_write (f : world rng -> world rng) out :
  (forall s1 s2, same_inputs s1 s2 -> same_inputs (f s1) (f s2)) ->
  (forall s, stdout (f s) = stdout s ++ out s) ->
  (forall s1 s2, same_inputs s1 s2 -> out s1 = out s2) ->
  deterministic (modify f).
Proof.
  intros Hf Hout Hsame s1 s2 Hs. unfold modify. simpl.
  split; [reflexivity |]. split; [now apply Hf |].
  exists (out s1). split; [apply Hout |]. rewrite (Hsame s1 s2 Hs). apply Hout.
Qed.

Ltac det_step :=
  first
    [ apply deterministic_bind; [| intros ?]
    | apply deterministic_attr
    | apply deterministic_read;
      intros ? ? (Hself & Hheap & Hg); simpl; rewrite ?Hself, ?Hheap, ?Hg; reflexivity
    | apply (deterministic_write _ (fun _ => []));
      [ intros ? ? (Hself & Hheap & Hg); repeat split; simpl;
        rewrite ?Hself, ?Hheap, ?Hg; reflexivity
      | intros ?; simpl; now rewrite app_nil_r
      | reflexivity ]
    | match goal with
      | |- deterministic (if ?b then _ else _) => destruct b
      | |- deterministic (match ?x with _ => _ end) => destruct x
      end ].
Ltac det := repeat det_step.

Lemma deterministic_alloc a : deterministic (alloc (rng:=rng) a).
Proof.
  intros s1 s2 (Hself & Hheap & Hg). unfold alloc. cbv zeta. simpl. rewrite Hheap.
  split; [reflexivity |].
  split; [repeat split; simpl; rewrite ?Hheap; auto |].
  exists []. now rewrite !app_nil_r.
Qed.

Lemma deterministic_shuffle idx : deterministic (random_shuffle shuffle idx).
Proof.
  intros s1 s2 (Hself & Hheap & Hg). unfold random_shuffle. rewrite Hg.
  destruct (shuffle (py_random s2) idx) as [idx' g]. simpl.
  split; [reflexivity |]. split; [repeat split; auto |].
  exists []. now rewrite !app_nil_r.
Qed.

Lemma deterministic_print e t : deterministic (print (rng:=rng) e t).
Proof.
  apply (deterministic_write _ (fun _ => [(e, t)])); try reflexivity.
  intros ? ? (Hself & Hheap & Hg). repeat split; assumption.
Qed.

Lemma deterministic_get_dataset X y sh : deterministic (get_dataset shuffle X y sh).
Proof.
  unfold get_dataset. det. apply deterministic_shuffle.
Qed.

Lemma deterministic_create_weights : deterministic (_create_weights (rng:=rng)).
Proof. unfold _create_weights. det; apply deterministic_alloc. Qed.

Lemma deterministic_optimize X y : deterministic (_optimize (rng:=rng) X y).
Proof. unfold _optimize. det. Qed.

Lemma deterministic_fit_batches idx starts : forall total,
  deterministic (fit_batches (rng:=rng) idx starts total).
Proof.
  induction starts as [| i starts IH]; intros total; simpl; det. apply IH.
Qed.

Lemma deterministic_fit_epochs epochs : deterministic (fit_epochs (rng:=rng) epochs).
Proof.
  induction epochs as [| e epochs IH]; simpl; det; try exact IH;
    try apply deterministic_fit_batches; try apply deterministic_print.
Qed.

Lemma deterministic_fit : deterministic (fit (rng:=rng)).
Proof.
  unfold fit. det; try apply deterministic_alloc. apply deterministic_fit_epochs.
Qed.

Lemma deterministic_drain idx starts : deterministic (drain (rng:=rng) idx starts).
Proof. induction starts as [| i starts IH]; simpl; det. exact IH. Qed.

Lemma deterministic_list_fetch_batch : deterministic (list_fetch_batch (rng:=rng)).
Proof. unfold list_fetch_batch. det. apply deterministic_drain. Qed.
End Det.

(** ** In-place updates *)

Section InPlace.
Context {rng : Type}.
Implicit Types s : world rng.

Lemma assign_all_local l value s l' :
  l <> l' -> heap (snd (assign_all l value s)) !! l' = heap s !! l'.
Proof.
  intros Hne. unfold assign_all, bind, deref, gets, store, modify, raise.
  destruct (decide _); simpl; [now rewrite lookup_insert_ne |].
  destruct value as [| v [| ? ?]]; simpl; try reflexivity.
  now rewrite lookup_insert_ne.
Qed.

Lemma assign_all_self l value s : self (snd (assign_all l value s)) = self s.
Proof.
  unfold assign_all, bind, deref, gets, store, modify, raise.
  destruct (decide _); simpl; [reflexivity |].
  destruct value as [| v [| ? ?]]; reflexivity.
Qed.

(** [_optimize] writes to the two arrays the object refers to, and to no
    other. *)
Lemma optimize_heap_local X y s l :
  _w (self s) <> Some l -> _b (self s) <> Some l ->
  heap (snd (_optimize X y s)) !! l = heap s !! l.
Proof.
  intros Hw Hb. unfold _optimize.
  unfold bind at 1. pose proof (model_still X s) as Hm.
  destruct (_model X s) as [[y_hat | e] s0]; simpl in Hm; subst s0; [| reflexivity].
  destruct (decide (shape0 X = 0)); [reflexivity |].
  unfold bind at 1, lift at 1.
  destruct (broadcast2 Rminus y y_hat) as [e |]; [| reflexivity].
  unfold bind at 1, lift at 1.
  destruct (matmul_T_col X e) as [XTe |]; [| reflexivity].
  unfold bind at 1, lift at 1.
  unfold bind at 1, attr at 1.
  destruct (_w (self s)) as [lw |] eqn:Elw; [| reflexivity].
  unfold bind at 1, attr at 1.
  destruct (_b (self s)) as [lb |] eqn:Elb; [| reflexivity].
  rewrite (bind_ok _ _ _ _ _ (eq_refl : deref lw s = (Ok (heap s !!! lw), s))).
  rewrite gets_bind.
  unfold bind at 1, lift at 1.
  destruct (broadcast2 _ (heap s !!! lw) _) as [value |]; [| reflexivity].
  unfold bind at 1.
  pose proof (assign_all_local lw value s l ltac:(congruence)) as H1.
  destruct (assign_all lw value s) as [[[] | e1] s1]; simpl in H1; [| exact H1].
  rewrite (bind_ok _ _ _ _ _ (eq_refl : deref lb s1 = (Ok (heap s1 !!! lb), s1))).
  rewrite gets_bind.
  rewrite assign_all_local by congruence. exact H1.
Qed.
End InPlace.

(** ** The claims *)

Section NumericClaims.
Local Open Scope R_scope.

(** Claim C1.  For every real logit [z] the stabilised quotient that
    [_sigmoid] evaluates equals [1 / (1 + exp (- z))] and lies strictly between
    0 and 1.  Both exponents it feeds to [exp] are at most 0, so both
    exponentials lie in (0, 1] and the denominator in (1, 2], whatever the size
    of [z]; the exponential of the textbook formula is at least [1 - z], which
    is unbounded.  On a whole column [_sigmoid] is the textbook formula entry
    by entry, with every entry in (0, 1). *)
Theorem sigmoid_stable_correct (z : R) (logit : list R) :
  sigmoid_elem z = sigmoid_naive z
  /\ 0 < sigmoid_elem z < 1
  /\ (logit_stable z <= 0 /\ - logit_max z <= 0)
  /\ (0 < exp (logit_stable z) <= 1 /\ 0 < exp (- logit_max z) <= 1)
  /\ 1 < exp (- logit_max z) + exp (logit_stable z) <= 2
  /\ 1 - z <= exp (- z)
  /\ _sigmoid logit = map sigmoid_naive logit
  /\ Forall (fun p => 0 < p < 1) (_sigmoid logit).
Proof.
  pose proof (logit_max_nonneg z) as Hmax.
  pose proof (logit_stable_nonpos z) as Hst.
  split; [apply sigmoid_elem_naive |].
  split; [apply sigmoid_elem_range |].
  split; [split; lra |].
  split; [split; apply exp_nonpos_le_1; lra |].
  split; [apply denom_bounds |].
  split.
  { destruct (Req_dec z 0) as [-> | Hz].
    - replace (- 0) with 0 by ring. rewrite exp_0. lra.
    - pose proof (exp_ineq1 (- z) ltac:(lra)). lra. }
  split.
  - unfold _sigmoid. apply map_ext. intros a. apply sigmoid_elem_naive.
  - unfold _sigmoid. apply Forall_map, Forall_forall. intros a _.
    apply sigmoid_elem_range.
Qed.
End NumericClaims.

Section Claims.
Context {rng : Type} (shuffle : rng -> list nat -> list nat * rng).
Implicit Types s : world rng.
Local Open Scope R_scope.

Lemma zip_with_cross_entropy_bce (y logit : list R) :
  zip_with cross_entropy_elem y logit = zip_with bce_naive y logit.
Proof.
  revert logit. induction y as [| a y IH]; intros [| z logit]; simpl;
    try reflexivity. now rewrite cross_entropy_elem_bce, IH.
Qed.

(** Claim C2.  For binary labels and a column of logits of the same length,
    every entry of the stabilised loss of [_loss] equals the binary cross
    entropy [-(y log(sigmoid z) + (1 - y) log(1 - sigmoid z))] and is strictly
    positive; [_loss] stores these entries and returns their mean, which is
    positive, hence non-negative; and the loss of a correct prediction falls
    below every positive bound as the logit grows, so 0 is approached but
    never attained. *)
Theorem loss_cross_entropy (y logit : list R) s :
  Forall is_label y -> length y = length logit -> y <> [] ->
  Forall2 (fun yi zi => cross_entropy_elem yi zi = bce_naive yi zi
                        /\ 0 < cross_entropy_elem yi zi) y logit
  /\ _loss y logit s
     = (Ok (np_mean (zip_with bce_naive y logit)),
        with_self (set_cross_entropy (zip_with bce_naive y logit)) s)
  /\ 0 < np_mean (zip_with bce_naive y logit)
  /\ (forall eps, 0 < eps ->
        exists z0, forall z, z0 < z ->
          0 < cross_entropy_elem 1 z < eps /\ 0 < cross_entropy_elem 0 (- z) < eps).
Proof.
  intros Hlab Hlen Hne.
  pose proof (zip_with_cross_entropy_bce y logit) as Hzip.
  split; [| split; [| split]].
  - clear Hne Hzip. revert logit Hlen.
    induction Hlab as [| a y Ha _ IH]; intros [| z logit] Hlen; simpl in Hlen;
      try discriminate; constructor.
    + split; [apply cross_entropy_elem_bce | now apply cross_entropy_elem_pos].
    + apply IH. lia.
  - rewrite <- Hzip. now apply loss_run.
  - rewrite <- Hzip. apply np_mean_pos.
    + destruct y, logit; simpl in *; congruence.
    + clear Hne Hzip. revert logit Hlen.
      induction Hlab as [| a y Ha _ IH]; intros [| z logit] Hlen; simpl in Hlen;
        try discriminate; constructor.
      * now apply cross_entropy_elem_pos.
      * apply IH. lia.
  - intros eps Heps. destruct (cross_entropy_elem_small eps Heps) as [z0 Hz0].
    exists z0. intros z Hz. destruct (Hz0 z Hz) as [H1 H0].
    split; (split; [apply cross_entropy_elem_pos; unfold is_label; auto | assumption]).
Qed.

(** Claim C3.  On a batch [(X, y)] with [m >= 1] rows and parameters
    [(w, b)], one call of [_optimize] succeeds and writes exactly
    [w - lr * (-1/m) * X^T (y - sigmoid(Xw + b))] and
    [b - lr * (- mean(y - sigmoid(Xw + b)))] into the two parameter arrays.
    The two correction terms are the partial derivatives of the mean
    cross-entropy loss in each weight and in the bias.  Neither [_optimize]
    nor [fit] ever changes the learning rate. *)
Theorem optimize_gradient_step (X : matrix) (y : list R) s lw lb w b :
  params_at s lw lb (w, b) ->
  shape1 X = length w -> length y = shape0 X -> shape0 X <> 0%nat ->
  let lr := _lr (self s) in
  let w' := zip_with (fun p g => p - lr * g) w (Descent.grad_w X y w b) in
  let b' := b - lr * Descent.grad_b X y w b in
  _optimize X y s
    = (Ok tt, with_heap (insert lb [b']) (with_heap (insert lw w') s))
  /\ params_at (snd (_optimize X y s)) lw lb (w', b')
  /\ (forall j, (j < ncols X)%nat ->
        derivable_pt_lim (fun t => Descent.mean_loss X y (<[j:=t]> w) b)
                         (nth j w 0) (nth j (Descent.grad_w X y w b) 0))
  /\ derivable_pt_lim (fun t => Descent.mean_loss X y w t) b (Descent.grad_b X y w b)
  /\ (forall X0 y0 s0, _lr (self (snd (_optimize X0 y0 s0))) = _lr (self s0))
  /\ (forall s0, _lr (self (snd (fit s0))) = _lr (self s0)).
Proof.
  intros Hp Hd Hy Hm lr w' b'.
  pose proof Hp as [Hw Hb Hne Hlw Hlb]. simpl in Hlw, Hlb.
  pose proof (optimize_run X y s lw lb w b Hw Hb Hne Hlw Hlb Hd Hy Hm) as Hrun.
  simpl in Hrun. fold lr w' b' in Hrun.
  split; [exact Hrun |]. split; [| split; [| split; [| split]]].
  - rewrite Hrun. constructor; simpl; auto.
    + rewrite lookup_insert_ne by auto. now rewrite lookup_insert_eq.
    + now rewrite lookup_insert_eq.
  - intros j Hj. apply grad_w_partial_derivative; auto.
  - now apply grad_b_derivative.
  - intros X0 y0 s0. pose proof (optimize_keeps X0 y0 s0) as H.
    unfold optimize_frame in H. congruence.
  - intros s0. pose proof (fit_keeps s0) as H. unfold fit_frame in H. congruence.
Qed.

(** Claim C10.  [predict], and the [_model] and [_logit] calls it makes, leave
    the whole world (attributes, parameter arrays, stored training arrays,
    generators, output) exactly as it was, whether they return or raise; on
    parameters of the right shape [predict] returns the column of sigmoids of
    the logits. *)
Theorem predict_leaves_state (X_test : matrix) s :
  snd (predict X_test s) = s
  /\ snd (_model X_test s) = s
  /\ snd (_logit X_test s) = s
  /\ (forall lw lb w b,
        params_at s lw lb (w, b) -> shape1 X_test = length w ->
        predict X_test s = (Ok (map sigmoid_elem (Descent.logits X_test w b)), s)).
Proof.
  split; [apply (predict_still X_test s) |].
  split; [apply (model_still X_test s) |].
  split; [apply (logit_still X_test s) |].
  intros lw lb w b [Hw Hb Hne Hlw Hlb] Hd. unfold predict.
  now rewrite (bind_ok _ _ _ _ _ (model_run X_test s lw lb w b Hw Hb Hlw Hlb Hd)).
Qed.

(** Claim C8.  On a stored data set [fit] returns normally, and the
    parameters it leaves are those obtained from zeros by exactly [n_epochs]
    passes (none when [n_epochs] is negative) over the same list of batches
    with the same learning rate: nothing in the loop looks at the loss to stop
    early.  The hyper-parameters, among them the learning rate, and the stored
    data are unchanged, and one line is printed for each epoch that is a
    multiple of 100. *)
Theorem fit_fixed_epochs s (X : matrix) (y : list R) (bs : nat) :
  dataset_ok s X y bs ->
  exists s' lw lb printed,
    fit s = (Ok tt, s')
    /\ params_at s' lw lb
         (Descent.train (_lr (self s)) (Descent.batches X y (shape0 X) bs)
            (Z.to_nat (_n_epochs (self s))) (repeat 0 (shape1 X), 0))
    /\ fit_frame s' = fit_frame s
    /\ stdout s' = stdout s ++ printed
    /\ map fst printed
       = filter (fun e => e mod 100 = 0)%Z (py_range (_n_epochs (self s))).
Proof.
  intros Hds.
  destruct (fit_run s X y bs Hds) as (s' & lw & lb & printed & H1 & H2 & H3 & H4 & H5 & _).
  exists s', lw, lb, printed. auto.
Qed.

Lemma get_dataset_py_random (X : matrix) (y : list R) s :
  py_random (snd (get_dataset shuffle X y true s))
    = snd (shuffle (py_random s) (seq 0 (shape0 X)))
  /\ py_random (snd (get_dataset shuffle X y false s)) = py_random s.
Proof.
  split; [| reflexivity].
  unfold get_dataset, random_shuffle, bind, assign, modify, attr, lift, matrix_take.
  simpl.
  destruct (shuffle (py_random s) (seq 0 (shape0 X))) as [idx g]. simpl.
  destruct (take_rows idx (rows X)); simpl; [| reflexivity].
  destruct (take_rows idx y); reflexivity.
Qed.

(** Claim C4.  For [n] stored examples and batch size [bs >= 1] the generator
    [_fetch_batch] yields, without changing anything, the batches number
    [k = 0, 1, ...], batch [k] holding the rows [k*bs, min(k*bs + bs, n)) of
    the stored arrays in order; concatenated they give back the stored arrays,
    so every example is covered exactly once; every batch has [bs] rows except
    possibly the last, which has [n mod bs] rows when [bs] does not divide
    [n].  The batches are the same in every epoch, because [fit] changes
    neither the stored arrays nor the generator of [random]: the only shuffle
    is the single call in [get_dataset] when shuffling is asked for. *)
Theorem fetch_batch_contiguous s (X : matrix) (y : list R) (bs : nat) :
  dataset_ok s X y bs ->
  let n := shape0 X in
  let B := Descent.batches X y n bs in
  list_fetch_batch s = (Ok B, s)
  /\ length B = Descent.n_batches n bs
  /\ (forall k X_b y_b, B !! k = Some (X_b, y_b) ->
        (forall i, (k * bs + i < Nat.min (k * bs + bs) n)%nat ->
           rows X_b !! i = rows X !! (k * bs + i)%nat
           /\ y_b !! i = y !! (k * bs + i)%nat)
        /\ shape0 X_b = length y_b
        /\ shape1 X_b = shape1 X
        /\ length y_b
           = if decide (S k < Descent.n_batches n bs)%nat then bs
             else if decide (n mod bs = 0)%nat then bs else (n mod bs)%nat)
  /\ concat (map (fun b => rows (fst b)) B) = rows X
  /\ concat (map snd B) = y
  /\ (forall s', fit_frame s' = fit_frame s -> list_fetch_batch s' = (Ok B, s'))
  /\ fit_frame (snd (fit s)) = fit_frame s
  /\ (forall X0 y0 s0,
        py_random (snd (get_dataset shuffle X0 y0 true s0))
          = snd (shuffle (py_random s0) (seq 0 (shape0 X0)))
        /\ py_random (snd (get_dataset shuffle X0 y0 false s0)) = py_random s0
        /\ py_random (snd (fit s0)) = py_random s0).
Proof.
  intros Hds n B.
  pose proof (ok_batch_pos _ _ _ _ _ Hds) as Hpos.
  pose proof (ok_labels _ _ _ _ _ Hds) as Hlen.
  assert (HlenB : length B = Descent.n_batches n bs).
  { unfold B, Descent.batches. now rewrite length_map, length_seq. }
  split; [now apply list_fetch_batch_run |].
  split; [exact HlenB |].
  split; [| split; [| split; [| split; [| split]]]].
  - intros k X_b y_b Hk.
    assert (Hlt : (k < Descent.n_batches n bs)%nat).
    { rewrite <- HlenB. eapply lookup_lt_Some, Hk. }
    unfold B, Descent.batches in Hk.
    rewrite list_lookup_fmap, lookup_seq_lt in Hk by exact Hlt.
    simpl in Hk. injection Hk as <- <-.
    split; [| split; [| split]].
    + intros i Hi. cbn [rows]. now rewrite !py_slice_lookup by exact Hi.
    + unfold shape0. cbn [rows]. unfold py_slice.
      rewrite !length_take, !length_drop. unfold n, shape0 in *. lia.
    + reflexivity.
    + unfold py_slice. rewrite length_take, length_drop, Hlen. fold n.
      rewrite <- (batch_length n bs k Hpos Hlt). lia.
  - apply (batches_cover X y bs Hpos Hlen).
  - apply (batches_cover X y bs Hpos Hlen).
  - intros s' Hfr. apply list_fetch_batch_run. eapply dataset_ok_frame; eauto.
  - apply fit_keeps.
  - intros X0 y0 s0. destruct (get_dataset_py_random X0 y0 s0) as [H1 H2].
    split; [exact H1 |]. split; [exact H2 |].
    pose proof (fit_keeps s0) as H. unfold fit_frame in H. congruence.
Qed.

(** [random.shuffle] reorders its list. *)
Hypothesis shuffle_Permutation :
  forall g l, Permutation l (fst (shuffle g l)).

(** Claim C9.  With [shuffle=True], [get_dataset] reindexes the feature rows
    and the labels by one and the same permutation [idx] of the row indices:
    row [j] of the stored features and entry [j] of the stored labels both
    come from the original example [idx[j]], so the stored pairs are a
    permutation of the original pairs. *)
Theorem shuffle_keeps_pairs (X : matrix) (y : list R) s :
  (shape0 X <= length y)%nat ->
  let idx := fst (shuffle (py_random s) (seq 0 (shape0 X))) in
  let s' := snd (get_dataset shuffle X y true s) in
  exists X' y',
    fst (get_dataset shuffle X y true s) = Ok tt
    /\ _X_train (self s') = Some X' /\ _y_train (self s') = Some y'
    /\ Permutation (seq 0 (shape0 X)) idx
    /\ shape0 X' = shape0 X /\ length y' = shape0 X /\ shape1 X' = shape1 X
    /\ (forall j i, idx !! j = Some i ->
          rows X' !! j = rows X !! i /\ y' !! j = y !! i)
    /\ Permutation (zip (rows X) y) (zip (rows X') y').
Proof.
  intros Hlen idx s'.
  destruct (get_dataset_shuffled shuffle shuffle_Permutation X y s Hlen)
    as (rows' & y' & Hrows & Hy & Hrun).
  fold idx in Hrows, Hy.
  assert (Hperm : Permutation (seq 0 (shape0 X)) idx) by apply shuffle_Permutation.
  assert (Hidx : length idx = shape0 X).
  { rewrite <- (Permutation_length Hperm). apply length_seq. }
  exists (Matrix rows' (ncols X)), y'.
  unfold s'. rewrite Hrun. simpl.
  repeat split; auto.
  - unfold shape0. simpl. rewrite (take_rows_length _ _ _ Hrows). exact Hidx.
  - rewrite (take_rows_length _ _ _ Hy). exact Hidx.
  - eapply take_rows_lookup; eauto.
  - eapply take_rows_lookup; eauto.
  - apply (take_rows_Permutation _ idx).
    + now apply take_rows_zip.
    + rewrite length_zip_with. fold (shape0 X).
      now rewrite Nat.min_l by exact Hlen.
Qed.

(** Claim C6.  Two runs of [get_dataset(X, y, shuffle=True)] followed by
    [fit()] that start from the same instance, the same arrays and the same
    state of the [random] generator (numpy's generator and earlier output may
    differ) have the same outcome, store the same shuffled arrays, present the
    same batches, end with the same attributes and array contents, in
    particular the same weights and bias, and print the same lines. *)
Theorem seeded_run_deterministic (X : matrix) (y : list R) (s1 s2 : world rng) :
  same_inputs s1 s2 ->
  let a1 := get_dataset shuffle X y true s1 in
  let a2 := get_dataset shuffle X y true s2 in
  let b1 := fit (snd a1) in
  let b2 := fit (snd a2) in
  fst a1 = fst a2
  /\ _X_train (self (snd a1)) = _X_train (self (snd a2))
  /\ _y_train (self (snd a1)) = _y_train (self (snd a2))
  /\ fst (list_fetch_batch (snd a1)) = fst (list_fetch_batch (snd a2))
  /\ fst b1 = fst b2
  /\ same_inputs (snd b1) (snd b2)
  /\ (forall lw lb, _w (self (snd b1)) = Some lw -> _b (self (snd b1)) = Some lb ->
        _w (self (snd b2)) = Some lw /\ _b (self (snd b2)) = Some lb
        /\ heap (snd b1) !! lw = heap (snd b2) !! lw
        /\ heap (snd b1) !! lb = heap (snd b2) !! lb)
  /\ (exists out, stdout (snd b1) = stdout (snd a1) ++ out
                  /\ stdout (snd b2) = stdout (snd a2) ++ out).
Proof.
  intros Hs a1 a2 b1 b2.
  destruct (deterministic_get_dataset shuffle X y true s1 s2 Hs) as (Ha & Hsa & _).
  fold a1 a2 in Ha, Hsa.
  destruct (deterministic_list_fetch_batch _ _ Hsa) as (Hl & _).
  destruct (deterministic_fit _ _ Hsa) as (Hb & Hsb & Hout).
  fold b1 b2 in Hb, Hsb, Hout.
  pose proof Hsa as (Hselfa & _). pose proof Hsb as (Hselfb & Hheapb & _).
  split; [exact Ha |]. split; [congruence |]. split; [congruence |].
  split; [exact Hl |]. split; [exact Hb |]. split; [exact Hsb |].
  split; [| exact Hout].
  intros lw lb Hw Hb1. rewrite <- Hselfb, <- Hheapb. auto.
Qed.

(** Claim C7.  [_create_weights], which [fit] calls first, allocates two new
    arrays: the weights, of length [n_inputs] with every entry zero, and the
    bias, a single zero.  After that every call of [_optimize] leaves all
    attributes, the references [_w] and [_b] among them, unchanged and writes
    to no array other than those two; on a well-shaped batch it puts the
    updated parameters into those same two arrays. *)
Theorem create_weights_zero_then_in_place s (d : nat) :
  _n_inputs (self s) = Some d ->
  exists lw lb s1,
    _create_weights s = (Ok tt, s1)
    /\ fit s = bind (gets (fun s => _n_epochs (self s)))
                 (fun n => fit_epochs (py_range n)) s1
    /\ params_at s1 lw lb (repeat 0 d, 0)
    /\ length (repeat 0 d) = d /\ Forall (fun x => x = 0) (repeat 0 d)
    /\ heap s !! lw = None /\ heap s !! lb = None
    /\ (forall X y s2,
          self (snd (_optimize X y s2)) = self s2
          /\ (forall l, _w (self s2) <> Some l -> _b (self s2) <> Some l ->
                heap (snd (_optimize X y s2)) !! l = heap s2 !! l))
    /\ (forall X y s2 w b,
          params_at s2 lw lb (w, b) ->
          shape1 X = length w -> length y = shape0 X -> shape0 X <> 0%nat ->
          fst (_optimize X y s2) = Ok tt
          /\ params_at (snd (_optimize X y s2)) lw lb
               (Descent.step (_lr (self s2)) (X, y) (w, b))).
Proof.
  intros Hd.
  destruct (create_weights_run s d Hd) as (Hrun & Hne & Hfw & Hfb).
  set (lw := fresh (dom (heap s))) in *.
  set (lb := fresh (dom (<[lw := repeat 0 d]> (heap s)))) in *.
  eexists lw, lb, _. split; [exact Hrun |].
  split; [unfold fit; now rewrite (bind_ok _ _ _ _ _ Hrun) |].
  split.
  { constructor; simpl; auto.
    - rewrite lookup_insert_ne by auto. now rewrite lookup_insert_eq.
    - now rewrite lookup_insert_eq. }
  split; [apply repeat_length |].
  split; [apply Forall_forall; intros x Hx; apply list_elem_of_In in Hx;
          now apply repeat_spec in Hx |].
  split; [exact Hfw |]. split; [exact Hfb |].
  split.
  - intros X y s2. split.
    + pose proof (optimize_keeps X y s2) as H. unfold optimize_frame in H. congruence.
    + intros l. apply optimize_heap_local.
  - intros X y s2 w b Hp Hsh Hy Hm.
    pose proof Hp as [Hw Hb Hne' Hlw Hlb]. simpl in Hlw, Hlb.
    rewrite (optimize_run X y s2 lw lb w b Hw Hb Hne' Hlw Hlb Hsh Hy Hm).
    split; [reflexivity |]. constructor; simpl; auto.
    + rewrite lookup_insert_ne by auto. now rewrite lookup_insert_eq.
    + now rewrite lookup_insert_eq.
Qed.
End Claims.

Section DatasetClaims.
Import Dataset.
Context {Example Label callable E : Type}.
Variable call : callable -> pyval Example Label callable -> pyval Example Label callable + E.

(** Claim C5.  For an index in range, [__getitem__] with a [target_transform]
    returns as label the result of calling it on the dataset object itself,
    whatever the label at that index is; without a [target_transform] it
    returns the label at that index unchanged. *)
Theorem getitem_target_transform_on_self
    (ds : CustomDataset Example Label callable) (idx : Z) (ex : Example) (lb : Label) :
  py_index (examples ds) idx = Some ex ->
  py_index (labels ds) idx = Some lb ->
  let example :=
    match transform ds with
    | Some f => call f (VExample ex)
    | None => inl (VExample ex)
    end in
  (forall g, target_transform ds = Some g ->
     __getitem__ call ds idx
     = match example with
       | inr e => CallErr e
       | inl example =>
           match call g (VDataset ds) with
           | inr e => CallErr e
           | inl label => Item example label
           end
       end)
  /\ (target_transform ds = None ->
      __getitem__ call ds idx
      = match example with
        | inr e => CallErr e
        | inl example => Item example (VLabel lb)
        end).
Proof.
  intros Hex Hlb example. unfold __getitem__. rewrite Hex, Hlb. fold example.
  split.
  - intros g ->. reflexivity.
  - intros ->. reflexivity.
Qed.
End DatasetClaims.

(** ** The claims on concrete inputs *)

Lemma getitem_target_transform_on_self_witness :
  Dataset.__getitem__ Example.call_fn Example.counted 1 
  = Dataset.Item (Dataset.VExample 20) (Dataset.VLabel 3)
  /\ Example.call_fn Example.CountLabels (Dataset.VLabel 8) = inr tt.
Proof.
  split; [| reflexivity].
  destruct (getitem_target_transform_on_self Example.call_fn Example.counted 1 20 8
              eq_refl eq_refl) as [H _].
  exact (H Example.CountLabels eq_refl).
Defined.

Lemma loss_cross_entropy_witness :
  Forall is_label [1; 0]%R /\
  _loss [1; 0]%R [2; -3]%R Example.loaded
  = (Ok (np_mean (zip_with bce_naive [1; 0] [2; -3])%R),
     with_self (set_cross_entropy (zip_with bce_naive [1; 0] [2; -3])%R) Example.loaded).
Proof.
  assert (H : Forall is_label [1; 0]%R).
  { constructor; [right; reflexivity |].
    constructor; [left; reflexivity | constructor]. }
  split; [exact H |].
  apply (loss_cross_entropy [1; 0]%R [2; -3]%R Example.loaded H eq_refl).
  discriminate.
Defined.

Lemma optimize_gradient_step_witness :
  params_at Example.ready 0 1 ([0; 0]%R, 0%R)
  /\ fst (_optimize Example.X Example.y Example.ready) = Ok tt.
Proof.
  assert (H : params_at Example.ready 0 1 ([0; 0]%R, 0%R)).
  { constructor; [reflexivity | reflexivity | discriminate | reflexivity | reflexivity]. }
  split; [exact H |].
  destruct (optimize_gradient_step Example.X Example.y Example.ready 0 1 [0; 0]%R 0%R
              H eq_refl eq_refl ltac:(discriminate)) as [Hrun _].
  now rewrite Hrun.
Defined.

Lemma dataset_ok_loaded : dataset_ok Example.loaded Example.X Example.y 2.
Proof. constructor; try reflexivity. lia. Qed.

Lemma fetch_batch_contiguous_witness :
  dataset_ok Example.loaded Example.X Example.y 2
  /\ list_fetch_batch Example.loaded
     = (Ok (Descent.batches Example.X Example.y 3 2), Example.loaded).
Proof.
  split; [exact dataset_ok_loaded |].
  exact (proj1 (fetch_batch_contiguous Example.flip Example.loaded Example.X Example.y 2
                  dataset_ok_loaded)).
Defined.

Lemma fit_fixed_epochs_witness :
  dataset_ok Example.loaded Example.X Example.y 2
  /\ fst (fit Example.loaded) = Ok tt.
Proof.
  split; [exact dataset_ok_loaded |].
  destruct (fit_fixed_epochs Example.loaded Example.X Example.y 2 dataset_ok_loaded)
    as (s' & lw & lb & printed & Hrun & _).
  now rewrite Hrun.
Defined.

Lemma flip_Permutation : forall (g : unit) (l : list nat),
  Permutation l (fst (Example.flip g l)).
Proof. intros g l. simpl. apply Permutation_rev. Qed.

Lemma shuffle_keeps_pairs_witness :
  (shape0 Example.X <= length Example.y)%nat
  /\ fst (get_dataset Example.flip Example.X Example.y true (Example.created 71)) = Ok tt.
Proof.
  assert (H : (shape0 Example.X <= length Example.y)%nat) by (vm_compute; lia).
  split; [exact H |].
  destruct (shuffle_keeps_pairs Example.flip flip_Permutation Example.X Example.y
              (Example.created 71) H) as (X' & y' & Hrun & _).
  exact Hrun.
Defined.

Lemma seeded_run_deterministic_witness :
  same_inputs (Example.created 71) (Example.created 5)
  /\ fst (fit (snd (get_dataset Example.flip Example.X Example.y true (Example.created 71))))
     = fst (fit (snd (get_dataset Example.flip Example.X Example.y true (Example.created 5)))).
Proof.
  assert (H : same_inputs (Example.created 71) (Example.created 5)).
  { repeat split. }
  split; [exact H |].
  exact (proj1 (proj2 (proj2 (proj2 (proj2
           (seeded_run_deterministic Example.flip Example.X Example.y _ _ H)))))).
Defined.

Lemma create_weights_zero_then_in_place_witness :
  _n_inputs (self Example.loaded) = Some 2
  /\ fst (_create_weights Example.loaded) = Ok tt.
Proof.
  split; [reflexivity |].
  destruct (create_weights_zero_then_in_place Example.loaded 2 eq_refl)
    as (lw & lb & s1 & Hrun & _).
  now rewrite Hrun.
Defined.

(** * Further properties *)

(** ** The sigmoid and the loss as functions of the logit *)

Section NumericsMore.
Local Open Scope R_scope.

Lemma exp_opp_mult z : exp z * exp (- z) = 1.
Proof. rewrite <- exp_plus. replace (z + - z) with 0 by ring. apply exp_0. Qed.

Lemma sigmoid_elem_zero : sigmoid_elem 0 = 1 / 2.
Proof. rewrite sigmoid_elem_exp, exp_0. lra. Qed.

(** Property X1.  The quotient of [_sigmoid] is symmetric about the origin:
    the value at [- z] is one minus the value at [z], and the value at 0 is
    one half. *)
Theorem sigmoid_symmetry (z : R) :
  sigmoid_elem (- z) = 1 - sigmoid_elem z /\ sigmoid_elem 0 = 1 / 2.
Proof.
  split; [| exact sigmoid_elem_zero].
  rewrite one_minus_sigmoid, sigmoid_elem_exp.
  pose proof (exp_pos z). pose proof (exp_pos (- z)).
  pose proof (exp_opp_mult z).
  apply (Rmult_eq_reg_r ((1 + exp (- z)) * (1 + exp z))); [| nra].
  field_simplify; [nra | lra | lra].
Qed.

Lemma sigmoid_elem_lt (z1 z2 : R) :
  z1 < z2 -> sigmoid_elem z1 < sigmoid_elem z2.
Proof.
  intros Hlt. pose proof (exp_increasing z1 z2 Hlt) as Hexp.
  pose proof (exp_pos z1). pose proof (exp_pos z2).
  rewrite !sigmoid_elem_exp.
  apply (Rmult_lt_reg_r ((1 + exp z1) * (1 + exp z2))); [nra |].
  replace (exp z1 / (1 + exp z1) * ((1 + exp z1) * (1 + exp z2)))
    with (exp z1 * (1 + exp z2)) by (field; lra).
  replace (exp z2 / (1 + exp z2) * ((1 + exp z1) * (1 + exp z2)))
    with (exp z2 * (1 + exp z1)) by (field; lra).
  nra.
Qed.

Lemma sigmoid_elem_le (z1 z2 : R) :
  z1 <= z2 -> sigmoid_elem z1 <= sigmoid_elem z2.
Proof.
  intros [H | ->]; [left; now apply sigmoid_elem_lt | right; reflexivity].
Qed.

(** Property X2.  The quotient of [_sigmoid] is strictly increasing in the
    logit, and therefore one-to-one: a larger logit gives a larger
    probability and equal probabilities come from equal logits. *)
Theorem sigmoid_increasing (z1 z2 : R) :
  (z1 < z2 <-> sigmoid_elem z1 < sigmoid_elem z2)
  /\ (sigmoid_elem z1 = sigmoid_elem z2 -> z1 = z2).
Proof.
  assert (Hiff : forall a b, sigmoid_elem a < sigmoid_elem b -> a < b).
  { intros a b H. destruct (Rlt_dec a b) as [Hab | Hab]; [exact Hab | exfalso].
    pose proof (sigmoid_elem_le b a ltac:(lra)). lra. }
  split; [split; [apply sigmoid_elem_lt | apply Hiff] |].
  intros Heq. destruct (Rtotal_order z1 z2) as [H | [H | H]]; [| exact H |];
    apply sigmoid_elem_lt in H; lra.
Qed.

Lemma sigmoid_above_half z : 1 / 2 < sigmoid_elem z <-> 0 < z.
Proof.
  pose proof sigmoid_elem_zero as H0. split; intros H.
  - destruct (Rlt_dec 0 z) as [Hz | Hz]; [exact Hz | exfalso].
    pose proof (sigmoid_elem_le z 0 ltac:(lra)). lra.
  - pose proof (sigmoid_elem_lt 0 z H). lra.
Qed.

(** Property X3.  The class [main] assigns with [(p > 0.5) * 1] to the
    output of [_sigmoid] is 1 exactly where the logit is positive:
    thresholding the probability at one half is thresholding the logit at
    zero. *)
Theorem threshold_is_sign_of_logit (logit : list R) :
  Script.threshold (_sigmoid logit)
  = map (fun z => if Rlt_dec 0 z then 1%Z else 0%Z) logit.
Proof.
  unfold Script.threshold, _sigmoid. rewrite map_map. apply map_ext. intros z.
  destruct (Rlt_dec (1 / 2) (sigmoid_elem z)) as [H | H], (Rlt_dec 0 z) as [Hz | Hz];
    try reflexivity; exfalso.
  - apply Hz, sigmoid_above_half, H.
  - apply H, sigmoid_above_half, Hz.
Qed.

Lemma cross_entropy_one z : cross_entropy_elem 1 z = ln (1 + exp (- z)).
Proof.
  rewrite cross_entropy_elem_closed.
  pose proof (exp_pos z). pose proof (exp_pos (- z)). pose proof (exp_opp_mult z).
  replace (1 + exp z) with (exp z * (1 + exp (- z))) by nra.
  rewrite ln_mult by lra. rewrite ln_exp. ring.
Qed.

Lemma cross_entropy_zero z : cross_entropy_elem 0 z = ln (1 + exp z).
Proof. rewrite cross_entropy_elem_closed. ring. Qed.

(** Property X4.  The per-example loss of [_loss] for the label 1 strictly
    decreases as the logit grows, the loss for the label 0 strictly
    increases, and the two mirror each other: the loss of label 1 at [z] is
    the loss of label 0 at [- z]. *)
Theorem loss_monotone_in_logit (z1 z2 : R) :
  z1 < z2 ->
  cross_entropy_elem 1 z2 < cross_entropy_elem 1 z1
  /\ cross_entropy_elem 0 z1 < cross_entropy_elem 0 z2
  /\ cross_entropy_elem 1 z1 = cross_entropy_elem 0 (- z1).
Proof.
  intros Hlt. rewrite !cross_entropy_one, !cross_entropy_zero.
  pose proof (exp_pos z1). pose proof (exp_pos z2).
  pose proof (exp_pos (- z1)). pose proof (exp_pos (- z2)).
  split; [| split; [| reflexivity]].
  - apply ln_increasing; [lra |].
    pose proof (exp_increasing (- z2) (- z1) ltac:(lra)). lra.
  - apply ln_increasing; [lra |].
    pose proof (exp_increasing z1 z2 Hlt). lra.
Qed.
End NumericsMore.

Lemma loss_monotone_in_logit_witness :
  (0 < 1)%R /\ (cross_entropy_elem 1 1 < cross_entropy_elem 1 0)%R.
Proof.
  assert (H : (0 < 1)%R) by lra.
  split; [exact H | exact (proj1 (loss_monotone_in_logit 0 1 H))].
Defined.

(** ** Calls out of order and ill-shaped input *)

Section Errors.
Context {rng : Type} (shuffle : rng -> list nat -> list nat * rng).
Implicit Types s : world rng.

Lemma bind_fail {A B} (c : M rng A) (k : A -> M rng B) s e s' :
  c s = (Raise e, s') -> bind c k s = (Raise e, s').
Proof. unfold bind. now intros ->. Qed.

Lemma attr_missing {A} (f : obj -> option A) s :
  f (self s) = None -> attr f s = (Raise AttributeError, s).
Proof. unfold attr. now intros ->. Qed.

Lemma get_dataset_keeps_parameters (X : matrix) (y : list R) (sh : bool) s :
  _w (self (snd (get_dataset shuffle X y sh s))) = _w (self s)
  /\ _b (self (snd (get_dataset shuffle X y sh s))) = _b (self s).
Proof.
  destruct sh; [| split; reflexivity].
  unfold get_dataset, random_shuffle, bind, assign, modify, attr, lift, matrix_take.
  simpl.
  destruct (shuffle (py_random s) (seq 0 (shape0 X))) as [idx g]. simpl.
  destruct (take_rows idx (rows X)); simpl; [| split; reflexivity].
  destruct (take_rows idx y); split; reflexivity.
Qed.

(** Property X5.  On an instance fresh from [__init__], [fit], [predict],
    [get_coeff] and [_optimize] raise AttributeError and change nothing;
    after [get_dataset], whatever its outcome, [predict] and [get_coeff]
    still raise AttributeError, because only [fit] creates the parameters. *)
Theorem methods_need_their_setup (batch_size n_epochs : Z) (lr : R) s
    (X : matrix) (y : list R) (sh : bool) :
  self s = __init__ batch_size lr n_epochs ->
  let s1 := snd (get_dataset shuffle X y sh s) in
  fit s = (Raise AttributeError, s)
  /\ predict X s = (Raise AttributeError, s)
  /\ get_coeff s = (Raise AttributeError, s)
  /\ _optimize X y s = (Raise AttributeError, s)
  /\ predict X s1 = (Raise AttributeError, s1)
  /\ get_coeff s1 = (Raise AttributeError, s1).
Proof.
  intros Hself s1.
  assert (Hw : _w (self s) = None) by now rewrite Hself.
  assert (Hb : _b (self s) = None) by now rewrite Hself.
  assert (Hd : _n_inputs (self s) = None) by now rewrite Hself.
  destruct (get_dataset_keeps_parameters X y sh s) as [Hw1 Hb1].
  fold s1 in Hw1, Hb1. rewrite Hw in Hw1. rewrite Hb in Hb1.
  assert (Hpred : forall t : world rng, _w (self t) = None ->
                    predict X t = (Raise AttributeError, t)).
  { intros t Ht. unfold predict, _model, _logit.
    now rewrite !(bind_fail _ _ _ _ _ (bind_fail _ _ _ _ _
                    (bind_fail _ _ _ _ _ (attr_missing _ _ Ht)))). }
  assert (Hcoeff : forall t : world rng, _b (self t) = None ->
                     get_coeff t = (Raise AttributeError, t)).
  { intros t Ht. unfold get_coeff. now rewrite (bind_fail _ _ _ _ _ (attr_missing _ _ Ht)). }
  repeat split; auto.
  - unfold fit, _create_weights.
    now rewrite !(bind_fail _ _ _ _ _ (bind_fail _ _ _ _ _ (attr_missing _ _ Hd))).
  - unfold _optimize, _model, _logit.
    now rewrite !(bind_fail _ _ _ _ _ (bind_fail _ _ _ _ _
                    (bind_fail _ _ _ _ _ (attr_missing _ _ Hw)))).
Qed.

(** Property X6.  [_optimize] on a batch without rows raises
    ZeroDivisionError, from [-1 / m], and leaves the parameters and
    everything else unchanged. *)
Theorem optimize_rejects_empty_batch (X : matrix) (y : list R) s lw lb w b :
  params_at s lw lb (w, b) -> shape1 X = length w -> shape0 X = 0 ->
  _optimize X y s = (Raise ZeroDivisionError, s).
Proof.
  intros [Hw Hb Hne Hlw Hlb] Hd Hm. simpl in Hlw, Hlb. unfold _optimize.
  rewrite (bind_ok _ _ _ _ _ (model_run X s lw lb w b Hw Hb Hlw Hlb Hd)).
  now rewrite decide_True.
Qed.

(** Property X7.  A feature matrix whose number of columns differs from the
    length of the weights makes [_logit], [predict] and [_optimize] raise
    ValueError; labels and logits whose lengths differ, neither being 1,
    make [_loss] raise ValueError.  In each case nothing is changed. *)
Theorem shape_errors_change_nothing (X : matrix) (y logit : list R) s lw lb w b :
  params_at s lw lb (w, b) ->
  (shape1 X <> length w ->
     _logit X s = (Raise ValueError, s)
     /\ predict X s = (Raise ValueError, s)
     /\ _optimize X y s = (Raise ValueError, s))
  /\ (length y <> length logit -> length y <> 1 -> length logit <> 1 ->
        _loss y logit s = (Raise ValueError, s)).
Proof.
  intros [Hw Hb Hne Hlw Hlb]. simpl in Hlw, Hlb. split.
  - intros Hd.
    assert (Hlogit : _logit X s = (Raise ValueError, s)).
    { unfold _logit.
      rewrite (bind_ok _ _ _ _ _ (attr_ok _ _ _ Hw)).
      rewrite (bind_ok _ _ _ _ _ (deref_ok _ _ _ Hlw)).
      unfold matmul_col. now rewrite decide_False. }
    split; [exact Hlogit |].
    split.
    + unfold predict, _model.
      now rewrite (bind_fail _ _ _ _ _ (bind_fail _ _ _ _ _ Hlogit)).
    + unfold _optimize, _model.
      now rewrite (bind_fail _ _ _ _ _ (bind_fail _ _ _ _ _ Hlogit)).
  - intros Hlen Hy Hl. unfold _loss, broadcast2.
    rewrite decide_False by exact Hlen.
    destruct y as [| y0 [| y1 y]], logit as [| z0 [| z1 logit]]; simpl in *;
      try congruence; reflexivity.
Qed.
End Errors.

Lemma methods_need_their_setup_witness :
  self (Example.created 71) = __init__ 2 1%R 3
  /\ fit (Example.created 71) = (Raise AttributeError, Example.created 71).
Proof.
  split; [reflexivity |].
  exact (proj1 (methods_need_their_setup Example.flip 2 3 1%R (Example.created 71)
                  Example.X Example.y true eq_refl)).
Defined.

Lemma params_at_ready : params_at Example.ready 0 1 ([0; 0]%R, 0%R).
Proof.
  constructor; [reflexivity | reflexivity | discriminate | reflexivity | reflexivity].
Qed.

Lemma optimize_rejects_empty_batch_witness :
  shape0 Sample.no_rows = 0
  /\ _optimize Sample.no_rows [] Example.ready = (Raise ZeroDivisionError, Example.ready).
Proof.
  split; [reflexivity |].
  exact (optimize_rejects_empty_batch Sample.no_rows [] Example.ready 0 1 _ _
           params_at_ready eq_refl eq_refl).
Defined.

Lemma shape_errors_change_nothing_witness :
  shape1 Sample.three_columns <> 2
  /\ predict Sample.three_columns Example.ready = (Raise ValueError, Example.ready).
Proof.
  assert (H : shape1 Sample.three_columns <> length [0; 0]%R) by (simpl; lia).
  split; [exact H |].
  exact (proj1 (proj2 (proj1 (shape_errors_change_nothing Sample.three_columns [] []
                                Example.ready 0 1 _ _ params_at_ready) H))).
Defined.

(** ** Degenerate hyper-parameters *)

Section Degenerate.
Context {rng : Type}.
Implicit Types s : world rng.

Lemma py_range_nonpos n : (n <= 0)%Z -> py_range n = [].
Proof. intros H. unfold py_range. now replace (Z.to_nat n) with 0 by lia. Qed.

Lemma py_range_pos n : (0 < n)%Z -> exists es, py_range n = 0%Z :: es.
Proof.
  intros H. unfold py_range.
  destruct (Z.to_nat n) as [| k] eqn:E; [lia |]. simpl. eauto.
Qed.

Lemma dot_zeros r d : dot r (repeat 0%R d) = 0%R.
Proof.
  unfold dot. revert d. induction r as [| a r IH]; intros [| d]; simpl;
    try reflexivity.
  rewrite IH. lra.
Qed.

Lemma logits_zeros X d : Descent.logits X (repeat 0%R d) 0%R = repeat 0%R (shape0 X).
Proof.
  unfold Descent.logits, shape0. induction (rows X) as [| r rs IH]; simpl;
    [reflexivity |].
  rewrite IH, dot_zeros. f_equal. lra.
Qed.

(** Property X8.  With [n_epochs <= 0] and a loaded data set, [fit] only
    creates the zero parameters: it succeeds whatever the batch size, prints
    nothing, and [predict] afterwards answers one half for every row. *)
Theorem fit_without_epochs s (d : nat) (X_test : matrix) :
  _n_inputs (self s) = Some d -> (_n_epochs (self s) <= 0)%Z ->
  let s' := snd (fit s) in
  fit s = (Ok tt, snd (_create_weights s))
  /\ stdout s' = stdout s
  /\ (exists lw lb, params_at s' lw lb (repeat 0%R d, 0%R))
  /\ (shape1 X_test = d ->
      predict X_test s' = (Ok (repeat (1 / 2)%R (shape0 X_test)), s')).
Proof.
  intros Hd Hn s'.
  destruct (create_weights_run s d Hd) as (Hrun & Hne & Hfw & Hfb).
  set (lw := fresh (dom (heap s))) in *.
  set (lb := fresh (dom (<[lw := repeat 0%R d]> (heap s)))) in *.
  assert (Hfit : fit s = (Ok tt, snd (_create_weights s))).
  { unfold fit. rewrite Hrun. rewrite (bind_ok _ _ _ _ _ Hrun), gets_bind.
    simpl. now rewrite py_range_nonpos. }
  assert (Hp : params_at s' lw lb (repeat 0%R d, 0%R)).
  { unfold s'. rewrite Hfit, Hrun. constructor; simpl; auto.
    - rewrite lookup_insert_ne by auto. now rewrite lookup_insert_eq.
    - now rewrite lookup_insert_eq. }
  split; [exact Hfit |]. split; [unfold s'; now rewrite Hfit, Hrun |].
  split; [eauto |].
  intros Hsh. destruct Hp as [Hw Hb _ Hlw Hlb]. simpl in Hlw, Hlb.
  unfold predict.
  rewrite (bind_ok _ _ _ _ _ (model_run X_test s' lw lb _ _ Hw Hb Hlw Hlb
                                ltac:(now rewrite repeat_length))).
  rewrite logits_zeros. unfold ret. do 2 f_equal.
  induction (shape0 X_test) as [| m IH]; simpl; [reflexivity |].
  rewrite IH. f_equal. apply sigmoid_elem_zero.
Qed.

Lemma py_range3_zero_step stop : py_range3 0 stop 0 = Raise ValueError.
Proof. reflexivity. Qed.

Lemma py_range3_negative_step n step :
  (step < 0)%Z -> py_range3 0 (Z.of_nat n) step = Ok [].
Proof.
  intros H. unfold py_range3.
  rewrite decide_False by lia. rewrite decide_False by lia.
  replace (Z.to_nat ((0 - Z.of_nat n - step - 1) / - step)) with 0; [reflexivity |].
  destruct (Z.le_gt_cases 0 (0 - Z.of_nat n - step - 1)) as [Hge | Hlt].
  - rewrite Z.div_small by lia. reflexivity.
  - pose proof (Z.div_lt_upper_bound (0 - Z.of_nat n - step - 1) (- step) 0
                  ltac:(lia) ltac:(lia)). lia.
Qed.

Lemma fit_epochs_zero_step n e epochs s :
  _n_examples (self s) = Some n -> _batch_size (self s) = 0%Z ->
  fit_epochs (e :: epochs) s = (Raise ValueError, s).
Proof.
  intros Hn Hbs. cbn [fit_epochs]. apply bind_fail. unfold _fetch_batch.
  rewrite !(bind_ok _ _ _ _ _ (attr_ok _ _ _ Hn)).
  rewrite gets_bind, Hbs. reflexivity.
Qed.

(** Property X9.  With [batch_size = 0] and at least one epoch, [fit] raises
    ValueError, from the zero step of [range], after it has replaced the
    parameters by zeros: the instance is left with untrained zero
    parameters. *)
Theorem fit_rejects_zero_batch_size s (d n : nat) :
  _n_inputs (self s) = Some d -> _n_examples (self s) = Some n ->
  _batch_size (self s) = 0%Z -> (0 < _n_epochs (self s))%Z ->
  fit s = (Raise ValueError, snd (_create_weights s))
  /\ exists lw lb, params_at (snd (fit s)) lw lb (repeat 0%R d, 0%R).
Proof.
  intros Hd Hn Hbs Hep.
  destruct (create_weights_run s d Hd) as (Hrun & Hne & Hfw & Hfb).
  set (lw := fresh (dom (heap s))) in *.
  set (lb := fresh (dom (<[lw := repeat 0%R d]> (heap s)))) in *.
  assert (Hfit : fit s = (Raise ValueError, snd (_create_weights s))).
  { unfold fit. rewrite Hrun. rewrite (bind_ok _ _ _ _ _ Hrun), gets_bind.
    cbn [snd self with_self with_heap set_b set_w _n_epochs].
    destruct (py_range_pos _ Hep) as [es ->].
    now apply (fit_epochs_zero_step n). }
  split; [exact Hfit |].
  exists lw, lb. rewrite Hfit, Hrun. constructor; simpl; auto.
  - rewrite lookup_insert_ne by auto. now rewrite lookup_insert_eq.
  - now rewrite lookup_insert_eq.
Qed.

Lemma fit_epochs_no_batches n : forall epochs s,
  _n_examples (self s) = Some n -> (_batch_size (self s) < 0)%Z ->
  fit_epochs epochs s
  = (Ok tt,
     World (self s) (heap s) (py_random s) (np_random s)
           (stdout s ++ map (fun e => (e, 0%R))
                            (filter (fun e => e mod 100 = 0)%Z epochs))).
Proof.
  induction epochs as [| e epochs IH]; intros s Hn Hbs.
  - simpl. rewrite app_nil_r. now destruct s.
  - cbn [fit_epochs].
    assert (Hgen : _fetch_batch s = (Ok (seq 0 n, []), s)).
    { unfold _fetch_batch. rewrite !(bind_ok _ _ _ _ _ (attr_ok _ _ _ Hn)).
      rewrite gets_bind. now rewrite py_range3_negative_step. }
    rewrite (bind_ok _ _ _ _ _ Hgen). cbn [fst snd fit_batches].
    unfold ret at 1. unfold bind at 1.
    destruct (decide (e mod 100 = 0)%Z) as [He | He].
    + unfold print, modify, bind. rewrite IH by assumption.
      rewrite filter_cons_True by exact He. simpl. now rewrite <- app_assoc.
    + unfold ret, bind. rewrite IH by assumption.
      now rewrite filter_cons_False by exact He.
Qed.

(** Property X10.  With a negative [batch_size] the batch generator yields
    nothing: [fit] succeeds without a single update, leaves the parameters
    at zero, and prints a total loss of 0 for every hundredth epoch. *)
Theorem fit_with_negative_batch_size s (d n : nat) :
  _n_inputs (self s) = Some d -> _n_examples (self s) = Some n ->
  (_batch_size (self s) < 0)%Z ->
  let s' := snd (fit s) in
  fst (fit s) = Ok tt
  /\ (exists lw lb, params_at s' lw lb (repeat 0%R d, 0%R))
  /\ stdout s'
     = stdout s ++ map (fun e => (e, 0%R))
                       (filter (fun e => e mod 100 = 0)%Z (py_range (_n_epochs (self s)))).
Proof.
  intros Hd Hn Hbs s'.
  destruct (create_weights_run s d Hd) as (Hrun & Hne & Hfw & Hfb).
  set (lw := fresh (dom (heap s))) in *.
  set (lb := fresh (dom (<[lw := repeat 0%R d]> (heap s)))) in *.
  assert (Hfit : fit s = fit_epochs (py_range (_n_epochs (self s)))
                           (snd (_create_weights s))).
  { unfold fit. rewrite Hrun. now rewrite (bind_ok _ _ _ _ _ Hrun), gets_bind. }
  rewrite Hrun in Hfit. cbn [snd] in Hfit.
  rewrite (fit_epochs_no_batches n) in Hfit by assumption.
  unfold s'. rewrite Hfit. cbn [fst snd].
  split; [reflexivity |]. split; [| reflexivity].
  exists lw, lb. constructor; simpl; auto.
  - rewrite lookup_insert_ne by auto. now rewrite lookup_insert_eq.
  - now rewrite lookup_insert_eq.
Qed.
End Degenerate.

Lemma fit_without_epochs_witness :
  (_n_epochs (self Sample.no_epochs) <= 0)%Z
  /\ fit Sample.no_epochs = (Ok tt, snd (_create_weights Sample.no_epochs)).
Proof.
  assert (H : (_n_epochs (self Sample.no_epochs) <= 0)%Z) by (simpl; lia).
  split; [exact H |].
  exact (proj1 (fit_without_epochs Sample.no_epochs 2 Example.X eq_refl H)).
Defined.

Lemma fit_rejects_zero_batch_size_witness :
  _batch_size (self Sample.zero_batch) = 0%Z
  /\ fit Sample.zero_batch = (Raise ValueError, snd (_create_weights Sample.zero_batch)).
Proof.
  split; [reflexivity |].
  exact (proj1 (fit_rejects_zero_batch_size Sample.zero_batch 2 3 eq_refl eq_refl eq_refl
                  ltac:(simpl; lia))).
Defined.

Lemma fit_with_negative_batch_size_witness :
  (_batch_size (self Sample.negative_batch) < 0)%Z
  /\ fst (fit Sample.negative_batch) = Ok tt.
Proof.
  assert (H : (_batch_size (self Sample.negative_batch) < 0)%Z) by (simpl; lia).
  split; [exact H |].
  exact (proj1 (fit_with_negative_batch_size Sample.negative_batch 2 3 eq_refl eq_refl H)).
Defined.

(** ** The first loss, full batches, and loading followed by fitting *)

Section Training.
Context {rng : Type} (shuffle : rng -> list nat -> list nat * rng).
Implicit Types s : world rng.

Lemma cross_entropy_elem_at_zero (y : R) : cross_entropy_elem y 0 = ln 2.
Proof.
  rewrite cross_entropy_elem_closed, exp_0.
  replace (1 + 1)%R with 2%R by lra. lra.
Qed.

Lemma zip_with_cross_entropy_zeros (y : list R) :
  zip_with cross_entropy_elem y (repeat 0%R (length y)) = repeat (ln 2) (length y).
Proof.
  induction y as [| a y IH]; simpl; [reflexivity |].
  now rewrite cross_entropy_elem_at_zero, IH.
Qed.

Lemma np_mean_repeat (c : R) (m : nat) : m <> 0 -> np_mean (repeat c m) = c.
Proof.
  intros Hm. unfold np_mean. rewrite repeat_length.
  assert (Hsum : np_sum (repeat c m) = (INR m * c)%R).
  { clear Hm. induction m as [| m IH]; [simpl; lra |].
    rewrite S_INR. change (repeat c (S m)) with (c :: repeat c m).
    simpl. rewrite IH. lra. }
  rewrite Hsum. field. apply not_0_INR. exact Hm.
Qed.

(** Property X11.  With zero parameters, as [_create_weights] leaves them,
    the logits of any batch are zero and [_loss] returns [ln 2] for any
    labels of the right length; it stores [ln 2] for every example. *)
Theorem first_loss_is_ln_2 (X : matrix) (y : list R) s lw lb (d : nat) :
  params_at s lw lb (repeat 0%R d, 0%R) ->
  shape1 X = d -> length y = shape0 X -> shape0 X <> 0 ->
  bind (_logit X) (fun logit => _loss y logit) s
  = (Ok (ln 2), with_self (set_cross_entropy (repeat (ln 2) (shape0 X))) s).
Proof.
  intros [Hw Hb Hne Hlw Hlb] Hd Hy Hm. simpl in Hlw, Hlb.
  rewrite (bind_ok _ _ _ _ _ (logit_run X s lw lb _ _ Hw Hb Hlw Hlb
                                ltac:(now rewrite repeat_length))).
  rewrite logits_zeros, loss_run by now rewrite repeat_length.
  rewrite <- Hy, zip_with_cross_entropy_zeros, np_mean_repeat by lia.
  reflexivity.
Qed.

(** Property X12.  When the batch size is at least the number of stored
    examples, [_fetch_batch] yields exactly one batch, the whole stored data
    set: training is full-batch gradient descent. *)
Theorem one_batch_when_batch_size_covers_all s (X : matrix) (y : list R) (bs : nat) :
  dataset_ok s X y bs -> 0 < shape0 X -> shape0 X <= bs ->
  list_fetch_batch s = (Ok [(X, y)], s).
Proof.
  intros Hds Hpos Hle.
  rewrite (list_fetch_batch_run s X y bs Hds). do 2 f_equal.
  pose proof (ok_labels _ _ _ _ _ Hds) as Hlen.
  unfold Descent.batches.
  assert (Hn : Descent.n_batches (shape0 X) bs = 1).
  { unfold Descent.n_batches.
    symmetry. apply (Nat.div_unique _ _ 1 (shape0 X - 1)); lia. }
  rewrite Hn. destruct X as [rs c]. unfold shape0 in *. cbn [rows] in *.
  cbn [seq map]. unfold Descent.batch_at, py_slice. cbn [rows ncols].
  rewrite Nat.mul_0_l, Nat.add_0_l, Nat.sub_0_r, !drop_0.
  rewrite Nat.min_r by lia. now rewrite !take_ge by lia.
Qed.

Lemma length_step lr b p d :
  ncols (fst b) = d -> length (fst p) = d -> length (fst (Descent.step lr b p)) = d.
Proof.
  intros Hb Hp. destruct b as [X y], p as [w c]. simpl in *.
  rewrite length_zip_with, length_grad_w. lia.
Qed.

Lemma length_epoch lr d : forall B p,
  Forall (fun b => ncols (fst b) = d) B -> length (fst p) = d ->
  length (fst (Descent.epoch lr B p)) = d.
Proof.
  unfold Descent.epoch. induction B as [| b B IH]; intros p HB Hp; simpl;
    [exact Hp |].
  inversion HB; subst. apply IH; [assumption |]. now apply length_step.
Qed.

Lemma length_train lr d B k p :
  Forall (fun b => ncols (fst b) = d) B -> length (fst p) = d ->
  length (fst (Descent.train lr B k p)) = d.
Proof.
  intros HB Hp. unfold Descent.train. induction k as [| k IH]; simpl;
    [exact Hp |].
  now apply length_epoch.
Qed.

Lemma batches_ncols X y n bs :
  Forall (fun b => ncols (fst b) = ncols X) (Descent.batches X y n bs).
Proof.
  unfold Descent.batches. apply Forall_forall. intros b Hb.
  apply list_elem_of_fmap in Hb. destruct Hb as (k & -> & _). reflexivity.
Qed.

(** [random.shuffle] reorders its list. *)
Hypothesis shuffle_Permutation :
  forall g l, Permutation l (fst (shuffle g l)).

Lemma get_dataset_establishes (X : matrix) (y : list R) (sh : bool) s (bs : nat) :
  length y = shape0 X -> _batch_size (self s) = Z.of_nat bs -> 0 < bs ->
  exists X' y',
    fst (get_dataset shuffle X y sh s) = Ok tt
    /\ dataset_ok (snd (get_dataset shuffle X y sh s)) X' y' bs
    /\ Permutation (zip (rows X) y) (zip (rows X') y')
    /\ shape1 X' = shape1 X
    /\ (sh = false -> X' = X /\ y' = y)
    /\ _lr (self (snd (get_dataset shuffle X y sh s))) = _lr (self s)
    /\ _n_epochs (self (snd (get_dataset shuffle X y sh s))) = _n_epochs (self s).
Proof.
  intros Hlen Hbs Hpos. destruct sh.
  - destruct (get_dataset_shuffled shuffle shuffle_Permutation X y s ltac:(lia))
      as (rows' & y' & Hrows & Hy & Hrun).
    set (idx := fst (shuffle (py_random s) (seq 0 (shape0 X)))) in *.
    assert (Hperm : Permutation (seq 0 (shape0 X)) idx) by apply shuffle_Permutation.
    assert (Hidx : length idx = shape0 X).
    { rewrite <- (Permutation_length Hperm). apply length_seq. }
    exists (Matrix rows' (ncols X)), y'. rewrite Hrun. cbn [fst snd].
    split; [reflexivity |]. split; [| split; [| split; [| split]]].
    + constructor; simpl; auto.
      * unfold shape0. simpl. now rewrite (take_rows_length _ _ _ Hrows), Hidx.
      * unfold shape0. simpl.
        now rewrite (take_rows_length _ _ _ Hrows), (take_rows_length _ _ _ Hy).
    + apply (take_rows_Permutation _ idx); [now apply take_rows_zip |].
      rewrite length_zip_with. fold (shape0 X). now rewrite Hlen, Nat.min_id.
    + reflexivity.
    + discriminate.
    + split; reflexivity.
  - exists X, y. rewrite get_dataset_plain. cbn [fst snd].
    split; [reflexivity |]. split; [| split; [| split; [| split]]]; auto.
    constructor; simpl; auto.
Qed.

(** Property X13.  From any state of the instance, [get_dataset] on features
    and labels with the same number of rows, with a positive batch size,
    followed by [fit] succeeds; the stored pairs are a permutation of the
    given ones, the parameters are the closed-form result of the passes from
    zero, and [predict] on a matrix with as many columns returns one
    probability in (0, 1) per row without changing the model. *)
Theorem load_fit_predict (X X_test : matrix) (y : list R) (sh : bool) s (bs : nat) :
  length y = shape0 X -> _batch_size (self s) = Z.of_nat bs -> 0 < bs ->
  shape1 X_test = shape1 X ->
  exists X' y' s1 s2 lw lb p,
    get_dataset shuffle X y sh s = (Ok tt, s1)
    /\ fit s1 = (Ok tt, s2)
    /\ Permutation (zip (rows X) y) (zip (rows X') y')
    /\ params_at s2 lw lb
         (Descent.train (_lr (self s)) (Descent.batches X' y' (shape0 X') bs)
            (Z.to_nat (_n_epochs (self s))) (repeat 0%R (shape1 X), 0%R))
    /\ predict X_test s2 = (Ok p, s2)
    /\ length p = shape0 X_test
    /\ Forall (fun q => (0 < q < 1)%R) p.
Proof.
  intros Hlen Hbs Hpos Htest.
  destruct (get_dataset_establishes X y sh s bs Hlen Hbs Hpos)
    as (X' & y' & Hload & Hds & Hperm & Hcols & _ & Hlr & Hne).
  destruct (get_dataset shuffle X y sh s) as [r1 s1] eqn:Hrun.
  cbn [fst snd] in *. subst r1.
  destruct (fit_run s1 X' y' bs Hds)
    as (s2 & lw & lb & printed & Hfit & _ & _ & _ & Hp & _).
  rewrite Hlr, Hne, Hcols in Hp.
  set (p' := Descent.train _ _ _ _) in Hp.
  assert (Hd : length (fst p') = shape1 X).
  { apply length_train; [| apply repeat_length].
    rewrite <- Hcols. apply batches_ncols. }
  destruct Hp as [Hw Hb Hneq Hlw Hlb].
  exists X', y', s1, s2, lw, lb, (map sigmoid_elem (Descent.logits X_test (fst p') (snd p'))).
  split; [reflexivity |]. split; [exact Hfit |]. split; [exact Hperm |].
  split; [constructor; assumption |].
  split; [| split].
  - unfold predict.
    now rewrite (bind_ok _ _ _ _ _ (model_run X_test s2 lw lb _ _ Hw Hb Hlw Hlb
                                      ltac:(congruence))).
  - now rewrite length_map, length_logits.
  - apply Forall_map, Forall_forall. intros z _. apply sigmoid_elem_range.
Qed.
End Training.

Lemma first_loss_is_ln_2_witness :
  params_at Example.ready 0 1 (repeat 0%R 2, 0%R)
  /\ fst (bind (_logit Example.X) (fun logit => _loss Example.y logit) Example.ready)
     = Ok (ln 2).
Proof.
  split; [exact params_at_ready |].
  now rewrite (first_loss_is_ln_2 Example.X Example.y Example.ready 0 1 2
                 params_at_ready eq_refl eq_refl ltac:(discriminate)).
Defined.

Lemma dataset_ok_big_batch : dataset_ok Sample.big_batch Example.X Example.y 5.
Proof. constructor; try reflexivity. lia. Qed.

Lemma one_batch_when_batch_size_covers_all_witness :
  shape0 Example.X <= 5
  /\ list_fetch_batch Sample.big_batch = (Ok [(Example.X, Example.y)], Sample.big_batch).
Proof.
  assert (H : shape0 Example.X <= 5) by (vm_compute; lia).
  split; [exact H |].
  apply (one_batch_when_batch_size_covers_all Sample.big_batch Example.X Example.y 5
           dataset_ok_big_batch); [vm_compute; lia | exact H].
Defined.

Lemma load_fit_predict_witness :
  length Example.y = shape0 Example.X
  /\ exists s1 s2,
       get_dataset Example.flip Example.X Example.y true (Example.created 71) = (Ok tt, s1)
       /\ fit s1 = (Ok tt, s2).
Proof.
  split; [reflexivity |].
  destruct (load_fit_predict Example.flip flip_Permutation Example.X Example.X Example.y
              true (Example.created 71) 2 eq_refl eq_refl ltac:(lia) eq_refl)
    as (X' & y' & s1 & s2 & lw & lb & p & Hload & Hfit & _).
  exists s1, s2. split; assumption.
Defined.

(** ** Too few labels, and fitting again *)

Lemma take_rows_out_of_range {A} (l : list A) : forall idx i,
  i ∈ idx -> length l <= i -> take_rows idx l = Raise IndexError.
Proof.
  induction idx as [| j idx IH]; intros i Hi Hlen; [now apply elem_of_nil in Hi |].
  simpl. destruct (l !! j) as [x |] eqn:Hj; [| reflexivity].
  apply elem_of_cons in Hi. destruct Hi as [-> | Hi].
  - apply lookup_lt_Some in Hj. lia.
  - now rewrite (IH i Hi Hlen).
Qed.

Section ShortLabels.
Context {rng : Type} (shuffle : rng -> list nat -> list nat * rng).
Implicit Types s : world rng.

(** [random.shuffle] reorders its list. *)
Hypothesis shuffle_Permutation :
  forall g l, Permutation l (fst (shuffle g l)).

(** Property X14.  With fewer labels than feature rows, [get_dataset]
    accepts the data when [shuffle=False], but raises IndexError when
    [shuffle=True], and then leaves the instance half updated: the features
    are stored shuffled, the labels unshuffled, and the generator has
    advanced. *)
Theorem get_dataset_with_too_few_labels (X : matrix) (y : list R) s :
  length y < shape0 X ->
  let idx := fst (shuffle (py_random s) (seq 0 (shape0 X))) in
  let s' := snd (get_dataset shuffle X y true s) in
  fst (get_dataset shuffle X y false s) = Ok tt
  /\ fst (get_dataset shuffle X y true s) = Raise IndexError
  /\ (exists rows', take_rows idx (rows X) = Ok rows'
                    /\ _X_train (self s') = Some (Matrix rows' (ncols X)))
  /\ _y_train (self s') = Some y
  /\ py_random s' = snd (shuffle (py_random s) (seq 0 (shape0 X))).
Proof.
  intros Hlen idx s'.
  assert (Hperm : Permutation (seq 0 (shape0 X)) idx) by apply shuffle_Permutation.
  assert (Hrange : Forall (fun i => i < length (rows X)) idx).
  { apply Forall_forall. intros i Hi. rewrite <- Hperm in Hi.
    apply elem_of_seq in Hi. unfold shape0 in Hi. lia. }
  destruct (take_rows_in_range (rows X) idx Hrange) as [rows' Hrows].
  assert (Hy : take_rows idx y = Raise IndexError).
  { apply (take_rows_out_of_range y idx (length y)); [| lia].
    rewrite <- Hperm. apply elem_of_seq. lia. }
  split; [reflexivity |].
  unfold s', get_dataset, random_shuffle, bind, assign, modify, attr, lift, matrix_take.
  simpl. fold idx.
  unfold idx in *.
  destruct (shuffle (py_random s) (seq 0 (shape0 X))) as [idx0 g]. simpl in *.
  rewrite Hrows. simpl. rewrite Hy. simpl. eauto 10.
Qed.
End ShortLabels.

Lemma get_dataset_with_too_few_labels_witness :
  length Sample.short_y < shape0 Example.X
  /\ fst (get_dataset Example.flip Example.X Sample.short_y true (Example.created 71))
     = Raise IndexError.
Proof.
  assert (H : length Sample.short_y < shape0 Example.X) by (vm_compute; lia).
  split; [exact H |].
  exact (proj1 (proj2 (get_dataset_with_too_few_labels Example.flip flip_Permutation
                         Example.X Sample.short_y (Example.created 71) H))).
Defined.

Section Refit.
Context {rng : Type}.
Implicit Types s : world rng.

Import Locality.

Ltac still :=
  repeat first
    [ apply preserves_bind; [| intros ?]
    | apply preserves_attr
    | apply preserves_still; intros ?; reflexivity ].

Lemma fetch_batch_yield_still idx i s : snd (_fetch_batch_yield idx i s) = s.
Proof.
  revert s. change (preserves (fun s : world rng => s) (_fetch_batch_yield idx i)).
  unfold _fetch_batch_yield. still.
Qed.

Lemma fetch_batch_still s : snd (_fetch_batch s) = s.
Proof.
  revert s. change (preserves (fun s : world rng => s) _fetch_batch).
  unfold _fetch_batch. still.
Qed.

Lemma leaves_array_bind {A B} l (c : M rng A) (k : A -> M rng B) :
  leaves_array l c -> (forall a, leaves_array l (k a)) -> leaves_array l (bind c k).
Proof.
  intros Hc Hk s Hw Hb. unfold bind.
  destruct (Hc s Hw Hb) as (Hw1 & Hb1 & Hh1).
  destruct (c s) as [[a | e] s1]; simpl in *; [| auto].
  destruct (Hk a s1 Hw1 Hb1) as (Hw2 & Hb2 & Hh2).
  repeat split; auto. congruence.
Qed.

Lemma leaves_array_still {A} l (c : M rng A) :
  (forall s, snd (c s) = s) -> leaves_array l c.
Proof. intros H s Hw Hb. rewrite H. auto. Qed.

Lemma leaves_array_optimize l X y : leaves_array l (_optimize (rng:=rng) X y).
Proof.
  intros s Hw Hb.
  pose proof (optimize_keeps X y s) as Hk. unfold optimize_frame in Hk.
  assert (Hself : self (snd (_optimize X y s)) = self s) by congruence.
  rewrite Hself. repeat split; auto. now apply optimize_heap_local.
Qed.

Lemma leaves_array_loss l y logit : leaves_array l (_loss (rng:=rng) y logit).
Proof.
  intros s Hw Hb. unfold _loss, bind, lift, assign, modify, ret.
  destruct (broadcast2 cross_entropy_elem y logit); simpl; auto.
Qed.

Lemma leaves_array_fit_batches l idx starts : forall total,
  leaves_array l (fit_batches (rng:=rng) idx starts total).
Proof.
  induction starts as [| i starts IH]; intros total; cbn [fit_batches].
  - now apply leaves_array_still.
  - apply leaves_array_bind; [apply leaves_array_still, fetch_batch_yield_still |].
    intros [X_b y_b].
    apply leaves_array_bind; [apply leaves_array_optimize | intros _].
    apply leaves_array_bind; [apply leaves_array_still, logit_still | intros logit].
    apply leaves_array_bind; [apply leaves_array_loss | intros loss]. apply IH.
Qed.

Lemma leaves_array_fit_epochs l epochs : leaves_array l (fit_epochs (rng:=rng) epochs).
Proof.
  induction epochs as [| e epochs IH]; cbn [fit_epochs].
  - now apply leaves_array_still.
  - apply leaves_array_bind; [apply leaves_array_still, fetch_batch_still | intros g].
    apply leaves_array_bind; [apply leaves_array_fit_batches | intros total].
    apply leaves_array_bind; [| intros _; exact IH].
    destruct (decide _); [intros s Hw Hb; simpl; auto | now apply leaves_array_still].
Qed.

(** Property X15.  [fit] never writes to an array that existed before the
    call: it creates two new arrays for the parameters, and after a
    successful [fit] the instance refers to none of the old ones. *)
Theorem fit_again_leaves_old_arrays s (l : loc) :
  is_Some (heap s !! l) ->
  heap (snd (fit s)) !! l = heap s !! l
  /\ (fst (fit s) = Ok tt ->
      _w (self (snd (fit s))) <> Some l /\ _b (self (snd (fit s))) <> Some l).
Proof.
  intros Hl. unfold fit.
  destruct (_n_inputs (self s)) as [d |] eqn:Hd.
  - destruct (create_weights_run s d Hd) as (Hrun & Hne & Hfw & Hfb).
    set (lw := fresh (dom (heap s))) in *.
    set (lb := fresh (dom (<[lw := repeat 0%R d]> (heap s)))) in *.
    rewrite (bind_ok _ _ _ _ _ Hrun), gets_bind.
    set (s1 := with_self (set_b lb) _) in *.
    assert (Hlw : lw <> l) by (intros ->; rewrite Hfw in Hl; now destruct Hl).
    assert (Hlb : lb <> l) by (intros ->; rewrite Hfb in Hl; now destruct Hl).
    destruct (leaves_array_fit_epochs l (py_range (_n_epochs (self s1))) s1)
      as (Hw & Hb & Hh).
    { simpl. congruence. }
    { simpl. congruence. }
    split; [| auto].
    rewrite Hh. unfold s1. simpl. now rewrite !lookup_insert_ne by auto.
  - unfold _create_weights.
    rewrite !(bind_fail _ _ _ _ _ (bind_fail _ _ _ _ _ (attr_missing _ _ Hd))).
    split; [reflexivity | discriminate].
Qed.
End Refit.

Lemma fit_again_leaves_old_arrays_witness :
  is_Some (heap Example.ready !! 0)
  /\ heap (snd (fit Example.ready)) !! 0 = Some [0; 0]%R.
Proof.
  assert (H : is_Some (heap Example.ready !! 0)) by (eexists; reflexivity).
  split; [exact H |].
  etransitivity; [exact (proj1 (fit_again_leaves_old_arrays Example.ready 0 H)) |].
  reflexivity.
Defined.

(** ** The lines [fit] prints *)

Section Printed.
Context {rng : Type}.
Implicit Types s : world rng.

Lemma epoch_trace_params lr : forall B p total,
  fst (Report.epoch_trace lr B p total) = Descent.epoch lr B p.
Proof.
  unfold Descent.epoch. induction B as [| b B IH]; intros p total; simpl;
    [reflexivity | apply IH].
Qed.

Lemma fit_batches_trace X y bs lw lb : forall ks s p total,
  dataset_ok s X y bs -> params_at s lw lb p -> length (fst p) = shape1 X ->
  Forall (fun k => k * bs < shape0 X) ks ->
  let r := Report.epoch_trace (_lr (self s))
             (map (Descent.batch_at X y (shape0 X) bs) ks) p total in
  exists s',
    fit_batches (seq 0 (shape0 X)) (map (fun k => Z.of_nat (k * bs)) ks) total s
    = (Ok (snd r), s')
    /\ fit_frame s' = fit_frame s /\ stdout s' = stdout s
    /\ params_at s' lw lb (fst r) /\ length (fst (fst r)) = shape1 X.
Proof.
  induction ks as [| k ks IH]; intros s p total Hds Hp Hlen Hks r.
  - exists s. simpl. repeat split; auto; apply Hp.
  - inversion Hks as [| ? ? Hk Hks']; subst.
    destruct (fit_batch_step s X y bs lw lb p k Hds Hp Hlen Hk)
      as (s1 & Hrun & Hfr & Hout & Hp1 & Hlen1).
    assert (Hlr : _lr (self s1) = _lr (self s)).
    { unfold fit_frame in Hfr. congruence. }
    edestruct (IH s1 (Descent.step (_lr (self s)) (Descent.batch_at X y (shape0 X) bs k) p))
      as (s' & Hrun' & Hfr' & Hout' & Hp' & Hlen');
      eauto using dataset_ok_frame.
    rewrite Hlr in Hrun', Hp', Hlen'.
    exists s'. unfold r. cbn [map fit_batches Report.epoch_trace].
    rewrite Hrun. split; [exact Hrun' |].
    repeat split; try congruence; try exact Hlen'; apply Hp'.
Qed.

Lemma fit_epochs_report X y bs lw lb : forall epochs s p,
  dataset_ok s X y bs -> params_at s lw lb p -> length (fst p) = shape1 X ->
  exists s',
    fit_epochs epochs s = (Ok tt, s')
    /\ stdout s'
       = stdout s ++ Report.report (_lr (self s)) (Descent.batches X y (shape0 X) bs)
                       epochs p.
Proof.
  induction epochs as [| e epochs IH]; intros s p Hds Hp Hlen.
  - exists s. simpl. now rewrite app_nil_r.
  - destruct (fit_batches_trace X y bs lw lb _ s p 0%R Hds Hp Hlen
                (batch_starts_in_range _ _ (ok_batch_pos _ _ _ _ _ Hds)))
      as (s1 & Hrun & Hfr & Hout & Hp1 & Hlen1).
    fold (Descent.batches X y (shape0 X) bs) in Hrun, Hp1, Hlen1.
    set (r := Report.epoch_trace _ _ p 0%R) in *.
    set (s2 := if decide (e mod 100 = 0)%Z
               then with_stdout (fun out => out ++ [(e, snd r)]) s1 else s1).
    assert (Hfr2 : fit_frame s2 = fit_frame s).
    { unfold s2. destruct (decide _); [| exact Hfr]. rewrite <- Hfr. reflexivity. }
    assert (Hp2 : params_at s2 lw lb (fst r)).
    { unfold s2. destruct (decide _); [| exact Hp1].
      destruct Hp1. constructor; assumption. }
    destruct (IH s2 _ (dataset_ok_frame _ _ _ _ _ Hds Hfr2) Hp2 Hlen1)
      as (s' & Hrun' & Hout').
    assert (Hlr2 : _lr (self s2) = _lr (self s)).
    { unfold fit_frame in Hfr2. congruence. }
    rewrite Hlr2 in Hout'.
    exists s'. split.
    + cbn [fit_epochs].
      rewrite (bind_ok _ _ _ _ _ (fetch_batch_run s X y bs Hds)).
      cbn [fst snd]. rewrite (bind_ok _ _ _ _ _ Hrun).
      unfold s2 in Hrun'. destruct (decide (e mod 100 = 0)%Z); exact Hrun'.
    + rewrite Hout'. cbn [Report.report]. fold r. unfold s2.
      destruct (decide (e mod 100 = 0)%Z); simpl; rewrite Hout, <- ?app_assoc;
        reflexivity.
Qed.

Lemma zip_with_cross_entropy_pos (ys zs : list R) :
  Forall is_label ys ->
  Forall (fun x => (0 < x)%R) (zip_with cross_entropy_elem ys zs).
Proof.
  intros Hlab. revert zs.
  induction Hlab as [| a ys Ha _ IH]; intros [| z zs]; simpl; constructor;
    [now apply cross_entropy_elem_pos | apply IH].
Qed.

Lemma epoch_trace_grows lr : forall B p total,
  Forall (fun b => snd b <> [] /\ length (snd b) = shape0 (fst b)
                   /\ Forall is_label (snd b)) B ->
  (total <= snd (Report.epoch_trace lr B p total))%R
  /\ (B <> [] -> (total < snd (Report.epoch_trace lr B p total))%R).
Proof.
  induction B as [| b B IH]; intros p total HB; simpl.
  - split; [lra | congruence].
  - inversion HB as [| ? ? (Hne & Hlen & Hlab) HB']; subst.
    set (p' := Descent.step lr b p).
    assert (Hpos : (0 < Descent.mean_loss (fst b) (snd b) (fst p') (snd p')
                        * INR (shape0 (fst b)))%R).
    { apply Rmult_lt_0_compat.
      - unfold Descent.mean_loss. apply np_mean_pos.
        + intros Hnil. apply (f_equal length) in Hnil.
          rewrite length_zip_with, length_logits, <- Hlen, Nat.min_id in Hnil.
          simpl in Hnil. apply Hne. now apply nil_length_inv.
        + now apply zip_with_cross_entropy_pos.
      - apply lt_0_INR. rewrite <- Hlen. destruct (snd b); [congruence | simpl; lia]. }
    destruct (IH p' (total + Descent.mean_loss (fst b) (snd b) (fst p') (snd p')
                             * INR (shape0 (fst b)))%R HB') as [Hle _].
    split; [lra | intros _; lra].
Qed.

Lemma report_positive lr B : forall epochs p,
  B <> [] ->
  Forall (fun b => snd b <> [] /\ length (snd b) = shape0 (fst b)
                   /\ Forall is_label (snd b)) B ->
  Forall (fun line => (0 < snd line)%R) (Report.report lr B epochs p).
Proof.
  induction epochs as [| e epochs IH]; intros p Hne HB; simpl; [constructor |].
  apply Forall_app. split; [| now apply IH].
  destruct (decide _); constructor; [| constructor].
  simpl. now apply (epoch_trace_grows lr B p 0%R HB).
Qed.

Lemma batches_well_formed X y bs :
  0 < bs -> length y = shape0 X -> Forall is_label y ->
  Forall (fun b => snd b <> [] /\ length (snd b) = shape0 (fst b)
                   /\ Forall is_label (snd b))
         (Descent.batches X y (shape0 X) bs).
Proof.
  intros Hpos Hlen Hlab. unfold Descent.batches. apply Forall_forall. intros b Hb.
  apply list_elem_of_fmap in Hb. destruct Hb as (k & -> & Hk).
  apply elem_of_seq in Hk.
  assert (Hlt : k * bs < shape0 X) by (apply n_batches_spec; [exact Hpos | lia]).
  destruct (batch_at_shape X y bs k Hlen) as (Hm & Hy & _).
  split; [| split].
  - intros Hnil. rewrite Hnil in Hy. simpl in Hy. lia.
  - congruence.
  - unfold Descent.batch_at, py_slice. simpl. now apply Forall_take, Forall_drop.
Qed.

(** Property X16.  What [fit] prints is, for every epoch that is a multiple
    of 100, the sum over the batches of that pass of the mean loss of the
    batch measured right after its update, times the number of rows of the
    batch; with binary labels and at least one example every printed loss is
    positive. *)
Theorem fit_prints_total_loss s (X : matrix) (y : list R) (bs : nat) :
  dataset_ok s X y bs ->
  let B := Descent.batches X y (shape0 X) bs in
  let printed := Report.report (_lr (self s)) B (py_range (_n_epochs (self s)))
                   (repeat 0%R (shape1 X), 0%R) in
  stdout (snd (fit s)) = stdout s ++ printed
  /\ (Forall is_label y -> 0 < shape0 X ->
      Forall (fun line => (0 < snd line)%R) printed).
Proof.
  intros Hds B printed. split.
  - destruct (create_weights_run s _ (ok_n_inputs _ _ _ _ _ Hds))
      as (Hcw & Hne & Hfw & Hfb).
    set (lw := fresh (dom (heap s))) in *.
    set (lb := fresh (dom (<[lw := repeat 0%R (shape1 X)]> (heap s)))) in *.
    set (s1 := with_self (set_b lb) _) in Hcw.
    assert (Hfr1 : fit_frame s1 = fit_frame s) by reflexivity.
    assert (Hp1 : params_at s1 lw lb (repeat 0%R (shape1 X), 0%R)).
    { constructor; auto; unfold s1; simpl.
      - rewrite lookup_insert_ne by auto. now rewrite lookup_insert_eq.
      - now rewrite lookup_insert_eq. }
    destruct (fit_epochs_report X y bs lw lb (py_range (_n_epochs (self s))) s1 _
                (dataset_ok_frame _ _ _ _ _ Hds Hfr1) Hp1 ltac:(apply repeat_length))
      as (s' & Hrun & Hout).
    unfold fit. rewrite (bind_ok _ _ _ _ _ Hcw), gets_bind.
    change (_n_epochs (self s1)) with (_n_epochs (self s)).
    rewrite Hrun. exact Hout.
  - intros Hlab Hn. pose proof (ok_batch_pos _ _ _ _ _ Hds) as Hpos.
    apply report_positive.
    + unfold B, Descent.batches. intros Hnil. apply (f_equal length) in Hnil.
      rewrite length_map, length_seq in Hnil. simpl in Hnil.
      assert (0 < Descent.n_batches (shape0 X) bs)
        by (apply n_batches_spec; [exact Hpos | lia]).
      lia.
    + apply batches_well_formed; [exact Hpos | apply (ok_labels _ _ _ _ _ Hds) | exact Hlab].
Qed.
End Printed.

Lemma fit_prints_total_loss_witness :
  dataset_ok Example.loaded Example.X Example.y 2
  /\ exists line, stdout (snd (fit Example.loaded)) = [line] /\ fst line = 0%Z.
Proof.
  split; [exact dataset_ok_loaded |].
  destruct (fit_prints_total_loss Example.loaded Example.X Example.y 2 dataset_ok_loaded)
    as [Hout _].
  eexists. split; [rewrite Hout; reflexivity | reflexivity].
Defined.

(** ** The TensorFlow class against the numpy class *)

Section TensorFlowClass.
Context {rng : Type} (shuffle : rng -> list nat -> list nat * rng).

Lemma take_rows_all {A} (l : list A) (n : nat) :
  n <= length l -> take_rows (seq 0 n) l = Ok (take n l).
Proof. intros H. rewrite take_rows_seq by lia. now rewrite drop_0. Qed.

(** Property X17.  [LogisticRegressionTF.get_dataset] with [shuffle=False]
    stores the features unchanged, keeps only as many labels as there are
    feature rows, and leaves the generator alone; with fewer labels than
    rows it raises IndexError, where the numpy class accepts the data. *)
Theorem tf_get_dataset_unshuffled (X : matrix) (y : list R) (o : LogRegTF.obj) (g : rng) :
  (shape0 X <= length y ->
     LogRegTF.get_dataset rng shuffle X y false o g
     = (Ok tt,
        LogRegTF.Obj (LogRegTF._batch_size o) (LogRegTF._n_epochs o)
          (LogRegTF._learning_rate o) (Some X) (Some (take (shape0 X) y))
          (Some (shape0 X)) (Some (shape1 X)),
        g))
  /\ (length y < shape0 X ->
        fst (fst (LogRegTF.get_dataset rng shuffle X y false o g)) = Raise IndexError).
Proof.
  split; intros Hlen; unfold LogRegTF.get_dataset, matrix_take.
  - rewrite take_rows_all by (unfold shape0; lia).
    rewrite take_rows_all by exact Hlen.
    destruct X as [rs c]. unfold shape0, shape1. cbn [rows ncols].
    rewrite (take_ge rs) by lia. reflexivity.
  - rewrite take_rows_all by (unfold shape0; lia).
    rewrite (take_rows_out_of_range y _ (length y)); [reflexivity | | lia].
    apply elem_of_seq. lia.
Qed.

(** Property X18.  With [shuffle=True] the two classes load data alike: from
    the same generator state, [get_dataset] of the TensorFlow class and of
    the numpy class have the same outcome, store the same arrays and sizes,
    and leave the same generator state. *)
Theorem tf_get_dataset_shuffled_like_numpy (X : matrix) (y : list R)
    (o : LogRegTF.obj) (s : world rng) :
  let tf := LogRegTF.get_dataset rng shuffle X y true o (py_random s) in
  let np := get_dataset shuffle X y true s in
  fst (fst tf) = fst np
  /\ LogRegTF._X_train (snd (fst tf)) = _X_train (self (snd np))
  /\ LogRegTF._y_train (snd (fst tf)) = _y_train (self (snd np))
  /\ LogRegTF._n_examples (snd (fst tf)) = _n_examples (self (snd np))
  /\ LogRegTF._n_inputs (snd (fst tf)) = _n_inputs (self (snd np))
  /\ snd tf = py_random (snd np).
Proof.
  unfold LogRegTF.get_dataset, get_dataset, random_shuffle, bind, assign, modify,
    attr, lift, matrix_take. simpl.
  destruct (shuffle (py_random s) (seq 0 (shape0 X))) as [idx g]. simpl.
  destruct (take_rows idx (rows X)) as [rows' | e]; simpl; [| repeat split].
  destruct (take_rows idx y) as [y' | e]; simpl; repeat split.
Qed.

Lemma tf_fetch_batch_yield_run (o : LogRegTF.obj) X y bs k :
  LogRegTF._X_train o = Some X -> LogRegTF._y_train o = Some y ->
  LogRegTF._n_examples o = Some (shape0 X) ->
  LogRegTF._batch_size o = Z.of_nat bs -> length y = shape0 X ->
  k * bs < shape0 X ->
  LogRegTF._fetch_batch_yield o (seq 0 (shape0 X)) (Z.of_nat (k * bs))
  = Ok (Descent.batch_at X y (shape0 X) bs k).
Proof.
  intros HX Hy Hn Hbs Hlen Hk. unfold LogRegTF._fetch_batch_yield.
  rewrite Hn, Hbs, HX, Hy.
  replace (Z.to_nat (Z.min (Z.of_nat (k * bs) + Z.of_nat bs) (Z.of_nat (shape0 X))))
    with (Nat.min (k * bs + bs) (shape0 X)) by lia.
  rewrite Nat2Z.id, py_slice_seq by lia.
  unfold matrix_take.
  rewrite take_rows_seq by (unfold shape0 in *; lia).
  rewrite take_rows_seq by (unfold shape0 in *; lia).
  reflexivity.
Qed.

(** Property X19.  On the same stored data and batch size, [_fetch_batch] of
    the TensorFlow class yields the same list of batches as [_fetch_batch]
    of the numpy class, the contiguous row ranges of the stored arrays. *)
Theorem tf_batches_like_numpy (o : LogRegTF.obj) (s : world rng)
    (X : matrix) (y : list R) (bs : nat) :
  dataset_ok s X y bs ->
  LogRegTF._X_train o = Some X -> LogRegTF._y_train o = Some y ->
  LogRegTF._n_examples o = Some (shape0 X) ->
  LogRegTF._batch_size o = Z.of_nat bs ->
  LogRegTF.list_fetch_batch o = fst (list_fetch_batch s)
  /\ LogRegTF.list_fetch_batch o = Ok (Descent.batches X y (shape0 X) bs).
Proof.
  intros Hds HX Hy Hn Hbs.
  pose proof (ok_batch_pos _ _ _ _ _ Hds) as Hpos.
  pose proof (ok_labels _ _ _ _ _ Hds) as Hlen.
  rewrite (list_fetch_batch_run s X y bs Hds). cbn [fst].
  assert (Hrun : LogRegTF.list_fetch_batch o = Ok (Descent.batches X y (shape0 X) bs));
    [| now rewrite Hrun].
  unfold LogRegTF.list_fetch_batch. rewrite Hn, Hbs, py_range3_batches by exact Hpos.
  unfold Descent.batches.
  pose proof (batch_starts_in_range (shape0 X) bs Hpos) as Hks.
  induction Hks as [| k ks Hk _ IH]; [reflexivity |].
  cbn [map LogRegTF.drain].
  rewrite (tf_fetch_batch_yield_run o X y bs k HX Hy Hn Hbs Hlen Hk).
  now rewrite IH.
Qed.
End TensorFlowClass.

Lemma tf_get_dataset_unshuffled_witness :
  shape0 Example.X <= length Example.y
  /\ fst (fst (LogRegTF.get_dataset unit Example.flip Example.X Example.y false
                 (LogRegTF.__init__ 2 1%R 3) tt)) = Ok tt.
Proof.
  assert (H : shape0 Example.X <= length Example.y) by (vm_compute; lia).
  split; [exact H |].
  now rewrite (proj1 (tf_get_dataset_unshuffled Example.flip Example.X Example.y
                        (LogRegTF.__init__ 2 1%R 3) tt) H).
Defined.

Lemma tf_batches_like_numpy_witness :
  dataset_ok Example.loaded Example.X Example.y 2
  /\ LogRegTF.list_fetch_batch Sample.tf_loaded = fst (list_fetch_batch Example.loaded).
Proof.
  split; [exact dataset_ok_loaded |].
  exact (proj1 (tf_batches_like_numpy Sample.tf_loaded Example.loaded Example.X Example.y 2
                  dataset_ok_loaded eq_refl eq_refl eq_refl eq_refl)).
Defined.

(** ** The train/test split of [main] *)

Section Split.

Lemma slice_bound_neg (n t : nat) :
  0 < t -> Script.slice_bound n (- Z.of_nat t) = n - t.
Proof. intros H. unfold Script.slice_bound. rewrite decide_True by lia. lia. Qed.

Lemma slice_bound_zero (n : nat) : Script.slice_bound n (- Z.of_nat 0) = 0.
Proof. reflexivity. Qed.

(** Property X20.  For a test size between 1 and the number of rows, the
    split of [main] cuts data and labels at the same place: training part
    followed by test part gives back the input, the test part has exactly
    [test_size] rows, and examples stay paired with their labels. *)
Theorem split_partitions (data : list (list R)) (label : list R) (t : nat) :
  length label = length data -> 0 < t <= length data ->
  let sp := Script.train_test_split data label t in
  Script.X_train sp ++ Script.X_test sp = data
  /\ Script.y_train sp ++ Script.y_test sp = label
  /\ length (Script.X_test sp) = t /\ length (Script.y_test sp) = t
  /\ length (Script.X_train sp) = length data - t
  /\ length (Script.y_train sp) = length data - t
  /\ zip (Script.X_train sp) (Script.y_train sp)
       ++ zip (Script.X_test sp) (Script.y_test sp)
     = zip data label.
Proof.
  intros Hlen Ht sp. unfold sp, Script.train_test_split, Script.slice_to, Script.slice_from.
  cbn [Script.X_train Script.X_test Script.y_train Script.y_test].
  rewrite !slice_bound_neg by lia. rewrite Hlen.
  rewrite !take_drop, !length_drop, !length_take.
  repeat split; try lia.
  rewrite <- (take_drop (length data - t) (zip data label)).
  f_equal; [symmetry; apply zip_with_take | symmetry; apply zip_with_drop].
Qed.

(** Property X21.  When the test size is 0, as [int(n * 0.2)] is for fewer
    than five rows, [data[:-0]] is empty and [data[-0:]] is everything: the
    training set is empty and the test set is the whole input (the same
    happens when the test size is at least the number of rows). *)
Theorem split_with_empty_test_size (data : list (list R)) (label : list R) (t : nat) :
  t = 0 \/ length data <= t -> length label = length data ->
  let sp := Script.train_test_split data label t in
  Script.X_train sp = [] /\ Script.y_train sp = []
  /\ Script.X_test sp = data /\ Script.y_test sp = label.
Proof.
  intros Ht Hlen sp. unfold sp, Script.train_test_split, Script.slice_to, Script.slice_from.
  cbn [Script.X_train Script.X_test Script.y_train Script.y_test].
  assert (Hb : forall n, n = length data ->
                 Script.slice_bound n (- Z.of_nat t) = 0).
  { intros n ->. destruct Ht as [-> | Ht]; [apply slice_bound_zero |].
    destruct t as [| t']; [apply slice_bound_zero |].
    rewrite slice_bound_neg by lia. lia. }
  rewrite (Hb (length data) eq_refl), (Hb (length label) Hlen).
  now rewrite !take_0, !drop_0.
Qed.
End Split.

Lemma split_partitions_witness :
  0 < 1 <= length (rows Example.X)
  /\ length (Script.X_test (Script.train_test_split (rows Example.X) Example.y 1)) = 1.
Proof.
  assert (H : 0 < 1 <= length (rows Example.X)) by (vm_compute; lia).
  split; [exact H |].
  exact (proj1 (proj2 (proj2 (split_partitions (rows Example.X) Example.y 1 eq_refl H)))).
Defined.

Lemma split_with_empty_test_size_witness :
  Script.X_train (Script.train_test_split (rows Example.X) Example.y 0) = []
  /\ Script.X_test (Script.train_test_split (rows Example.X) Example.y 0) = rows Example.X.
Proof.
  destruct (split_with_empty_test_size (rows Example.X) Example.y 0 (or_introl eq_refl) eq_refl)
    as (H1 & _ & H3 & _).
  split; assumption.
Defined.

(** ** Indexing the dataset adapter *)

Section DatasetIndexing.
Import Dataset.
Context {Example Label callable E : Type}.
Variable call : callable -> pyval Example Label callable -> pyval Example Label callable + E.
Implicit Types ds : CustomDataset Example Label callable.

Lemma py_index_nonneg {A} (a : list A) (i : nat) :
  py_index a (Z.of_nat i) = a !! i.
Proof.
  unfold py_index. destruct (decide (0 <= Z.of_nat i < Z.of_nat (length a))%Z).
  - now rewrite Nat2Z.id.
  - rewrite decide_False by lia. symmetry. apply lookup_ge_None_2. lia.
Qed.

Lemma py_index_negative {A} (a : list A) (k : nat) :
  0 < k <= length a -> py_index a (- Z.of_nat k) = a !! (length a - k).
Proof.
  intros Hk. unfold py_index.
  rewrite decide_False by lia. rewrite decide_True by lia. f_equal. lia.
Qed.

Lemma py_index_out_of_range {A} (a : list A) (idx : Z) :
  (Z.of_nat (length a) <= idx \/ idx < - Z.of_nat (length a))%Z ->
  py_index a idx = None.
Proof.
  intros H. unfold py_index. rewrite decide_False by lia. now rewrite decide_False by lia.
Qed.

(** Property X22.  When the two tables have the same length, a negative
    index counts from the end: [__getitem__(-k)] is [__getitem__(len - k)]
    for [1 <= k <= len]. *)
Theorem getitem_negative_index ds (k : nat) :
  length (examples ds) = length (labels ds) -> 0 < k <= __len__ ds ->
  __getitem__ call ds (- Z.of_nat k)
  = __getitem__ call ds (Z.of_nat (__len__ ds - k)).
Proof.
  intros Hlen Hk. unfold __getitem__, __len__ in *.
  rewrite (py_index_negative (examples ds)), (py_index_negative (labels ds)) by lia.
  rewrite !py_index_nonneg, Hlen. reflexivity.
Qed.

(** Property X23.  An index at or beyond [__len__], or below its negative,
    raises IndexError; with tables of the same length every index from
    [-len] to [len - 1] does not; but [__len__] counts labels only, so with
    fewer examples than labels an index below [__len__] raises IndexError. *)
Theorem getitem_index_range ds (idx : Z) :
  ((Z.of_nat (__len__ ds) <= idx \/ idx < - Z.of_nat (__len__ ds))%Z ->
     __getitem__ call ds idx = IndexErr)
  /\ (length (examples ds) = length (labels ds) ->
      (- Z.of_nat (__len__ ds) <= idx < Z.of_nat (__len__ ds))%Z ->
      __getitem__ call ds idx <> IndexErr)
  /\ (length (examples ds) < length (labels ds) ->
      (Z.of_nat (length (examples ds)) < Z.of_nat (__len__ ds))%Z
      /\ __getitem__ call ds (Z.of_nat (length (examples ds))) = IndexErr).
Proof.
  unfold __len__. split; [| split].
  - intros H. unfold __getitem__.
    rewrite (py_index_out_of_range (labels ds)) by exact H.
    now destruct (py_index (examples ds) idx).
  - intros Hlen H. unfold __getitem__.
    assert (Hin : forall A (a : list A), length a = length (labels ds) ->
                    is_Some (py_index a idx)).
    { intros A a Ha. unfold py_index. rewrite Ha.
      destruct (decide (0 <= idx < Z.of_nat (length (labels ds)))%Z).
      - apply lookup_lt_is_Some_2. lia.
      - rewrite decide_True by lia. apply lookup_lt_is_Some_2. lia. }
    destruct (Hin _ (examples ds) Hlen) as [ex ->].
    destruct (Hin _ (labels ds) eq_refl) as [lb ->].
    destruct (transform ds) as [f |]; [destruct (call f _) |];
      destruct (target_transform ds) as [g |]; try destruct (call g _); discriminate.
  - intros H. split; [lia |]. unfold __getitem__.
    rewrite py_index_nonneg, lookup_ge_None_2 by lia. reflexivity.
Qed.

(** Property X24.  Without transforms and with tables of the same length,
    reading the items [0 .. __len__ - 1] returns the rows of the example
    table paired with the labels, in order: the adapter enumerates exactly
    the data it was built from. *)
Theorem getitem_enumerates_tables ds :
  transform ds = None -> target_transform ds = None ->
  length (examples ds) = length (labels ds) ->
  map (__getitem__ call ds) (py_range (Z.of_nat (__len__ ds)))
  = zip_with (fun ex lb => Item (VExample ex) (VLabel lb)) (examples ds) (labels ds).
Proof.
  intros Ht Htt Hlen. unfold py_range, __len__. rewrite Nat2Z.id, map_map.
  apply list_eq. intros i. rewrite list_lookup_fmap, lookup_zip_with.
  destruct (decide (i < length (labels ds))) as [Hi | Hi].
  - rewrite lookup_seq_lt by exact Hi. simpl.
    unfold __getitem__. rewrite !py_index_nonneg, Ht, Htt.
    destruct (lookup_lt_is_Some_2 (examples ds) i ltac:(lia)) as [ex ->].
    destruct (lookup_lt_is_Some_2 (labels ds) i Hi) as [lb ->]. reflexivity.
  - rewrite lookup_seq_ge by lia. simpl.
    now rewrite (lookup_ge_None_2 (examples ds)) by lia.
Qed.
End DatasetIndexing.

Lemma getitem_negative_index_witness :
  0 < 1 <= Dataset.__len__ Example.counted
  /\ Dataset.__getitem__ Example.call_fn Example.counted (-1)
     = Dataset.__getitem__ Example.call_fn Example.counted 2.
Proof.
  assert (H : 0 < 1 <= Dataset.__len__ Example.counted) by (vm_compute; lia).
  split; [exact H |].
  exact (getitem_negative_index Example.call_fn Example.counted 1 eq_refl H).
Defined.

Lemma getitem_enumerates_tables_witness :
  Dataset.transform Sample.plain = None
  /\ length (map (Dataset.__getitem__ Example.call_fn Sample.plain)
                 (py_range (Z.of_nat (Dataset.__len__ Sample.plain)))) = 3.
Proof.
  split; [reflexivity |].
  now rewrite (getitem_enumerates_tables Example.call_fn Sample.plain eq_refl eq_refl eq_refl).
Defined.

(** ** Coefficients, restarts and the size of a step *)

Section Coefficients.
Context {rng : Type}.
Implicit Types s : world rng.
Import Locality.

Lemma fit_leaves_existing s (l : loc) :
  is_Some (heap s !! l) -> heap (snd (fit s)) !! l = heap s !! l.
Proof.
  intros Hl. unfold fit.
  destruct (_n_inputs (self s)) as [d |] eqn:Hd.
  - destruct (create_weights_run s d Hd) as (Hrun & Hne & Hfw & Hfb).
    set (lw := fresh (dom (heap s))) in *.
    set (lb := fresh (dom (<[lw := repeat 0%R d]> (heap s)))) in *.
    rewrite (bind_ok _ _ _ _ _ Hrun), gets_bind.
    set (s1 := with_self (set_b lb) _) in *.
    assert (Hlw : lw <> l) by (intros ->; rewrite Hfw in Hl; now destruct Hl).
    assert (Hlb : lb <> l) by (intros ->; rewrite Hfb in Hl; now destruct Hl).
    destruct (leaves_array_fit_epochs l (py_range (_n_epochs (self s1))) s1)
      as (Hw & Hb & Hh).
    { simpl. congruence. }
    { simpl. congruence. }
    rewrite Hh. unfold s1. simpl. now rewrite !lookup_insert_ne by auto.
  - unfold _create_weights.
    now rewrite !(bind_fail _ _ _ _ _ (bind_fail _ _ _ _ _ (attr_missing _ _ Hd))).
Qed.

(** Property X25.  [get_coeff] returns the bias array first and the weights
    second, and these are the arrays the model uses: after a later
    [_optimize] they hold the updated parameters, while after a later [fit],
    which starts on new arrays, they still hold the old values. *)
Theorem get_coeff_returns_live_arrays s lw lb w b (X : matrix) (y : list R) :
  params_at s lw lb (w, b) ->
  get_coeff s = (Ok (lb, lw), s)
  /\ (shape1 X = length w -> length y = shape0 X -> shape0 X <> 0 ->
      heap (snd (_optimize X y s)) !! lw
        = Some (fst (Descent.step (_lr (self s)) (X, y) (w, b)))
      /\ heap (snd (_optimize X y s)) !! lb
        = Some [snd (Descent.step (_lr (self s)) (X, y) (w, b))])
  /\ heap (snd (fit s)) !! lw = Some w
  /\ heap (snd (fit s)) !! lb = Some [b].
Proof.
  intros [Hw Hb Hne Hlw Hlb]. simpl in Hlw, Hlb.
  split; [| split; [| split]].
  - unfold get_coeff.
    rewrite (bind_ok _ _ _ _ _ (attr_ok _ _ _ Hb)).
    now rewrite (bind_ok _ _ _ _ _ (attr_ok _ _ _ Hw)).
  - intros Hd Hy Hm.
    rewrite (optimize_run X y s lw lb w b Hw Hb Hne Hlw Hlb Hd Hy Hm). simpl.
    split.
    + rewrite lookup_insert_ne by auto. now rewrite lookup_insert_eq.
    + now rewrite lookup_insert_eq.
  - rewrite fit_leaves_existing by (rewrite Hlw; eauto). exact Hlw.
  - rewrite fit_leaves_existing by (rewrite Hlb; eauto). exact Hlb.
Qed.

(** Property X26.  [fit] does not start from earlier parameters: two
    instances with the same stored data, batch size, learning rate and
    number of epochs end with the same parameters, whatever parameters and
    arrays they had before. *)
Theorem fit_restarts_from_zero (s1 s2 : world rng) (X : matrix) (y : list R) (bs : nat) :
  dataset_ok s1 X y bs -> dataset_ok s2 X y bs ->
  _lr (self s1) = _lr (self s2) -> _n_epochs (self s1) = _n_epochs (self s2) ->
  exists lw1 lb1 lw2 lb2 p,
    fst (fit s1) = Ok tt /\ fst (fit s2) = Ok tt
    /\ params_at (snd (fit s1)) lw1 lb1 p
    /\ params_at (snd (fit s2)) lw2 lb2 p.
Proof.
  intros H1 H2 Hlr Hne.
  destruct (fit_run s1 X y bs H1) as (t1 & lw1 & lb1 & pr1 & Hf1 & _ & _ & _ & Hp1 & _).
  destruct (fit_run s2 X y bs H2) as (t2 & lw2 & lb2 & pr2 & Hf2 & _ & _ & _ & Hp2 & _).
  rewrite <- Hlr, <- Hne in Hp2.
  exists lw1, lb1, lw2, lb2,
    (Descent.train (_lr (self s1)) (Descent.batches X y (shape0 X) bs)
       (Z.to_nat (_n_epochs (self s1))) (repeat 0%R (shape1 X), 0%R)).
  rewrite Hf1, Hf2. cbn [fst snd]. auto.
Qed.
End Coefficients.

Section StepSize.
Local Open Scope R_scope.

(** Property X27.  The stabilised log-sum-exp of [_loss] equals [ln (1 + exp
    z)] and exceeds [max(0, z)] by more than 0 and at most [ln 2]. *)
Theorem logsumexp_stable_bounds (z : R) :
  logsumexp_stable z = ln (1 + exp z)
  /\ Rmax 0 z < logsumexp_stable z <= Rmax 0 z + ln 2.
Proof.
  split; [apply logsumexp_stable_ln |].
  unfold logsumexp_stable. fold (logit_max z).
  destruct (denom_bounds z) as [Hlo Hhi].
  set (D := exp (- logit_max z) + exp (logit_stable z)) in *.
  assert (0 < ln D) by (rewrite <- ln_1; apply ln_increasing; lra).
  assert (ln D <= ln 2).
  { destruct Hhi as [Hlt | ->]; [left; apply ln_increasing; lra | right; reflexivity]. }
  unfold logit_max in *. lra.
Qed.

Lemma np_sum_bounds (a : list R) (lo hi : R) :
  Forall (fun x => lo < x < hi) a -> a <> [] ->
  INR (length a) * lo < np_sum a < INR (length a) * hi.
Proof.
  intros Hall Hne. induction Hall as [| x a Hx Hall IH]; [congruence |].
  change (length (x :: a)) with (S (length a)). rewrite S_INR. simpl.
  destruct a as [| x' a'].
  - simpl. lra.
  - assert (Hne' : x' :: a' <> []) by discriminate.
    specialize (IH Hne'). lra.
Qed.

Lemma np_mean_bounds (a : list R) (lo hi : R) :
  Forall (fun x => lo < x < hi) a -> a <> [] -> lo < np_mean a < hi.
Proof.
  intros Hall Hne. pose proof (np_sum_bounds a lo hi Hall Hne) as [Hl Hh].
  assert (Hn : 0 < INR (length a)).
  { apply lt_0_INR. destruct a; [congruence | simpl; lia]. }
  unfold np_mean. split.
  - apply (Rmult_lt_reg_r (INR (length a))); [exact Hn |].
    unfold Rdiv. rewrite Rmult_assoc, Rinv_l by lra. lra.
  - apply (Rmult_lt_reg_r (INR (length a))); [exact Hn |].
    unfold Rdiv. rewrite Rmult_assoc, Rinv_l by lra. lra.
Qed.

Lemma residual_bounds X y w b :
  Forall is_label y ->
  Forall (fun x => -1 < x < 1) (Descent.residual X y w b).
Proof.
  intros Hlab. unfold Descent.residual.
  generalize (Descent.logits X w b) as zs.
  induction Hlab as [| a ys Ha _ IH]; intros [| z zs]; simpl; constructor;
    [| apply IH].
  pose proof (sigmoid_elem_range z). destruct Ha as [-> | ->]; lra.
Qed.

(** Property X28.  For binary labels and a non-empty batch the bias gradient
    lies strictly between -1 and 1, so one update with a positive learning
    rate moves the bias by less than the learning rate. *)
Theorem bias_step_smaller_than_learning_rate (X : matrix) (y w : list R) (b lr : R) :
  Forall is_label y -> length y = shape0 X -> shape0 X <> 0%nat -> 0 < lr ->
  -1 < Descent.grad_b X y w b < 1
  /\ Rabs (snd (Descent.step lr (X, y) (w, b)) - b) < lr.
Proof.
  intros Hlab Hlen Hm Hlr.
  assert (Hg : -1 < Descent.grad_b X y w b < 1).
  { unfold Descent.grad_b.
    destruct (np_mean_bounds (Descent.residual X y w b) (-1) 1) as [Hl Hh].
    - now apply residual_bounds.
    - intros Hnil. apply (f_equal length) in Hnil.
      rewrite length_residual in Hnil by exact Hlen. simpl in Hnil. lia.
    - lra. }
  split; [exact Hg |]. simpl.
  replace (b - lr * Descent.grad_b X y w b - b) with (- (lr * Descent.grad_b X y w b))
    by ring.
  rewrite Rabs_Ropp. apply Rabs_def1; nra.
Qed.
End StepSize.

Lemma get_coeff_returns_live_arrays_witness :
  params_at Example.ready 0 1 ([0; 0]%R, 0%R)
  /\ get_coeff Example.ready = (Ok (1, 0), Example.ready).
Proof.
  split; [exact params_at_ready |].
  exact (proj1 (get_coeff_returns_live_arrays Example.ready 0 1 _ _ Example.X Example.y
                  params_at_ready)).
Defined.

Lemma dataset_ok_ready : dataset_ok Example.ready Example.X Example.y 2.
Proof. constructor; try reflexivity. lia. Qed.

Lemma fit_restarts_from_zero_witness :
  dataset_ok Example.loaded Example.X Example.y 2
  /\ fst (fit Example.ready) = Ok tt.
Proof.
  split; [exact dataset_ok_loaded |].
  destruct (fit_restarts_from_zero Example.loaded Example.ready Example.X Example.y 2
              dataset_ok_loaded dataset_ok_ready eq_refl eq_refl)
    as (lw1 & lb1 & lw2 & lb2 & p & _ & H2 & _).
  exact H2.
Defined.

Lemma bias_step_smaller_than_learning_rate_witness :
  Forall is_label Example.y
  /\ (-1 < Descent.grad_b Example.X Example.y [0; 0] 0 < 1)%R.
Proof.
  assert (H : Forall is_label Example.y).
  { constructor; [left; reflexivity |].
    constructor; [right; reflexivity |].
    constructor; [right; reflexivity | constructor]. }
  split; [exact H |].
  exact (proj1 (bias_step_smaller_than_learning_rate Example.X Example.y [0; 0]%R 0%R 1%R
                  H eq_refl ltac:(discriminate) ltac:(lra))).
Defined.
